(** * BananaBrain: a shallow embedding of the DQN agent

    The development follows [dqn_agent.py] and [model.py]:

    - [F64] and [F32] are IEEE-754 binary64 (Python [float]) and binary32
      (torch [float32]) arithmetic, built on the Standard Library's
      executable specification [SpecFloat];
    - [Py] is the interpreter monad: an explicit [World] (the state of
      Python's [random] module, torch's default generator and a call
      trace) threaded through computations that may raise;
    - [Runtime] gathers the library routines whose results the source
      does not determine (pseudo-random draws, the matrix kernel of
      [nn.Linear], autograd and Adam);
    - [ReplayBuffer], [QNetwork] and [Agent] embed the three classes. *)

From Stdlib Require Import String ZArith List Bool Lia.
From Stdlib Require Import Floats.SpecFloat.
Import ListNotations.

Set Implicit Arguments.
Open Scope string_scope.
Open Scope list_scope.
Open Scope Z_scope.

(** ** Floating point *)

(** Python floats: binary64. *)
Module F64.
Definition prec : Z := 53.
Definition emax : Z := 1024.
Definition t := spec_float.

Definition of_Z (z : Z) : t := binary_normalize prec emax z 0 false.
Definition sub : t -> t -> t := SFsub prec emax.
Definition div : t -> t -> t := SFdiv prec emax.
Definition ltb : t -> t -> bool := SFltb.

(** A decimal literal [n / d] (for instance [1e-3] is [1 / 1000]):
    the nearest binary64, as Python's parser yields. *)
Definition literal (n d : Z) : t := div (of_Z n) (of_Z d).
End F64.

(** torch's default dtype: binary32. *)
Module F32.
Definition prec : Z := 24.
Definition emax : Z := 128.
Definition t := spec_float.

Definition of_Z (z : Z) : t := binary_normalize prec emax z 0 false.
Definition add : t -> t -> t := SFadd prec emax.
Definition sub : t -> t -> t := SFsub prec emax.
Definition mul : t -> t -> t := SFmul prec emax.
Definition ltb : t -> t -> bool := SFltb.
Definition leb : t -> t -> bool := SFleb.
Definition eqb : t -> t -> bool := SFeqb.

Definition zero : t := S754_zero false.
Definition one : t := of_Z 1.

(** [.float()] on a float64 array, and the cast of a Python scalar
    operand to the tensor's dtype: round to nearest even. *)
Definition of_f64 (x : F64.t) : t :=
  match x with
  | S754_finite s m e => binary_round prec emax s m e
  | _ => x
  end.

Definition is_nan (x : t) : bool :=
  match x with S754_nan => true | _ => false end.

(** Zero or finite: neither an infinity nor NaN. *)
Definition is_finite (x : t) : bool :=
  match x with S754_zero _ | S754_finite _ _ _ => true | _ => false end.

(** A binary32 datum: mantissa and exponent in canonical form. *)
Definition valid (x : t) : bool := valid_binary prec emax x.

(** [lo <= x <= hi] or [hi <= x <= lo], with IEEE comparisons. *)
Definition between (x a b : t) : bool :=
  (leb a x && leb x b) || (leb b x && leb x a).
End F32.

(** A tensor of rank 1 is a list of binary32 numbers; a tensor of
    rank 2 is the list of its rows.  Column tensors of shape [[k, 1]]
    are kept as rank 1. *)
Definition tensor := list F32.t.
Definition tensor2 := list tensor.

(** Elementwise binary operation on tensors of one shape. *)
Fixpoint map2 {A B C} (f : A -> B -> C) (xs : list A) (ys : list B) : list C :=
  match xs, ys with
  | x :: xs', y :: ys' => f x y :: map2 f xs' ys'
  | _, _ => []
  end.

(** [c * t] with [c] a Python float: the scalar is cast to the dtype of
    the tensor, and the products are taken in binary32. *)
Definition scalar_mul (c : F64.t) (x : tensor) : tensor :=
  map (F32.mul (F32.of_f64 c)) x.

(** [c - t] with [c] a Python number, cast likewise. *)
Definition scalar_rsub (c : F64.t) (x : tensor) : tensor :=
  map (F32.sub (F32.of_f64 c)) x.

Definition tensor_add : tensor -> tensor -> tensor := map2 F32.add.
Definition tensor_mul : tensor -> tensor -> tensor := map2 F32.mul.

(** ** Module constants of [dqn_agent.py] *)

Definition BUFFER_SIZE : Z := 100000.
Definition BATCH_SIZE : Z := 64.
Definition GAMMA : F64.t := F64.literal 99 100.
Definition TAU : F64.t := F64.literal 1 1000.
Definition LR : F64.t := F64.literal 5 10000.
Definition UPDATE_EVERY : Z := 4.

(** ** Exceptions and results *)

(** A raised exception: its class name and its message. *)
Inductive exn := PyExc (cls msg : string).

Definition exn_class (e : exn) : string := let 'PyExc c _ := e in c.

Definition ValueError := PyExc "ValueError".
Definition RuntimeError := PyExc "RuntimeError".
Definition IndexError := PyExc "IndexError".

(** The exceptions of the library calls the source makes. *)
Definition empty_stack : exn :=
  ValueError "need at least one array to concatenate".
Definition ragged_stack : exn :=
  ValueError
    "all the input array dimensions except for the concatenation axis must match exactly".
Definition empty_max : exn :=
  IndexError "max(): Expected reduction dim 1 to have non-zero size.".
Definition empty_argmax : exn :=
  ValueError "attempt to get argmax of an empty sequence".
Definition gather_range : exn := RuntimeError "index out of range in gather".
Definition matmul_shapes : exn :=
  RuntimeError "mat1 and mat2 shapes cannot be multiplied".
Definition negative_maxlen : exn := ValueError "maxlen must be non-negative".
Definition sample_too_large : exn :=
  ValueError "Sample larger than population or is negative".
Definition empty_choice : exn := IndexError "Cannot choose from an empty sequence".

Inductive result (A : Type) :=
| Ok (a : A)
| Raise (e : exn).
Arguments Ok {A} a.
Arguments Raise {A} e.

Definition is_ok {A} (r : result A) : bool :=
  match r with Ok _ => true | Raise _ => false end.

Definition raisesb {A} (r : result A) (cls : string) : bool :=
  match r with
  | Ok _ => false
  | Raise e => String.eqb (exn_class e) cls
  end.

Definition raises {A} (r : result A) (cls : string) : Prop :=
  exists msg, r = Raise (PyExc cls msg).

(** ** Call trace *)

Inductive net_ref := Local | Target.

Inductive event :=
| EvSample                      (* ReplayBuffer.sample entered *)
| EvLearn                       (* Agent.learn entered *)
| EvForward (r : net_ref)       (* a network evaluated *)
| EvOptimizerStep               (* zero_grad; backward; optimizer.step *)
| EvSoftUpdate.                 (* Agent.soft_update entered *)

Definition event_eqb (a b : event) : bool :=
  match a, b with
  | EvSample, EvSample | EvLearn, EvLearn
  | EvOptimizerStep, EvOptimizerStep | EvSoftUpdate, EvSoftUpdate => true
  | EvForward Local, EvForward Local | EvForward Target, EvForward Target => true
  | _, _ => false
  end.

Definition count_event (e : event) (tr : list event) : nat :=
  length (filter (event_eqb e) tr).

(** ** Library routines left to the runtime *)

Class Runtime := {
  (** state of Python's [random] module *)
  rng : Type;
  random_seed : Z -> rng;
  (** [random.random()]: a binary64 in [[0.0, 1.0)] *)
  random_random : rng -> F64.t * rng;
  (** [random.sample(population, k)] for [0 <= k <= len(population)] *)
  random_sample : forall A : Type, rng -> list A -> nat -> list A * rng;
  (** [random.choice(seq)] on a sequence of [n > 0] items: the index drawn *)
  random_choice : rng -> nat -> nat * rng;

  (** state of torch's default generator *)
  gen : Type;
  seed_generator : Z -> gen;
  (** the exception of [torch.manual_seed] on a seed that does not fit
      in 64 bits; its class and message differ between releases of
      torch *)
  seed_overflow : exn;
  (** [tensor.uniform_(-b, b)] with [b = 1 / sqrt(fan_in)] on [numel]
      elements: both [kaiming_uniform_(a = sqrt 5)] on a weight and the
      bias initialisation of [nn.Linear.reset_parameters] *)
  uniform_ : gen -> nat -> nat -> tensor * gen;

  (** one output feature of [F.linear]: [bias[j] + weight[j, :] . x],
      in the accumulation order of the BLAS kernel *)
  linear_out : tensor -> tensor -> nat -> tensor -> F32.t;

  (** state of [optim.Adam] *)
  optim : Type;
  Adam : list tensor -> F64.t -> optim;
  (** [loss = SmoothL1Loss()(Qsa_local, y); optimizer.zero_grad();
      loss.backward(); optimizer.step()]: the new parameter tensors of
      the network that produced [Qsa_local] from [states] and [actions] *)
  backward_step :
    optim -> list tensor -> tensor2 -> list Z -> tensor -> list tensor * optim
}.

(** The sampler returns [k] members of the population. *)
Class SamplerLaws (RT : Runtime) := {
  random_sample_length :
    forall (A : Type) (g : rng) (pop : list A) (k : nat),
      (k <= length pop)%nat -> length (fst (random_sample g pop k)) = k;
  random_sample_incl :
    forall (A : Type) (g : rng) (pop : list A) (k : nat),
      incl (fst (random_sample g pop k)) pop
}.

(** ** The interpreter monad

    A computation takes the interpreter state and returns a value or
    an exception together with the new state.  Objects are passed and
    returned as values; after an exception the object a method was
    mutating is not available, and no property below inspects it. *)

Record World {RT : Runtime} := {
  py_random : rng;
  torch_gen : gen;
  trace : list event
}.

Definition Py {RT : Runtime} (A : Type) : Type := World -> result A * World.

Section PyMonad.
Context {RT : Runtime}.

Definition ret {A} (a : A) : Py A := fun w => (Ok a, w).

Definition bind {A B} (m : Py A) (k : A -> Py B) : Py B :=
  fun w =>
    match m w with
    | (Ok a, w') => k a w'
    | (Raise e, w') => (Raise e, w')
    end.

Definition raise {A} (e : exn) : Py A := fun w => (Raise e, w).

Definition lift {A} (r : result A) : Py A := fun w => (r, w).

(** Record a call in the trace. *)
Definition emit (e : event) : Py unit :=
  fun w => (Ok tt, {| py_random := py_random w;
                      torch_gen := torch_gen w;
                      trace := trace w ++ [e] |}).

(** Run a draw of the [random] module. *)
Definition with_random {A} (f : rng -> A * rng) : Py A :=
  fun w => let (a, g) := f (py_random w) in
           (Ok a, {| py_random := g; torch_gen := torch_gen w; trace := trace w |}).

(** [random.seed(seed)] *)
Definition py_seed (seed : Z) : Py unit :=
  fun w => (Ok tt, {| py_random := random_seed seed;
                      torch_gen := torch_gen w; trace := trace w |}).

(** Run a draw of torch's default generator. *)
Definition with_gen {A} (f : gen -> A * gen) : Py A :=
  fun w => let (a, g) := f (torch_gen w) in
           (Ok a, {| py_random := py_random w; torch_gen := g; trace := trace w |}).

(** [for _ in range(n): self = body(self)] *)
Fixpoint for_range {A} (n : nat) (body : A -> Py A) (a : A) : Py A :=
  match n with
  | O => ret a
  | S n' => bind (body a) (for_range n' body)
  end.
End PyMonad.

Notation "x <- m ;; k" := (bind m (fun x => k))
  (at level 61, m at next level, right associativity).
Notation "m ;;; k" := (bind m (fun _ => k))
  (at level 61, right associativity).

(** ** numpy and torch helpers used by the source *)

(** [np.vstack(rows)] on rank-1 arrays: the rows must be non-empty in
    number and of one length. *)
Definition np_vstack {A} (rows : list (list A)) : result (list (list A)) :=
  match rows with
  | [] => Raise empty_stack
  | r :: rest =>
      if forallb (fun r' => Nat.eqb (length r') (length r)) rest
      then Ok rows
      else Raise ragged_stack
  end.

(** [np.vstack(scalars)]: a column of shape [[k, 1]], [k > 0]. *)
Definition np_vstack_scalars {A} (xs : list A) : result (list A) :=
  match xs with
  | [] => Raise empty_stack
  | _ => Ok xs
  end.

(** One step of the running maximum of numpy's and torch's reduction
    kernels: replace unless [x <= cur]; a NaN, once met, stays. *)
Definition max_step (cur x : F32.t) : F32.t :=
  if F32.is_nan cur then cur else if F32.leb x cur then cur else x.

(** [t.max(1)[0]] on one row. *)
Definition row_max (row : tensor) : result F32.t :=
  match row with
  | [] => Raise empty_max
  | x :: rest => Ok (fold_left max_step rest x)
  end.

Fixpoint traverse {A B} (f : A -> result B) (xs : list A) : result (list B) :=
  match xs with
  | [] => Ok []
  | x :: xs' =>
      match f x with
      | Raise e => Raise e
      | Ok y => match traverse f xs' with
                | Raise e => Raise e
                | Ok ys => Ok (y :: ys)
                end
      end
  end.

(** [np.argmax(a)] on the flattened array: first index of the maximum,
    a NaN counting as maximal. *)
Fixpoint argmax_from (cur : F32.t) (best i : nat) (xs : tensor) : nat :=
  match xs with
  | [] => best
  | x :: xs' =>
      if F32.is_nan cur then best
      else if F32.leb x cur then argmax_from cur best (S i) xs'
      else argmax_from x i (S i) xs'
  end.

Definition np_argmax (xs : tensor) : result nat :=
  match xs with
  | [] => Raise empty_argmax
  | x :: xs' => Ok (argmax_from x 0%nat 1%nat xs')
  end.

(** [torch.gather(q, 1, actions)] with [actions] of shape [[k, 1]] and
    [q] of [k] rows. *)
Fixpoint gather (q : tensor2) (actions : list Z) : result tensor :=
  match q, actions with
  | row :: q', a :: actions' =>
      if (0 <=? a) && (a <? Z.of_nat (length row))
      then match gather q' actions' with
           | Ok r => Ok (nth (Z.to_nat a) row S754_nan :: r)
           | Raise e => Raise e
           end
      else Raise gather_range
  | _, _ => Ok []
  end.

(** ** [model.py]: class QNetwork *)

Module QNetwork.
(** [nn.Linear]: the weight of shape [[out_features, in_features]] is
    kept flat, row-major. *)
Record Linear := {
  in_features : nat;
  out_features : nat;
  weight : tensor;
  bias : tensor
}.

Record t := { fc1 : Linear; fc2 : Linear; fc3 : Linear; fc4 : Linear }.

(** [module.parameters()]: registration order. *)
Definition parameters (net : t) : list tensor :=
  [weight (fc1 net); bias (fc1 net); weight (fc2 net); bias (fc2 net);
   weight (fc3 net); bias (fc3 net); weight (fc4 net); bias (fc4 net)].

Definition load_layer (l : Linear) (w b : tensor) : Linear :=
  {| in_features := in_features l; out_features := out_features l;
     weight := w; bias := b |}.

(** Write parameter tensors back in place ([param.data.copy_], the
    optimizer's update), in the order of [parameters]; a parameter
    without a new value keeps its own. *)
Definition load (net : t) (ps : list tensor) : t :=
  let p i := nth i ps (nth i (parameters net) []) in
  {| fc1 := load_layer (fc1 net) (p 0%nat) (p 1%nat);
     fc2 := load_layer (fc2 net) (p 2%nat) (p 3%nat);
     fc3 := load_layer (fc3 net) (p 4%nat) (p 5%nat);
     fc4 := load_layer (fc4 net) (p 6%nat) (p 7%nat) |}.

(** Default [negative_slope] of [F.leaky_relu]. *)
Definition negative_slope : F32.t := F32.of_f64 (F64.literal 1 100).

Definition leaky_relu (x : tensor2) : tensor2 :=
  map (map (fun a => if F32.ltb F32.zero a then a else F32.mul a negative_slope)) x.

Section WithRuntime.
Context {RT : Runtime}.

(** [torch.manual_seed(seed)]: a seed within [[-2^63, 2^64)] is taken
    modulo [2^64]; any other is refused. *)
Definition manual_seed (seed : Z) : Py unit :=
  if (- 2 ^ 63 <=? seed) && (seed <? 2 ^ 64)
  then fun w =>
    (Ok tt, {| py_random := py_random w;
               torch_gen := seed_generator (if seed <? 0 then 2 ^ 64 + seed else seed);
               trace := trace w |})
  else raise seed_overflow.

(** [nn.Linear(i, o)]: weight, then bias, drawn from the default
    generator. *)
Definition nn_Linear (i o : nat) : Py Linear :=
  w <- with_gen (fun g => uniform_ g (o * i) i) ;;
  b <- with_gen (fun g => uniform_ g o i) ;;
  ret {| in_features := i; out_features := o; weight := w; bias := b |}.

Definition init (state_size action_size : nat) (seed : Z) : Py t :=
  manual_seed seed ;;;
  l1 <- nn_Linear state_size 256 ;;
  l2 <- nn_Linear 256 128 ;;
  l3 <- nn_Linear 128 64 ;;
  l4 <- nn_Linear 64 action_size ;;
  ret {| fc1 := l1; fc2 := l2; fc3 := l3; fc4 := l4 |}.

(** Applying a layer to a batch: the last dimension of the input
    must be [in_features]. *)
Definition apply_Linear (l : Linear) (x : tensor2) : result tensor2 :=
  if forallb (fun row => Nat.eqb (length row) (in_features l)) x
  then Ok (map (fun row =>
             map (fun j => linear_out (weight l) (bias l) j row)
                 (seq 0 (out_features l))) x)
  else Raise matmul_shapes.

Definition forward (net : t) (state : tensor2) : result tensor2 :=
  match apply_Linear (fc1 net) state with
  | Raise e => Raise e
  | Ok layer =>
  match apply_Linear (fc2 net) (leaky_relu layer) with
  | Raise e => Raise e
  | Ok layer =>
  match apply_Linear (fc3 net) (leaky_relu layer) with
  | Raise e => Raise e
  | Ok layer => apply_Linear (fc4 net) (leaky_relu layer)
  end end end.
End WithRuntime.
End QNetwork.

(** ** [dqn_agent.py]: class ReplayBuffer *)

Module ReplayBuffer.
(** The namedtuple [Experience]. *)
Record Experience := {
  state : list F64.t;
  action : Z;
  reward : F64.t;
  next_state : list F64.t;
  done : bool
}.

(** [collections.deque(maxlen = n)] *)
Record deque (A : Type) := { items : list A; maxlen : Z }.

(** [d.append(x)]: push right, then drop the leftmost item when the
    length exceeds [maxlen]. *)
Definition append {A} (d : deque A) (x : A) : deque A :=
  let l := items d ++ [x] in
  {| items := if maxlen d <? Z.of_nat (length l) then tl l else l;
     maxlen := maxlen d |}.

Record t := {
  action_size : nat;
  memory : deque Experience;
  batch_size : Z
}.

(** The tuple [sample] returns: states, actions, rewards, next
    states, dones. *)
Definition batch : Type := tensor2 * list Z * tensor * tensor2 * tensor.

Definition add (self : t) (s : list F64.t) (a : Z) (r : F64.t)
    (ns : list F64.t) (d : bool) : t :=
  let e := {| state := s; action := a; reward := r; next_state := ns; done := d |} in
  {| action_size := action_size self;
     memory := append (memory self) e;
     batch_size := batch_size self |}.

(** [__len__] *)
Definition len (self : t) : Z := Z.of_nat (length (items (memory self))).

(** [.astype(np.uint8)] then [.float()] on a boolean. *)
Definition done_flag (d : bool) : F32.t := if d then F32.one else F32.zero.

Section WithRuntime.
Context {RT : Runtime}.

Definition init (action_size : nat) (buffer_size batch_size seed : Z) : Py t :=
  if buffer_size <? 0 then raise negative_maxlen
  else
    py_seed seed ;;;
    ret {| action_size := action_size;
           memory := {| items := []; maxlen := buffer_size |};
           batch_size := batch_size |}.

(** [random.sample(population, k)] *)
Definition py_sample {A} (population : list A) (k : Z) : Py (list A) :=
  if (0 <=? k) && (k <=? Z.of_nat (length population))
  then with_random (fun g => random_sample g population (Z.to_nat k))
  else raise sample_too_large.

(** The action column holds the stored integers: what
    [np.vstack(...)] and [.long()] give for actions that fit in 64
    bits, as [act] returns them. *)
Definition sample (self : t) : Py batch :=
  emit EvSample ;;;
  experiences <- py_sample (items (memory self)) (batch_size self) ;;
  states <- lift (np_vstack (map state experiences)) ;;
  actions <- lift (np_vstack_scalars (map action experiences)) ;;
  rewards <- lift (np_vstack_scalars (map reward experiences)) ;;
  next_states <- lift (np_vstack (map next_state experiences)) ;;
  dones <- lift (np_vstack_scalars (map done experiences)) ;;
  ret (map (map F32.of_f64) states,
       actions,
       map F32.of_f64 rewards,
       map (map F32.of_f64) next_states,
       map done_flag dones).
End WithRuntime.
End ReplayBuffer.

(** ** [dqn_agent.py]: class Agent *)

Module Agent.
Section WithRuntime.
Context {RT : Runtime}.

Record t := {
  state_size : nat;
  action_size : nat;
  qnetwork_local : QNetwork.t;
  qnetwork_target : QNetwork.t;
  optimizer : optim;
  memory : ReplayBuffer.t;
  t_step : Z
}.

(** The two networks are objects the agent holds; methods receive
    them by reference. *)
Definition get_net (self : t) (r : net_ref) : QNetwork.t :=
  match r with
  | Local => qnetwork_local self
  | Target => qnetwork_target self
  end.

Definition set_net (self : t) (r : net_ref) (net : QNetwork.t) : t :=
  {| state_size := state_size self;
     action_size := action_size self;
     qnetwork_local := match r with Local => net | Target => qnetwork_local self end;
     qnetwork_target := match r with Target => net | Local => qnetwork_target self end;
     optimizer := optimizer self;
     memory := memory self;
     t_step := t_step self |}.

Definition init (state_size action_size : nat) (seed : Z) : Py t :=
  py_seed seed ;;;
  local <- QNetwork.init state_size action_size seed ;;
  target <- QNetwork.init state_size action_size seed ;;
  buffer <- ReplayBuffer.init action_size BUFFER_SIZE BATCH_SIZE seed ;;
  ret {| state_size := state_size;
         action_size := action_size;
         qnetwork_local := local;
         qnetwork_target := target;
         optimizer := Adam (QNetwork.parameters local) LR;
         memory := buffer;
         t_step := 0 |}.

(** [tau*local_param.data + (1.-tau)*target_param.data] *)
Definition soft_update_param (tau : F64.t) (target_param local_param : tensor) : tensor :=
  tensor_add (scalar_mul tau local_param)
             (scalar_mul (F64.sub (F64.of_Z 1) tau) target_param).

Definition soft_update (self : t) (local_model target_model : net_ref)
    (tau : F64.t) : Py t :=
  emit EvSoftUpdate ;;;
  let target := get_net self target_model in
  let local := get_net self local_model in
  ret (set_net self target_model
         (QNetwork.load target
            (map2 (soft_update_param tau)
                  (QNetwork.parameters target) (QNetwork.parameters local)))).

(** [y = rewards + gamma*Qsa_max*(1-dones)], element by element, on
    three columns of one row count, as [sample] returns them.  (On
    columns of different row counts torch broadcasts a single row and
    raises otherwise; the properties of [learn] that depend on [y]
    state the row counts.) *)
Definition td_target (gamma : F64.t) (rewards Qsa_max dones : tensor) : tensor :=
  tensor_add rewards
    (tensor_mul (scalar_mul gamma Qsa_max) (scalar_rsub (F64.of_Z 1) dones)).

Definition num_epoches : nat := 10.

(** The body of the epoch loop of [learn]. *)
Definition epoch (states : tensor2) (actions : list Z) (y : tensor) (self : t) : Py t :=
  emit (EvForward Local) ;;;
  q <- lift (QNetwork.forward (qnetwork_local self) states) ;;
  Qsa_local <- lift (gather q actions) ;;
  emit EvOptimizerStep ;;;
  let (ps, opt) :=
    backward_step (optimizer self) (QNetwork.parameters (qnetwork_local self))
                  states actions y in
  let self :=
    {| state_size := state_size self;
       action_size := action_size self;
       qnetwork_local := QNetwork.load (qnetwork_local self) ps;
       qnetwork_target := qnetwork_target self;
       optimizer := opt;
       memory := memory self;
       t_step := t_step self |} in
  soft_update self Local Target TAU.

Definition learn (self : t) (experiences : ReplayBuffer.batch) (gamma : F64.t) : Py t :=
  emit EvLearn ;;;
  let '(states, actions, rewards, next_states, dones) := experiences in
  emit (EvForward Target) ;;;
  q_next <- lift (QNetwork.forward (qnetwork_target self) next_states) ;;
  Qsa_max <- lift (traverse row_max q_next) ;;
  let y := td_target gamma rewards Qsa_max dones in
  for_range num_epoches (epoch states actions y) self.

Definition step (self : t) (state : list F64.t) (action : Z) (reward : F64.t)
    (next_state : list F64.t) (done : bool) : Py t :=
  let self :=
    {| state_size := state_size self;
       action_size := action_size self;
       qnetwork_local := qnetwork_local self;
       qnetwork_target := qnetwork_target self;
       optimizer := optimizer self;
       memory := ReplayBuffer.add (memory self) state action reward next_state done;
       t_step := (t_step self + 1) mod UPDATE_EVERY |} in
  if t_step self =? 0 then
    if BATCH_SIZE <? ReplayBuffer.len (memory self) then
      experiences <- ReplayBuffer.sample (memory self) ;;
      learn self experiences GAMMA
    else ret self
  else ret self.

(** [eval()] and [train()] only toggle the mode flag, which no layer
    of [QNetwork] reads; [no_grad] does not change values. *)
Definition act (self : t) (state : list F64.t) (eps : F64.t) : Py nat :=
  let state := [map F32.of_f64 state] in
  emit (EvForward Local) ;;;
  action_values <- lift (QNetwork.forward (qnetwork_local self) state) ;;
  r <- with_random random_random ;;
  if F64.ltb eps r then lift (np_argmax (concat action_values))
  else
    if Nat.eqb (action_size self) 0
    then raise empty_choice
    else with_random (fun g => random_choice g (action_size self)).
End WithRuntime.
Arguments t : clear implicits.
Arguments t {RT}.
End Agent.

(** ** A deterministic runtime

    Scripted draws, zero initialisation, a sequential kernel and an
    optimizer with learning rate zero; it serves to run the model on
    concrete inputs. *)

Module Scripted.
(** [random.random()] reads the next scripted draw, [0.5] once the
    script is exhausted. *)
Definition next_draw (g : list F64.t) : F64.t * list F64.t :=
  match g with
  | [] => (F64.literal 1 2, [])
  | x :: g' => (x, g')
  end.

(** [bias[j] + weight[j, :] . x], accumulated left to right. *)
Definition sequential_dot (w b : tensor) (j : nat) (x : tensor) : F32.t :=
  fold_left (fun acc p => F32.add acc (F32.mul (fst p) (snd p)))
            (combine (firstn (length x) (skipn (j * length x) w)) x)
            (nth j b F32.zero).

#[global] Instance runtime : Runtime := {|
  rng := list F64.t;
  random_seed := fun _ => [];
  random_random := next_draw;
  random_sample := fun A g population k => (firstn k population, g);
  random_choice := fun g n => (Nat.pred n, g);
  gen := unit;
  seed_generator := fun _ => tt;
  seed_overflow := ValueError "Overflow when unpacking long long";
  uniform_ := fun g numel _ => (repeat F32.zero numel, g);
  linear_out := sequential_dot;
  optim := unit;
  Adam := fun _ _ => tt;
  backward_step := fun o ps _ _ _ => (ps, o)
|}.

(** The interpreter state with the given script of draws. *)
Definition world (draws : list F64.t) : World :=
  {| py_random := draws; torch_gen := tt; trace := [] |}.

(** A network of the architecture of [QNetwork.init] whose parameters
    all equal [v]. *)
Definition const_Linear (i o : nat) (v : F32.t) : QNetwork.Linear :=
  {| QNetwork.in_features := i; QNetwork.out_features := o;
     QNetwork.weight := repeat v (o * i); QNetwork.bias := repeat v o |}.

Definition const_net (state_size action_size : nat) (v : F32.t) : QNetwork.t :=
  {| QNetwork.fc1 := const_Linear state_size 256 v;
     QNetwork.fc2 := const_Linear 256 128 v;
     QNetwork.fc3 := const_Linear 128 64 v;
     QNetwork.fc4 := const_Linear 64 action_size v |}.

(** An agent holding the two given networks and an empty buffer. *)
Definition agent_of (state_size action_size : nat) (local target : QNetwork.t)
    : Agent.t :=
  {| Agent.state_size := state_size;
     Agent.action_size := action_size;
     Agent.qnetwork_local := local;
     Agent.qnetwork_target := target;
     Agent.optimizer := tt;
     Agent.memory :=
       {| ReplayBuffer.action_size := action_size;
          ReplayBuffer.memory :=
            {| ReplayBuffer.items := []; ReplayBuffer.maxlen := BUFFER_SIZE |};
          ReplayBuffer.batch_size := BATCH_SIZE |};
     Agent.t_step := 0 |}.

(** The same agent with the given buffer contents and step counter. *)
Definition agent_at (state_size action_size : nat) (local target : QNetwork.t)
    (items : list ReplayBuffer.Experience) (t_step : Z) : Agent.t :=
  {| Agent.state_size := state_size;
     Agent.action_size := action_size;
     Agent.qnetwork_local := local;
     Agent.qnetwork_target := target;
     Agent.optimizer := tt;
     Agent.memory :=
       {| ReplayBuffer.action_size := action_size;
          ReplayBuffer.memory :=
            {| ReplayBuffer.items := items; ReplayBuffer.maxlen := BUFFER_SIZE |};
          ReplayBuffer.batch_size := BATCH_SIZE |};
     Agent.t_step := t_step |}.
End Scripted.

(** ** Running an agent over a sequence of transitions *)

Section Run.
Context {RT : Runtime}.

Definition step_exp (self : Agent.t) (e : ReplayBuffer.Experience) : Py Agent.t :=
  Agent.step self (ReplayBuffer.state e) (ReplayBuffer.action e)
             (ReplayBuffer.reward e) (ReplayBuffer.next_state e)
             (ReplayBuffer.done e).

(** [for e in es: agent.step] on the fields of [e] *)
Fixpoint run (self : Agent.t) (es : list ReplayBuffer.Experience) : Py Agent.t :=
  match es with
  | [] => ret self
  | e :: es' => self' <- step_exp self e ;; run self' es'
  end.
End Run.

(** [buffer.add] on the fields of [e] *)
Definition add_exp (b : ReplayBuffer.t) (e : ReplayBuffer.Experience) : ReplayBuffer.t :=
  ReplayBuffer.add b (ReplayBuffer.state e) (ReplayBuffer.action e)
                   (ReplayBuffer.reward e) (ReplayBuffer.next_state e)
                   (ReplayBuffer.done e).

(** The events recorded between two interpreter states. *)
Definition new_events {RT : Runtime} (w w' : World) : list event :=
  skipn (length (trace w)) (trace w').

(** The [n] most recent items of [l]. *)
Definition lastn {A} (n : nat) (l : list A) : list A :=
  skipn (length l - n) l.

(** * Vocabulary of the properties *)

(** Equal as IEEE data, up to the sign of a zero. *)
Definition agree (x y : F32.t) : Prop :=
  x = y \/ exists s s', x = S754_zero s /\ y = S754_zero s'.

(** [p] holds of every pair of corresponding items of two lists of one
    length. *)
Fixpoint forall2b {A B} (p : A -> B -> bool) (xs : list A) (ys : list B) : bool :=
  match xs, ys with
  | [], [] => true
  | x :: xs', y :: ys' => p x y && forall2b p xs' ys'
  | _, _ => false
  end.

(** One element of the blended tensor. *)
Definition blend (tau : F64.t) (t l : F32.t) : F32.t :=
  F32.add (F32.mul (F32.of_f64 tau) l)
          (F32.mul (F32.of_f64 (F64.sub (F64.of_Z 1) tau)) t).

(** The layers chain from [i] inputs to [o] outputs, as [QNetwork.init]
    builds them. *)
Definition arch_ok (net : QNetwork.t) (i o : nat) : bool :=
  Nat.eqb (QNetwork.in_features (QNetwork.fc1 net)) i
  && Nat.eqb (QNetwork.in_features (QNetwork.fc2 net))
             (QNetwork.out_features (QNetwork.fc1 net))
  && Nat.eqb (QNetwork.in_features (QNetwork.fc3 net))
             (QNetwork.out_features (QNetwork.fc2 net))
  && Nat.eqb (QNetwork.in_features (QNetwork.fc4 net))
             (QNetwork.out_features (QNetwork.fc3 net))
  && Nat.eqb (QNetwork.out_features (QNetwork.fc4 net)) o.

(** Every row of the batch has [n] components. *)
Definition rows_of (n : nat) (x : tensor2) : bool :=
  forallb (fun row => Nat.eqb (length row) n) x.

(** Every action index lies in [[0, o)]. *)
Definition actions_in (o : nat) (actions : list Z) : bool :=
  forallb (fun a => (0 <=? a) && (a <? Z.of_nat o)) actions.

(** What one epoch of [learn] records. *)
Definition epoch_events : list event := [EvForward Local; EvOptimizerStep; EvSoftUpdate].

(** Every stored state and next state has [n] components. *)
Definition dims_ok (n : nat) (e : ReplayBuffer.Experience) : bool :=
  Nat.eqb (length (ReplayBuffer.state e)) n
  && Nat.eqb (length (ReplayBuffer.next_state e)) n.

(** A transition tagged by its insertion order, in the [action] field. *)
Definition tagged (k : Z) : ReplayBuffer.Experience :=
  {| ReplayBuffer.state := [F64.of_Z k];
     ReplayBuffer.action := k;
     ReplayBuffer.reward := F64.of_Z 1;
     ReplayBuffer.next_state := [F64.of_Z (k + 1)];
     ReplayBuffer.done := false |}.

(** A synthetic transition for an agent with [state_size = 4] and
    [action_size = 2]. *)
Definition synthetic (k : Z) : ReplayBuffer.Experience :=
  {| ReplayBuffer.state := map F64.of_Z [k; k + 1; k + 2; k + 3];
     ReplayBuffer.action := k mod 2;
     ReplayBuffer.reward := F64.of_Z 1;
     ReplayBuffer.next_state := map F64.of_Z [k + 1; k + 2; k + 3; k + 4];
     ReplayBuffer.done := false |}.

(** The tuple [sample] builds from the experiences it drew. *)
Definition batch_of (experiences : list ReplayBuffer.Experience) : ReplayBuffer.batch :=
  (map (map F32.of_f64) (map ReplayBuffer.state experiences),
   map ReplayBuffer.action experiences,
   map F32.of_f64 (map ReplayBuffer.reward experiences),
   map (map F32.of_f64) (map ReplayBuffer.next_state experiences),
   map ReplayBuffer.done_flag (map ReplayBuffer.done experiences)).

(** A transition fit for an agent of [s] state components and [a]
    actions: both states have [s] components and the action is an index
    in [[0, a)]. *)
Definition exp_ok (s a : nat) (e : ReplayBuffer.Experience) : bool :=
  dims_ok s e
  && ((0 <=? ReplayBuffer.action e) && (ReplayBuffer.action e <? Z.of_nat a)).

(** What a call of [learn] that returns records. *)
Definition learn_events : list event :=
  [EvLearn; EvForward Target] ++ concat (repeat epoch_events 10).

(** The number of steps among the first [n] that are aligned with
    [UPDATE_EVERY] and past [BATCH_SIZE]. *)
Definition learning_steps (n : Z) : Z :=
  Z.max 0 (n / UPDATE_EVERY - BATCH_SIZE / UPDATE_EVERY).

(** [random.choice] returns a position of the sequence. *)
Class ChoiceLaws (RT : Runtime) := {
  random_choice_bound :
    forall (g : rng) (n : nat), (0 < n)%nat -> (fst (random_choice g n) < n)%nat
}.

(** The five [np.vstack] calls of [sample] on the experiences drawn. *)
Definition stack (experiences : list ReplayBuffer.Experience) : result ReplayBuffer.batch :=
  match np_vstack (map ReplayBuffer.state experiences) with
  | Raise e => Raise e
  | Ok states =>
  match np_vstack_scalars (map ReplayBuffer.action experiences) with
  | Raise e => Raise e
  | Ok actions =>
  match np_vstack_scalars (map ReplayBuffer.reward experiences) with
  | Raise e => Raise e
  | Ok rewards =>
  match np_vstack (map ReplayBuffer.next_state experiences) with
  | Raise e => Raise e
  | Ok next_states =>
  match np_vstack_scalars (map ReplayBuffer.done experiences) with
  | Raise e => Raise e
  | Ok dones =>
      Ok (map (map F32.of_f64) states, actions, map F32.of_f64 rewards,
          map (map F32.of_f64) next_states, map ReplayBuffer.done_flag dones)
  end end end end end.

(** [uniform_] fills as many elements as it is asked for. *)
Class GeneratorLaws (RT : Runtime) := {
  uniform_length :
    forall (g : gen) (numel fan_in : nat), length (fst (uniform_ g numel fan_in)) = numel
}.

(** An integer that fits numpy's and torch's signed 64-bit type, so
    that [np.vstack(...)] is an [int64] array and [.long()] changes
    nothing. *)
Definition is_int64 (z : Z) : bool := (- 2 ^ 63 <=? z) && (z <? 2 ^ 63).

Section Vocabulary.
Context {RT : Runtime}.

(** A computation only appends to the trace. *)
Definition mono {A} (m : Py A) : Prop :=
  forall w, exists tl, trace (snd (m w)) = trace w ++ tl.

(** Every exception a computation raises satisfies [S]. *)
Definition raises_in {A} (S : exn -> Prop) (m : Py A) : Prop :=
  forall w e, fst (m w) = Raise e -> S e.

(** Likewise for the result of a library call. *)
Definition result_in {A} (S : exn -> Prop) (r : result A) : Prop :=
  forall e, r = Raise e -> S e.

(** The agent after the first two statements of [step]: the
    transition stored and the counter advanced. *)
Definition stored (self : Agent.t) (s : list F64.t) (a : Z) (r : F64.t)
    (ns : list F64.t) (d : bool) : Agent.t :=
  {| Agent.state_size := Agent.state_size self;
     Agent.action_size := Agent.action_size self;
     Agent.qnetwork_local := Agent.qnetwork_local self;
     Agent.qnetwork_target := Agent.qnetwork_target self;
     Agent.optimizer := Agent.optimizer self;
     Agent.memory := ReplayBuffer.add (Agent.memory self) s a r ns d;
     Agent.t_step := (Agent.t_step self + 1) mod UPDATE_EVERY |}.

(** The learning episode of [step]: sample, then learn. *)
Definition episode (self : Agent.t) : Py Agent.t :=
  experiences <- ReplayBuffer.sample (Agent.memory self) ;;
  Agent.learn self experiences GAMMA.

(** The interpreter state with further calls recorded. *)
Definition record_events (w : World) (evs : list event) : World :=
  {| py_random := py_random w; torch_gen := torch_gen w; trace := trace w ++ evs |}.

(** The agent after one epoch: the optimizer's update of the local
    network, then the soft update of the target towards it. *)
Definition epoch_update (states : tensor2) (actions : list Z) (y : tensor)
    (self : Agent.t) : Agent.t :=
  let (ps, opt) :=
    backward_step (Agent.optimizer self)
      (QNetwork.parameters (Agent.qnetwork_local self)) states actions y in
  let local := QNetwork.load (Agent.qnetwork_local self) ps in
  {| Agent.state_size := Agent.state_size self;
     Agent.action_size := Agent.action_size self;
     Agent.qnetwork_local := local;
     Agent.qnetwork_target :=
       QNetwork.load (Agent.qnetwork_target self)
         (map2 (Agent.soft_update_param TAU)
               (QNetwork.parameters (Agent.qnetwork_target self))
               (QNetwork.parameters local));
     Agent.optimizer := opt;
     Agent.memory := Agent.memory self;
     Agent.t_step := Agent.t_step self |}.

(** The action of largest value under the local network. *)
Definition greedy_action (self : Agent.t) (state : list F64.t) : result nat :=
  match QNetwork.forward (Agent.qnetwork_local self) [map F32.of_f64 state] with
  | Ok action_values => np_argmax (concat action_values)
  | Raise e => Raise e
  end.

(** [stored] on the fields of [e]. *)
Definition stored_exp (self : Agent.t) (e : ReplayBuffer.Experience) : Agent.t :=
  stored self (ReplayBuffer.state e) (ReplayBuffer.action e) (ReplayBuffer.reward e)
         (ReplayBuffer.next_state e) (ReplayBuffer.done e).

(** The contents of the agent's replay buffer, oldest first. *)
Definition agent_items (a : Agent.t) : list ReplayBuffer.Experience :=
  ReplayBuffer.items (ReplayBuffer.memory (Agent.memory a)).

(** The agent after [k] steps none of which learned. *)
Definition quiet (k : nat) (a : Agent.t) : Prop :=
  ReplayBuffer.maxlen (ReplayBuffer.memory (Agent.memory a)) = BUFFER_SIZE
  /\ ReplayBuffer.batch_size (Agent.memory a) = BATCH_SIZE
  /\ length (agent_items a) = k
  /\ Agent.t_step a = Z.of_nat k mod UPDATE_EVERY.

(** An agent as [Agent.init] builds it and [step] keeps it: networks of
    the agent's dimensions, at least one action, the buffer of
    [BUFFER_SIZE] and [BATCH_SIZE] within its capacity, and only fit
    transitions stored. *)
Definition well_formed (a : Agent.t) : Prop :=
  arch_ok (Agent.qnetwork_local a) (Agent.state_size a) (Agent.action_size a) = true
  /\ arch_ok (Agent.qnetwork_target a) (Agent.state_size a) (Agent.action_size a) = true
  /\ Agent.action_size a <> 0%nat
  /\ ReplayBuffer.maxlen (ReplayBuffer.memory (Agent.memory a)) = BUFFER_SIZE
  /\ ReplayBuffer.batch_size (Agent.memory a) = BATCH_SIZE
  /\ ReplayBuffer.len (Agent.memory a) <= BUFFER_SIZE
  /\ forallb (exp_ok (Agent.state_size a) (Agent.action_size a)) (agent_items a) = true.

End Vocabulary.

(** * Properties *)

(** ** Binary32 arithmetic *)

Lemma F32_one_eq : F32.one = S754_finite false 8388608 (-23).
Proof. reflexivity. Qed.

Lemma digits2_shift23 (m : positive) :
  Zpos (digits2_pos (Pos.mul 8388608 m)) = Zpos (digits2_pos m) + 23.
Proof. cbn [Pos.mul digits2_pos]. lia. Qed.

(** Multiplying by [1.0] is exact. *)
Lemma F32_mul_one_l (x : F32.t) :
  F32.valid x = true -> F32.mul F32.one x = x.
Proof.
  destruct x as [s | s | | s m e]; try reflexivity.
  intros Hv. unfold F32.valid, valid_binary, bounded, canonical_mantissa in Hv.
  apply andb_prop in Hv as [Hc Hb]. apply Z.eqb_eq in Hc.
  rewrite F32_one_eq. unfold F32.mul, SFmul, binary_round_aux, shr_fexp.
  cbn [xorb Zdigits2]. rewrite digits2_shift23.
  replace (Zpos (digits2_pos m) + 23 + (-23 + e)) with (Zpos (digits2_pos m) + e) by lia.
  fold F32.prec F32.emax. rewrite Hc.
  replace (e - (-23 + e)) with 23 by lia.
  cbn [shr_record_of_loc shr iter_pos shr_1 Pos.mul orb shr_m shr_r shr_s
       loc_of_shr_record round_nearest_even Zdigits2].
  replace (-23 + e + 23) with e by lia.
  rewrite Hc, Z.sub_diag. cbn [shr shr_m].
  now rewrite Hb.
Qed.

Lemma F32_mul_zero_r (x : F32.t) (s : bool) :
  F32.is_finite x = true -> exists s', F32.mul x (S754_zero s) = S754_zero s'.
Proof. destruct x; simpl; try discriminate; eauto. Qed.

Lemma F32_mul_zero_l (x : F32.t) (s : bool) :
  F32.is_finite x = true -> exists s', F32.mul (S754_zero s) x = S754_zero s'.
Proof. destruct x; simpl; try discriminate; eauto. Qed.

Lemma F32_add_zero_r (x : F32.t) (s : bool) : agree (F32.add x (S754_zero s)) x.
Proof.
  destruct x as [s0 | s0 | | s0 m e]; try (now left).
  right. destruct s0, s; simpl; eauto.
Qed.

Lemma F32_add_zero_l (x : F32.t) (s : bool) : agree (F32.add (S754_zero s) x) x.
Proof.
  destruct x as [s0 | s0 | | s0 m e]; try (now left).
  right. destruct s0, s; simpl; eauto.
Qed.

(** ** Lists and the scripted sampler *)

(** The scripted sampler, which returns the first [k] items, obeys the
    laws of a sampler. *)
#[global] Instance Scripted_sampler_laws : SamplerLaws Scripted.runtime.
Proof.
  split; simpl; intros.
  - rewrite length_firstn. lia.
  - intros x Hx. rewrite <- (firstn_skipn k pop). apply in_or_app. now left.
Qed.

Lemma nth_error_map2 {A B C} (f : A -> B -> C) (xs : list A) (ys : list B) (i : nat) :
  nth_error (map2 f xs ys) i =
  match nth_error xs i, nth_error ys i with
  | Some x, Some y => Some (f x y)
  | _, _ => None
  end.
Proof.
  revert ys i. induction xs as [| x xs IH]; intros [| y ys] [| i]; simpl; try reflexivity.
  - now destruct (nth_error xs i).
  - apply IH.
Qed.

(** ** C1: the TD target of a terminal transition *)

(** C1, as amended.  In [learn], at every index of the batch whose done
    flag is true, the target [y] is the reward of that transition (the
    same binary32 datum, up to the sign of a zero reward), whenever the
    product [gamma * Qsa_max] at that index is finite: then the factor
    [1 - done] zeroes the bootstrapped term. *)
Theorem td_target_terminal (gamma : F64.t) (rewards Qsa_max dones : tensor)
    (i : nat) (r q : F32.t) :
  nth_error rewards i = Some r ->
  nth_error Qsa_max i = Some q ->
  nth_error dones i = Some (ReplayBuffer.done_flag true) ->
  F32.is_finite (F32.mul (F32.of_f64 gamma) q) = true ->
  exists y, nth_error (Agent.td_target gamma rewards Qsa_max dones) i = Some y
            /\ agree y r.
Proof.
  intros Hr Hq Hd Hfin.
  unfold Agent.td_target, tensor_add, tensor_mul, scalar_mul, scalar_rsub.
  rewrite nth_error_map2, Hr, nth_error_map2, !nth_error_map, Hq, Hd.
  simpl option_map. eexists. split; [reflexivity |].
  change (F32.sub (F32.of_f64 (F64.of_Z 1)) (ReplayBuffer.done_flag true))
    with (S754_zero false).
  destruct (F32_mul_zero_r _ false Hfin) as [s' ->].
  apply F32_add_zero_r.
Qed.

Lemma td_target_terminal_witness :
  nth_error [F32.of_Z 3] 0 = Some (F32.of_Z 3)
  /\ nth_error [F32.of_Z 7] 0 = Some (F32.of_Z 7)
  /\ nth_error [ReplayBuffer.done_flag true] 0 = Some (ReplayBuffer.done_flag true)
  /\ F32.is_finite (F32.mul (F32.of_f64 GAMMA) (F32.of_Z 7)) = true
  /\ exists y,
       nth_error (Agent.td_target GAMMA [F32.of_Z 3] [F32.of_Z 7]
                    [ReplayBuffer.done_flag true]) 0 = Some y
       /\ agree y (F32.of_Z 3).
Proof.
  repeat (split; [reflexivity |]).
  apply (@td_target_terminal GAMMA [F32.of_Z 3] [F32.of_Z 7]
           [ReplayBuffer.done_flag true] 0%nat (F32.of_Z 3) (F32.of_Z 7));
    reflexivity.
Defined.

(** C1 as stated fails: with [gamma = inf] the product is infinite, and
    with a finite [gamma] an infinite [Qsa_max] does the same; then
    [inf * 0] is NaN and so is the target of a terminal transition of
    reward [1.0], which it does not equal. *)
Lemma td_target_terminal_not_reward :
  Agent.td_target (S754_infinity false) [F32.one] [F32.one]
    [ReplayBuffer.done_flag true] = [S754_nan]
  /\ Agent.td_target GAMMA [F32.one] [S754_infinity false]
       [ReplayBuffer.done_flag true] = [S754_nan]
  /\ F32.eqb S754_nan F32.one = false
  /\ ~ agree S754_nan F32.one.
Proof.
  repeat (split; [reflexivity |]).
  intros [H | (s & s' & H & _)]; discriminate H.
Qed.

(** ** The interpreter monad: traces and exceptions *)

Section PyFacts.
Context {RT : Runtime}.

Lemma mono_ret {A} (a : A) : mono (ret a).
Proof. intros w. exists []. simpl. now rewrite app_nil_r. Qed.

Lemma mono_raise {A} (e : exn) : mono (@raise _ A e).
Proof. intros w. exists []. simpl. now rewrite app_nil_r. Qed.

Lemma mono_lift {A} (r : result A) : mono (lift r).
Proof. intros w. exists []. simpl. now rewrite app_nil_r. Qed.

Lemma mono_emit (e : event) : mono (emit e).
Proof. intros w. exists [e]. reflexivity. Qed.

Lemma mono_with_random {A} (f : rng -> A * rng) : mono (with_random f).
Proof.
  intros w. exists []. unfold with_random. destruct (f (py_random w)).
  simpl. now rewrite app_nil_r.
Qed.

Lemma mono_with_gen {A} (f : gen -> A * gen) : mono (with_gen f).
Proof.
  intros w. exists []. unfold with_gen. destruct (f (torch_gen w)).
  simpl. now rewrite app_nil_r.
Qed.

Lemma mono_py_seed (seed : Z) : mono (py_seed seed).
Proof. intros w. exists []. simpl. now rewrite app_nil_r. Qed.

Lemma mono_bind {A B} (m : Py A) (k : A -> Py B) :
  mono m -> (forall a, mono (k a)) -> mono (bind m k).
Proof.
  intros Hm Hk w. unfold bind. destruct (Hm w) as [tl Htl].
  destruct (m w) as [[a | e] w1]; simpl in Htl.
  - destruct (Hk a w1) as [tl' Htl']. exists (tl ++ tl').
    now rewrite Htl', Htl, app_assoc.
  - now exists tl.
Qed.

Lemma mono_for_range {A} (n : nat) (body : A -> Py A) (a : A) :
  (forall a, mono (body a)) -> mono (for_range n body a).
Proof.
  intros Hb. revert a. induction n as [| n IH]; intros a; simpl.
  - apply mono_ret.
  - apply mono_bind; auto.
Qed.

Lemma raises_in_ret {A} S (a : A) : raises_in S (ret a).
Proof. intros w e H. discriminate. Qed.

Lemma raises_in_raise {A} (S : exn -> Prop) e : S e -> raises_in S (@raise _ A e).
Proof. intros H w e' [= <-]. exact H. Qed.

Lemma raises_in_lift {A} S (r : result A) : result_in S r -> raises_in S (lift r).
Proof. intros H w e He. now apply H. Qed.

Lemma raises_in_emit S (e : event) : raises_in S (emit e).
Proof. intros w e' H. discriminate. Qed.

Lemma raises_in_with_random {A} S (f : rng -> A * rng) : raises_in S (with_random f).
Proof. intros w e. unfold with_random. destruct (f (py_random w)). discriminate. Qed.

Lemma raises_in_with_gen {A} S (f : gen -> A * gen) : raises_in S (with_gen f).
Proof. intros w e. unfold with_gen. destruct (f (torch_gen w)). discriminate. Qed.

Lemma raises_in_py_seed S (seed : Z) : raises_in S (py_seed seed).
Proof. intros w e H. discriminate. Qed.

Lemma raises_in_bind {A B} S (m : Py A) (k : A -> Py B) :
  raises_in S m -> (forall a, raises_in S (k a)) -> raises_in S (bind m k).
Proof.
  intros Hm Hk w e. unfold bind. specialize (Hm w).
  destruct (m w) as [[a | e'] w1]; simpl in *.
  - apply Hk.
  - intros [= <-]. now apply Hm.
Qed.

Lemma raises_in_for_range {A} S (n : nat) (body : A -> Py A) (a : A) :
  (forall a, raises_in S (body a)) -> raises_in S (for_range n body a).
Proof.
  intros Hb. revert a. induction n as [| n IH]; intros a; simpl.
  - apply raises_in_ret.
  - apply raises_in_bind; auto.
Qed.

Lemma new_events_app (w w' : World) (tl : list event) :
  trace w' = trace w ++ tl -> new_events w w' = tl.
Proof.
  intros H. unfold new_events. rewrite H, skipn_app, skipn_all, Nat.sub_diag.
  reflexivity.
Qed.

Lemma new_events_same (w : World) : new_events w w = [].
Proof. unfold new_events. apply skipn_all. Qed.
End PyFacts.

Create HintDb py_mono.
#[export] Hint Resolve mono_ret mono_raise mono_lift mono_emit mono_with_random
  mono_with_gen mono_py_seed : py_mono.

Create HintDb py_exn.
#[export] Hint Resolve raises_in_ret raises_in_emit raises_in_with_random
  raises_in_with_gen raises_in_py_seed : py_exn.

Ltac mono_walk :=
  repeat first
    [ solve [auto with py_mono]
    | apply mono_bind; [| intros ?]
    | apply mono_for_range; intros ?
    | match goal with
      | |- mono (if ?b then _ else _) => destruct b
      | |- mono (let (_, _) := ?p in _) => destruct p
      end ].

Ltac exn_walk :=
  repeat first
    [ solve [auto with py_exn]
    | apply raises_in_bind; [| intros ?]
    | apply raises_in_for_range; intros ?
    | match goal with
      | |- raises_in _ (if ?b then _ else _) => destruct b
      | |- raises_in _ (let (_, _) := ?p in _) => destruct p
      end ].

(** ** Which exceptions the library helpers raise *)

Section HelperExceptions.
Variable S : exn -> Prop.

Lemma result_in_vstack {A} (rows : list (list A)) :
  S empty_stack -> S ragged_stack -> result_in S (np_vstack rows).
Proof.
  intros H1 H2 e. unfold np_vstack. destruct rows as [| r rest].
  - now intros [= <-].
  - destruct (forallb _ _); [discriminate | now intros [= <-]].
Qed.

Lemma result_in_vstack_scalars {A} (xs : list A) :
  S empty_stack -> result_in S (np_vstack_scalars xs).
Proof.
  intros H1 e. destruct xs; simpl; [now intros [= <-] | discriminate].
Qed.

Lemma result_in_row_max (row : tensor) : S empty_max -> result_in S (row_max row).
Proof. intros H e. destruct row; simpl; [now intros [= <-] | discriminate]. Qed.

Lemma result_in_traverse {A B} (f : A -> result B) (xs : list A) :
  (forall x, result_in S (f x)) -> result_in S (traverse f xs).
Proof.
  intros Hf. induction xs as [| x xs IH]; simpl; intros e.
  - discriminate.
  - specialize (Hf x). destruct (f x) as [y | e'].
    + destruct (traverse f xs) as [ys | e'']; [discriminate |].
      intros [= <-]. now apply IH.
    + intros [= <-]. now apply Hf.
Qed.

Lemma result_in_gather (q : tensor2) (actions : list Z) :
  S gather_range -> result_in S (gather q actions).
Proof.
  intros H. revert actions. induction q as [| row q IH]; intros [| a actions] e;
    simpl; try discriminate.
  destruct (_ && _); [| now intros [= <-]].
  specialize (IH actions). destruct (gather q actions) as [r | e']; [discriminate |].
  intros [= <-]. now apply IH.
Qed.

Lemma result_in_argmax (xs : tensor) : S empty_argmax -> result_in S (np_argmax xs).
Proof. intros H e. destruct xs; simpl; [now intros [= <-] | discriminate]. Qed.

Context {RT : Runtime}.

Lemma result_in_apply_Linear (l : QNetwork.Linear) (x : tensor2) :
  S matmul_shapes -> result_in S (QNetwork.apply_Linear l x).
Proof.
  intros H e. unfold QNetwork.apply_Linear.
  destruct (forallb _ _); [discriminate | now intros [= <-]].
Qed.

Lemma result_in_forward (net : QNetwork.t) (x : tensor2) :
  S matmul_shapes -> result_in S (QNetwork.forward net x).
Proof.
  intros H e. unfold QNetwork.forward.
  repeat match goal with
  | |- context [match QNetwork.apply_Linear ?l ?y with _ => _ end] =>
      let E := fresh "E" in
      destruct (QNetwork.apply_Linear l y) eqn:E;
      [| intros [= <-]; eapply result_in_apply_Linear; eauto]
  end.
  intros E'. eapply result_in_apply_Linear; eauto.
Qed.
End HelperExceptions.

(** A leaf of a computation: a raise, or a lifted library call. *)
Ltac exn_leaf :=
  first
    [ now apply raises_in_raise
    | apply raises_in_lift;
      first [ now apply result_in_vstack
            | now apply result_in_vstack_scalars
            | now apply result_in_forward
            | now apply result_in_gather
            | now apply result_in_argmax
            | apply result_in_traverse; intros ?; now apply result_in_row_max ] ].

(** ** Traces and exceptions of the agent's methods *)

Section AgentFacts.
Context {RT : Runtime}.

Lemma mono_py_sample {A} (population : list A) (k : Z) :
  mono (ReplayBuffer.py_sample population k).
Proof. unfold ReplayBuffer.py_sample. mono_walk. Qed.
Hint Resolve mono_py_sample : py_mono.

Lemma mono_sample (b : ReplayBuffer.t) : mono (ReplayBuffer.sample b).
Proof. unfold ReplayBuffer.sample. mono_walk. Qed.
Hint Resolve mono_sample : py_mono.

Lemma mono_soft_update (self : Agent.t) (l t : net_ref) (tau : F64.t) :
  mono (Agent.soft_update self l t tau).
Proof. unfold Agent.soft_update. mono_walk. Qed.
Hint Resolve mono_soft_update : py_mono.

Lemma mono_epoch states actions y (self : Agent.t) :
  mono (Agent.epoch states actions y self).
Proof. unfold Agent.epoch. mono_walk. Qed.
Hint Resolve mono_epoch : py_mono.

Lemma mono_learn (self : Agent.t) (experiences : ReplayBuffer.batch) (gamma : F64.t) :
  mono (Agent.learn self experiences gamma).
Proof.
  destruct experiences as [[[[states actions] rewards] next_states] dones].
  unfold Agent.learn. mono_walk.
Qed.
Hint Resolve mono_learn : py_mono.

Lemma mono_step (self : Agent.t) s a r ns d : mono (Agent.step self s a r ns d).
Proof. unfold Agent.step. mono_walk. Qed.

Section Exceptions.
Variable S : exn -> Prop.

Lemma raises_in_py_sample {A} (population : list A) (k : Z) :
  (~ (0 <= k <= Z.of_nat (length population)) -> S sample_too_large) ->
  raises_in S (ReplayBuffer.py_sample population k).
Proof.
  intros H. unfold ReplayBuffer.py_sample.
  destruct (_ && _) eqn:E; [auto with py_exn |].
  apply raises_in_raise, H. intros [H1 H2].
  apply Z.leb_le in H1. apply Z.leb_le in H2. rewrite H1, H2 in E. discriminate.
Qed.

Hypothesis S_empty_stack : S empty_stack.
Hypothesis S_ragged_stack : S ragged_stack.

Lemma raises_in_sample (b : ReplayBuffer.t) :
  (~ (0 <= ReplayBuffer.batch_size b <= ReplayBuffer.len b) -> S sample_too_large) ->
  raises_in S (ReplayBuffer.sample b).
Proof.
  intros H. unfold ReplayBuffer.sample.
  exn_walk; try exn_leaf. now apply raises_in_py_sample.
Qed.

Hypothesis S_matmul_shapes : S matmul_shapes.
Hypothesis S_empty_max : S empty_max.
Hypothesis S_gather_range : S gather_range.

Lemma raises_in_soft_update (self : Agent.t) (l t : net_ref) (tau : F64.t) :
  raises_in S (Agent.soft_update self l t tau).
Proof. unfold Agent.soft_update. exn_walk. Qed.

Lemma raises_in_epoch states actions y (self : Agent.t) :
  raises_in S (Agent.epoch states actions y self).
Proof. unfold Agent.epoch. exn_walk; exn_leaf. Qed.

Lemma raises_in_learn (self : Agent.t) (experiences : ReplayBuffer.batch)
    (gamma : F64.t) :
  raises_in S (Agent.learn self experiences gamma).
Proof.
  destruct experiences as [[[[states actions] rewards] next_states] dones].
  unfold Agent.learn. exn_walk; exn_leaf.
Qed.

Lemma raises_in_step (self : Agent.t) s a r ns d :
  (ReplayBuffer.batch_size (Agent.memory self) <> BATCH_SIZE -> S sample_too_large) ->
  raises_in S (Agent.step self s a r ns d).
Proof.
  intros H. unfold Agent.step. cbn [Agent.t_step Agent.memory].
  destruct (_ =? 0); [| auto with py_exn].
  destruct (BATCH_SIZE <? _) eqn:E; [| auto with py_exn].
  apply Z.ltb_lt in E.
  apply raises_in_bind; [| intros ?; apply raises_in_learn].
  apply raises_in_sample. intros Hk. apply H. intros Hb.
  apply Hk. unfold ReplayBuffer.add, ReplayBuffer.len in *. cbn in *.
  rewrite Hb. unfold BATCH_SIZE in *. lia.
Qed.

Hypothesis S_empty_argmax : S empty_argmax.
Hypothesis S_empty_choice : S empty_choice.

Lemma raises_in_act (self : Agent.t) (state : list F64.t) (eps : F64.t) :
  raises_in S (Agent.act self state eps).
Proof. unfold Agent.act. exn_walk; exn_leaf. Qed.
End Exceptions.
End AgentFacts.

#[export] Hint Resolve mono_py_sample mono_sample mono_soft_update mono_epoch
  mono_learn mono_step : py_mono.

(** ** C2: when a step learns *)

Section StepGate.
Context {RT : Runtime}.

Lemma bind_assoc {A B C} (m : Py A) (f : A -> Py B) (g : B -> Py C) (w : World) :
  bind (bind m f) g w = bind m (fun x => bind (f x) g) w.
Proof. unfold bind. destruct (m w) as [[a | e] w1]; reflexivity. Qed.


(** An episode records [EvSample] first. *)
Lemma episode_trace (self : Agent.t) (w : World) :
  exists tl, trace (snd (episode self w)) = trace w ++ EvSample :: tl.
Proof.
  unfold episode, ReplayBuffer.sample. rewrite bind_assoc.
  unfold bind at 1. cbn [emit].
  match goal with
  | |- exists tl, trace (snd (?c ?w1)) = _ =>
      assert (Hm : mono c) by mono_walk;
      destruct (Hm w1) as [tl Htl]; exists tl; rewrite Htl
  end.
  cbn [trace]. now rewrite <- app_assoc.
Qed.

Lemma step_unfold (self : Agent.t) s a r ns d :
  Agent.step self s a r ns d =
  if Agent.t_step (stored self s a r ns d) =? 0 then
    if BATCH_SIZE <? ReplayBuffer.len (Agent.memory (stored self s a r ns d))
    then episode (stored self s a r ns d)
    else ret (stored self s a r ns d)
  else ret (stored self s a r ns d).
Proof. reflexivity. Qed.

(** C2.  A call of [step] runs a learning episode (sample, then
    learn) exactly when the counter, advanced modulo [UPDATE_EVERY],
    is 0 and the occupancy after the insertion exceeds [BATCH_SIZE].
    Otherwise neither sampling nor learning happens and the call
    returns normally, leaving the agent with the transition stored
    and the counter advanced and nothing else changed. *)
Theorem step_learns_iff (self : Agent.t) (s : list F64.t) (a : Z) (r : F64.t)
    (ns : list F64.t) (d : bool) (w : World) :
  let out := Agent.step self s a r ns d w in
  let fires :=
    (Agent.t_step self + 1) mod UPDATE_EVERY = 0 /\
    BATCH_SIZE < ReplayBuffer.len (ReplayBuffer.add (Agent.memory self) s a r ns d) in
  (In EvSample (new_events w (snd out)) <-> fires)
  /\ (In EvLearn (new_events w (snd out)) -> fires)
  /\ (fires -> out = episode (stored self s a r ns d) w)
  /\ (~ fires -> out = (Ok (stored self s a r ns d), w)).
Proof.
  cbv zeta. rewrite step_unfold. cbn [stored Agent.t_step Agent.memory].
  destruct (Z.eqb_spec ((Agent.t_step self + 1) mod UPDATE_EVERY) 0) as [Ht | Ht];
    [destruct (Z.ltb_spec BATCH_SIZE
                 (ReplayBuffer.len (ReplayBuffer.add (Agent.memory self) s a r ns d)))
       as [Hb | Hb] |].
  - destruct (episode_trace (stored self s a r ns d) w) as [tl Htl].
    rewrite (new_events_app _ _ _ Htl).
    split; [split; [now split | intros _; now left] |].
    split; [now split |].
    split; [reflexivity | intros H; exfalso; now apply H].
  - cbn [ret snd]. rewrite new_events_same.
    split; [split; [intros [] | intros [_ H]; lia] |].
    split; [intros [] |].
    split; [intros [_ H]; lia | reflexivity].
  - cbn [ret snd]. rewrite new_events_same.
    split; [split; [intros [] | intros [H _]; contradiction] |].
    split; [intros [] |].
    split; [intros [H _]; contradiction | reflexivity].
Qed.
End StepGate.

Lemma step_learns_iff_witness :
  let net := Scripted.const_net 4 2 F32.zero in
  let self := Scripted.agent_at 4 2 net net (map synthetic (map Z.of_nat (seq 1 67))) 3 in
  let e := synthetic 68 in
  let w := Scripted.world [] in
  ((Agent.t_step self + 1) mod UPDATE_EVERY = 0 /\
   BATCH_SIZE < ReplayBuffer.len (add_exp (Agent.memory self) e))
  /\ In EvSample (new_events w (snd (step_exp self e w))).
Proof.
  intros net self e w.
  assert (H : (Agent.t_step self + 1) mod UPDATE_EVERY = 0 /\
              BATCH_SIZE < ReplayBuffer.len (add_exp (Agent.memory self) e))
    by (split; reflexivity).
  split; [exact H |].
  apply (proj1 (@step_learns_iff Scripted.runtime self (ReplayBuffer.state e)
                  (ReplayBuffer.action e) (ReplayBuffer.reward e)
                  (ReplayBuffer.next_state e) (ReplayBuffer.done e) w)).
  exact H.
Defined.

(** ** C3: the replay buffer keeps the most recent transitions *)

Lemma lastn_app_lastn {A} (n : nat) (l r : list A) :
  lastn n (lastn n l ++ r) = lastn n (l ++ r).
Proof.
  unfold lastn.
  replace (skipn (length l - n) l ++ r) with (skipn (length l - n) (l ++ r)).
  - rewrite skipn_skipn. f_equal. rewrite length_skipn, !length_app. lia.
  - rewrite skipn_app. replace (length l - n - length l)%nat with 0%nat by lia.
    reflexivity.
Qed.

Lemma lastn_all {A} (n : nat) (l : list A) : (length l <= n)%nat -> lastn n l = l.
Proof.
  intros H. unfold lastn. now replace (length l - n)%nat with 0%nat by lia.
Qed.

Lemma length_lastn {A} (n : nat) (l : list A) : length (lastn n l) = Nat.min n (length l).
Proof. unfold lastn. rewrite length_skipn. lia. Qed.

(** [append] drops the leftmost item of the extended contents exactly
    when they exceed [maxlen]. *)
Lemma append_items {A} (d : ReplayBuffer.deque A) (x : A) :
  0 <= ReplayBuffer.maxlen d ->
  Z.of_nat (length (ReplayBuffer.items d)) <= ReplayBuffer.maxlen d ->
  ReplayBuffer.items (ReplayBuffer.append d x) =
  lastn (Z.to_nat (ReplayBuffer.maxlen d)) (ReplayBuffer.items d ++ [x]).
Proof.
  intros H0 Hlen. unfold ReplayBuffer.append. cbn [ReplayBuffer.items].
  unfold lastn. rewrite length_app. cbn [length].
  destruct (Z.ltb_spec (ReplayBuffer.maxlen d)
              (Z.of_nat (length (ReplayBuffer.items d) + 1))) as [H | H].
  - replace (length (ReplayBuffer.items d) + 1 - Z.to_nat (ReplayBuffer.maxlen d))%nat
      with 1%nat by lia.
    now destruct (ReplayBuffer.items d ++ [x]).
  - replace (length (ReplayBuffer.items d) + 1 - Z.to_nat (ReplayBuffer.maxlen d))%nat
      with 0%nat by lia.
    reflexivity.
Qed.

Lemma add_exp_maxlen (b : ReplayBuffer.t) (e : ReplayBuffer.Experience) :
  ReplayBuffer.maxlen (ReplayBuffer.memory (add_exp b e)) =
  ReplayBuffer.maxlen (ReplayBuffer.memory b).
Proof. reflexivity. Qed.

Lemma add_exp_items (b : ReplayBuffer.t) (e : ReplayBuffer.Experience) :
  ReplayBuffer.items (ReplayBuffer.memory (add_exp b e)) =
  if ReplayBuffer.maxlen (ReplayBuffer.memory b)
     <? Z.of_nat (length (ReplayBuffer.items (ReplayBuffer.memory b) ++ [e]))
  then tl (ReplayBuffer.items (ReplayBuffer.memory b) ++ [e])
  else ReplayBuffer.items (ReplayBuffer.memory b) ++ [e].
Proof. destruct e. reflexivity. Qed.

(** The invariant of the buffer under any sequence of [add] calls. *)
Lemma adds_items (es : list ReplayBuffer.Experience) (b : ReplayBuffer.t) :
  0 <= ReplayBuffer.maxlen (ReplayBuffer.memory b) ->
  ReplayBuffer.len b <= ReplayBuffer.maxlen (ReplayBuffer.memory b) ->
  ReplayBuffer.maxlen (ReplayBuffer.memory (fold_left add_exp es b)) =
    ReplayBuffer.maxlen (ReplayBuffer.memory b)
  /\ ReplayBuffer.items (ReplayBuffer.memory (fold_left add_exp es b)) =
     lastn (Z.to_nat (ReplayBuffer.maxlen (ReplayBuffer.memory b)))
           (ReplayBuffer.items (ReplayBuffer.memory b) ++ es).
Proof.
  revert b. induction es as [| e es IH]; intros b H0 Hlen; cbn [fold_left].
  - split; [reflexivity |]. rewrite app_nil_r, lastn_all; [reflexivity |].
    unfold ReplayBuffer.len in Hlen. lia.
  - assert (Hi : ReplayBuffer.items (ReplayBuffer.memory (add_exp b e)) =
                 lastn (Z.to_nat (ReplayBuffer.maxlen (ReplayBuffer.memory b)))
                       (ReplayBuffer.items (ReplayBuffer.memory b) ++ [e]))
      by (destruct e; apply append_items; auto).
    destruct (IH (add_exp b e)) as [Hm Hitems].
    + now rewrite add_exp_maxlen.
    + rewrite add_exp_maxlen. unfold ReplayBuffer.len. rewrite Hi, length_lastn. lia.
    + rewrite add_exp_maxlen in *. split; [exact Hm |].
      rewrite Hitems, Hi, lastn_app_lastn, <- app_assoc. reflexivity.
Qed.

Section BufferCapacity.
Context {RT : Runtime}.

(** C3.  Take the buffer [ReplayBuffer(action_size, buffer_size,
    batch_size, seed)] and add any sequence [es] of transitions to
    it.  Its occupancy is at most [buffer_size], its contents are the
    [buffer_size] most recent of [es] in insertion order, and when it
    is full a further [add] drops the oldest item: the contents
    become the old ones followed by the new item, less the leftmost. *)
Theorem add_keeps_most_recent (action_size : nat) (buffer_size batch_size seed : Z)
    (w w' : World) (b : ReplayBuffer.t) (es : list ReplayBuffer.Experience) :
  ReplayBuffer.init action_size buffer_size batch_size seed w = (Ok b, w') ->
  let b' := fold_left add_exp es b in
  ReplayBuffer.len b' <= buffer_size
  /\ ReplayBuffer.items (ReplayBuffer.memory b') = lastn (Z.to_nat buffer_size) es
  /\ forall e, ReplayBuffer.len b' = buffer_size ->
       ReplayBuffer.items (ReplayBuffer.memory (add_exp b' e)) =
       tl (ReplayBuffer.items (ReplayBuffer.memory b') ++ [e]).
Proof.
  unfold ReplayBuffer.init. destruct (Z.ltb_spec buffer_size 0) as [Hneg | Hpos].
  { discriminate. }
  intros [= <- _]. cbv zeta.
  match goal with |- context [fold_left add_exp es ?b0] => set (b := b0) end.
  destruct (adds_items es b) as [Hm Hitems]; [exact Hpos | cbn; lia |].
  cbn [b ReplayBuffer.memory ReplayBuffer.maxlen ReplayBuffer.items app] in Hm, Hitems.
  assert (Hlen : ReplayBuffer.len (fold_left add_exp es b) <= buffer_size).
  { unfold ReplayBuffer.len. rewrite Hitems, length_lastn. lia. }
  split; [exact Hlen |]. split; [exact Hitems |].
  intros e Hfull. rewrite add_exp_items, Hm.
  unfold ReplayBuffer.len in Hfull. rewrite length_app. cbn [length].
  destruct (Z.ltb_spec buffer_size
              (Z.of_nat (length (ReplayBuffer.items
                 (ReplayBuffer.memory (fold_left add_exp es b))) + 1))) as [H | H].
  - reflexivity.
  - lia.
Qed.
End BufferCapacity.

Lemma add_keeps_most_recent_witness :
  let b := {| ReplayBuffer.action_size := 2;
              ReplayBuffer.memory :=
                {| ReplayBuffer.items := []; ReplayBuffer.maxlen := 3 |};
              ReplayBuffer.batch_size := 2 |} in
  let es := map tagged [1; 2; 3; 4; 5] in
  let b' := fold_left add_exp es b in
  ReplayBuffer.init 2 3 2 0 (Scripted.world []) = (Ok b, Scripted.world [])
  /\ ReplayBuffer.len b' <= 3
  /\ ReplayBuffer.items (ReplayBuffer.memory b') = lastn (Z.to_nat 3) es
  /\ forall e, ReplayBuffer.len b' = 3 ->
       ReplayBuffer.items (ReplayBuffer.memory (add_exp b' e)) =
       tl (ReplayBuffer.items (ReplayBuffer.memory b') ++ [e]).
Proof.
  intros b es b'. split; [reflexivity |].
  apply (@add_keeps_most_recent Scripted.runtime 2%nat 3 2 0
           (Scripted.world []) (Scripted.world []) b es).
  reflexivity.
Defined.

(** ** C4: sampling an under-full buffer *)

Ltac exn_neq :=
  unfold empty_stack, ragged_stack, empty_max, empty_argmax, gather_range,
    matmul_shapes, negative_maxlen, sample_too_large, empty_choice,
    ValueError, RuntimeError, IndexError;
  simpl; discriminate.

Section InsufficientData.
Context {RT : Runtime}.

Lemma sample_underfull_raises (b : ReplayBuffer.t) (w : World) :
  ReplayBuffer.len b < ReplayBuffer.batch_size b ->
  fst (ReplayBuffer.sample b w) = Raise sample_too_large.
Proof.
  intros H. unfold ReplayBuffer.sample, ReplayBuffer.py_sample, ReplayBuffer.len in *.
  unfold bind at 1. cbn [emit]. unfold bind at 1.
  destruct (Z.leb_spec (ReplayBuffer.batch_size b)
              (Z.of_nat (length (ReplayBuffer.items (ReplayBuffer.memory b)))))
    as [Hle | Hgt]; [lia |].
  rewrite andb_false_r. reflexivity.
Qed.

(** C4, as amended.  On a buffer whose size is strictly less than its
    batch size, [sample] raises the [ValueError] of [random.sample]
    ("Sample larger than population or is negative"); the source
    defines no [InsufficientDataError].  That exception never comes out
    of [step] on an agent whose buffer has batch size [BATCH_SIZE], as
    [Agent.init] builds it: the occupancy gate precedes sampling. *)
Theorem sample_underfull_ValueError (b : ReplayBuffer.t) (w : World)
    (self : Agent.t) (s : list F64.t) (a : Z) (r : F64.t) (ns : list F64.t)
    (d : bool) (w0 : World) :
  ReplayBuffer.len b < ReplayBuffer.batch_size b ->
  ReplayBuffer.batch_size (Agent.memory self) = BATCH_SIZE ->
  fst (ReplayBuffer.sample b w) = Raise sample_too_large
  /\ raises (fst (ReplayBuffer.sample b w)) "ValueError"
  /\ fst (Agent.step self s a r ns d w0) <> Raise sample_too_large.
Proof.
  intros Hlen Hbatch.
  pose proof (sample_underfull_raises b w Hlen) as Hs.
  split; [exact Hs |]. split.
  - rewrite Hs. eexists. reflexivity.
  - intros Hstep.
    apply (@raises_in_step RT (fun e => e <> sample_too_large)) in Hstep;
      try exn_neq; [now apply Hstep | intros Hne; contradiction].
Qed.
End InsufficientData.

Lemma sample_underfull_ValueError_witness :
  let b := {| ReplayBuffer.action_size := 2;
              ReplayBuffer.memory :=
                {| ReplayBuffer.items := [tagged 1]; ReplayBuffer.maxlen := 5 |};
              ReplayBuffer.batch_size := 2 |} in
  let self := Scripted.agent_of 4 2 (Scripted.const_net 4 2 F32.zero)
                (Scripted.const_net 4 2 F32.zero) in
  let w := Scripted.world [] in
  ReplayBuffer.len b < ReplayBuffer.batch_size b
  /\ ReplayBuffer.batch_size (Agent.memory self) = BATCH_SIZE
  /\ fst (ReplayBuffer.sample b w) = Raise sample_too_large
  /\ raises (fst (ReplayBuffer.sample b w)) "ValueError"
  /\ fst (Agent.step self [] 0 (F64.of_Z 0) [] false w) <> Raise sample_too_large.
Proof.
  intros b self w.
  split; [reflexivity |]. split; [reflexivity |].
  apply (@sample_underfull_ValueError Scripted.runtime b w self [] 0 (F64.of_Z 0)
           [] false w); reflexivity.
Defined.

(** C4 as stated fails: sampling a buffer of one transition with batch
    size 64 raises [ValueError], not [InsufficientDataError]. *)
Lemma sample_underfull_not_InsufficientDataError :
  let b := {| ReplayBuffer.action_size := 2;
              ReplayBuffer.memory :=
                {| ReplayBuffer.items := [tagged 1];
                   ReplayBuffer.maxlen := BUFFER_SIZE |};
              ReplayBuffer.batch_size := BATCH_SIZE |} in
  ReplayBuffer.len b < ReplayBuffer.batch_size b
  /\ fst (ReplayBuffer.sample b (Scripted.world [])) =
     Raise (PyExc "ValueError" "Sample larger than population or is negative")
  /\ ~ raises (fst (ReplayBuffer.sample b (Scripted.world []))) "InsufficientDataError".
Proof.
  intros b. split; [reflexivity |]. split; [reflexivity |].
  intros [msg H]. discriminate H.
Qed.

(** ** C5: the soft update *)

Lemma forall2b_Forall2 {A B} (p : A -> B -> bool) (xs : list A) (ys : list B) :
  forall2b p xs ys = true -> Forall2 (fun x y => p x y = true) xs ys.
Proof.
  revert ys. induction xs as [| x xs IH]; intros [| y ys]; simpl; try discriminate.
  - constructor.
  - intros H. apply andb_prop in H as [H1 H2]. constructor; auto.
Qed.

Lemma Forall2_map2_l {A B C} (R : C -> A -> Prop) (f : A -> B -> C)
    (xs : list A) (ys : list B) :
  Forall2 (fun x y => R (f x y) x) xs ys -> Forall2 R (map2 f xs ys) xs.
Proof. induction 1; simpl; constructor; auto. Qed.

Lemma Forall2_map2_r {A B C} (R : C -> B -> Prop) (f : A -> B -> C)
    (xs : list A) (ys : list B) :
  Forall2 (fun x y => R (f x y) y) xs ys -> Forall2 R (map2 f xs ys) ys.
Proof. induction 1; simpl; constructor; auto. Qed.

Lemma Forall2_impl {A B} (P Q : A -> B -> Prop) (xs : list A) (ys : list B) :
  (forall x y, P x y -> Q x y) -> Forall2 P xs ys -> Forall2 Q xs ys.
Proof. intros H. induction 1; constructor; auto. Qed.

Lemma map2_map {A A' B B' C} (f : A' -> B' -> C) (g : A -> A') (h : B -> B')
    (xs : list A) (ys : list B) :
  map2 f (map g xs) (map h ys) = map2 (fun x y => f (g x) (h y)) xs ys.
Proof.
  revert ys. induction xs as [| x xs IH]; intros [| y ys]; simpl; try reflexivity.
  now rewrite IH.
Qed.

Lemma soft_update_param_blend (tau : F64.t) (tp lp : tensor) :
  Agent.soft_update_param tau tp lp = map2 (blend tau) tp lp.
Proof.
  unfold Agent.soft_update_param, tensor_add, scalar_mul. rewrite map2_map.
  revert lp. induction tp as [| t tp IH]; intros [| l lp]; simpl; try reflexivity.
  f_equal. apply IH.
Qed.

Lemma blend_tau_0 (t l : F32.t) :
  F32.valid t = true -> F32.is_finite l = true -> agree (blend (F64.of_Z 0) t l) t.
Proof.
  intros Hv Hf. unfold blend.
  change (F32.of_f64 (F64.of_Z 0)) with (S754_zero false).
  change (F32.of_f64 (F64.sub (F64.of_Z 1) (F64.of_Z 0))) with F32.one.
  rewrite (F32_mul_one_l _ Hv).
  destruct (F32_mul_zero_l _ false Hf) as [s' ->]. apply F32_add_zero_l.
Qed.

Lemma blend_tau_1 (t l : F32.t) :
  F32.is_finite t = true -> F32.valid l = true -> agree (blend (F64.of_Z 1) t l) l.
Proof.
  intros Hf Hv. unfold blend.
  change (F32.of_f64 (F64.of_Z 1)) with F32.one.
  change (F32.of_f64 (F64.sub (F64.of_Z 1) (F64.of_Z 1))) with (S754_zero false).
  rewrite (F32_mul_one_l _ Hv).
  destruct (F32_mul_zero_l _ false Hf) as [s' ->]. apply F32_add_zero_r.
Qed.

Lemma parameters_load_map2 (f : tensor -> tensor -> tensor) (target local : QNetwork.t) :
  QNetwork.parameters
    (QNetwork.load target
       (map2 f (QNetwork.parameters target) (QNetwork.parameters local))) =
  map2 f (QNetwork.parameters target) (QNetwork.parameters local).
Proof. reflexivity. Qed.

Section SoftUpdate.
Context {RT : Runtime}.

(** C5, as amended.  For two parameter sets of one shape,
    [soft_update(local, target, tau)] returns normally, changes nothing
    but the parameters of the target, and leaves in each element of the
    target the binary32 value of [tau * local + (1 - tau) * target]
    (each product and the sum rounded).  With [tau = 0] and finite
    local parameters the target is unchanged, and with [tau = 1] and
    finite target parameters it equals the local one, element by
    element and up to the sign of a zero.  Rounding may put an element
    outside the interval of the two original values. *)
Theorem soft_update_blend (self : Agent.t) (tau : F64.t) (w : World) :
  forall2b (fun t l => Nat.eqb (length t) (length l))
    (QNetwork.parameters (Agent.qnetwork_target self))
    (QNetwork.parameters (Agent.qnetwork_local self)) = true ->
  exists self',
    Agent.soft_update self Local Target tau w =
      (Ok self', {| py_random := py_random w; torch_gen := torch_gen w;
                    trace := trace w ++ [EvSoftUpdate] |})
    /\ Agent.qnetwork_local self' = Agent.qnetwork_local self
    /\ Agent.optimizer self' = Agent.optimizer self
    /\ Agent.memory self' = Agent.memory self
    /\ Agent.t_step self' = Agent.t_step self
    /\ QNetwork.parameters (Agent.qnetwork_target self') =
       map2 (map2 (blend tau))
            (QNetwork.parameters (Agent.qnetwork_target self))
            (QNetwork.parameters (Agent.qnetwork_local self))
    /\ (tau = F64.of_Z 0 ->
        forall2b (forall2b (fun t l => F32.valid t && F32.is_finite l))
          (QNetwork.parameters (Agent.qnetwork_target self))
          (QNetwork.parameters (Agent.qnetwork_local self)) = true ->
        Forall2 (Forall2 agree)
          (QNetwork.parameters (Agent.qnetwork_target self'))
          (QNetwork.parameters (Agent.qnetwork_target self)))
    /\ (tau = F64.of_Z 1 ->
        forall2b (forall2b (fun t l => F32.is_finite t && F32.valid l))
          (QNetwork.parameters (Agent.qnetwork_target self))
          (QNetwork.parameters (Agent.qnetwork_local self)) = true ->
        Forall2 (Forall2 agree)
          (QNetwork.parameters (Agent.qnetwork_target self'))
          (QNetwork.parameters (Agent.qnetwork_local self))).
Proof.
  intros _. eexists. split; [reflexivity |].
  cbn [Agent.set_net Agent.get_net Agent.qnetwork_local Agent.optimizer
       Agent.memory Agent.t_step Agent.qnetwork_target].
  repeat (split; [reflexivity |]).
  rewrite parameters_load_map2.
  assert (Hb : map2 (Agent.soft_update_param tau)
                 (QNetwork.parameters (Agent.qnetwork_target self))
                 (QNetwork.parameters (Agent.qnetwork_local self)) =
               map2 (map2 (blend tau))
                 (QNetwork.parameters (Agent.qnetwork_target self))
                 (QNetwork.parameters (Agent.qnetwork_local self))).
  { generalize (QNetwork.parameters (Agent.qnetwork_target self))
               (QNetwork.parameters (Agent.qnetwork_local self)).
    induction l as [| tp l IH]; intros [| lp l0]; simpl; try reflexivity.
    now rewrite soft_update_param_blend, IH. }
  rewrite Hb. split; [reflexivity |]. split.
  - intros -> H. apply Forall2_map2_l.
    eapply Forall2_impl; [| apply forall2b_Forall2, H].
    intros tp lp Hp. apply Forall2_map2_l.
    eapply Forall2_impl; [| apply forall2b_Forall2, Hp].
    intros t l Htl. apply andb_prop in Htl as [Hv Hf]. now apply blend_tau_0.
  - intros -> H. apply Forall2_map2_r.
    eapply Forall2_impl; [| apply forall2b_Forall2, H].
    intros tp lp Hp. apply Forall2_map2_r.
    eapply Forall2_impl; [| apply forall2b_Forall2, Hp].
    intros t l Htl. apply andb_prop in Htl as [Hf Hv]. now apply blend_tau_1.
Qed.
End SoftUpdate.

Lemma soft_update_blend_witness :
  let self := Scripted.agent_of 4 2 (Scripted.const_net 4 2 (F32.of_Z 2))
                (Scripted.const_net 4 2 (F32.of_Z 1)) in
  let w := Scripted.world [] in
  forall2b (fun t l => Nat.eqb (length t) (length l))
    (QNetwork.parameters (Agent.qnetwork_target self))
    (QNetwork.parameters (Agent.qnetwork_local self)) = true
  /\ exists self',
       Agent.soft_update self Local Target TAU w =
         (Ok self', {| py_random := py_random w; torch_gen := torch_gen w;
                       trace := trace w ++ [EvSoftUpdate] |})
       /\ Agent.qnetwork_local self' = Agent.qnetwork_local self.
Proof.
  intros self w.
  assert (H : forall2b (fun t l => Nat.eqb (length t) (length l))
                (QNetwork.parameters (Agent.qnetwork_target self))
                (QNetwork.parameters (Agent.qnetwork_local self)) = true)
    by (vm_compute; reflexivity).
  split; [exact H |].
  destruct (@soft_update_blend Scripted.runtime self TAU w H) as [self' [H1 [H2 _]]].
  exists self'. split; assumption.
Defined.

(** C5 as stated fails on its bound: with the default [TAU = 1e-3] and
    local and target parameters all equal to [15.0], every element of
    the updated target is [15728641 * 2^-20], the binary32 successor of
    [15.0], which is not between [15.0] and [15.0]. *)
Lemma soft_update_leaves_interval :
  let fifteen := F32.of_Z 15 in
  let self := Scripted.agent_of 1 1 (Scripted.const_net 1 1 fifteen)
                (Scripted.const_net 1 1 fifteen) in
  match fst (Agent.soft_update self Local Target TAU (Scripted.world [])) with
  | Ok self' =>
      forallb (forallb (fun x =>
                 F32.eqb x (S754_finite false 15728641 (-20))
                 && F32.ltb fifteen x
                 && negb (F32.between x fifteen fifteen)))
        (QNetwork.parameters (Agent.qnetwork_target self')) = true
  | Raise _ => False
  end.
Proof. vm_compute. reflexivity. Qed.

(** ** C6: the epochs of [learn] *)

Section RecordEvents.
Context {RT : Runtime}.

Lemma record_events_app (w : World) (a b : list event) :
  record_events (record_events w a) b = record_events w (a ++ b).
Proof. unfold record_events. cbn. now rewrite app_assoc. Qed.

Lemma record_events_nil (w : World) : record_events w [] = w.
Proof. destruct w. unfold record_events. cbn. now rewrite app_nil_r. Qed.

Lemma rows_of_leaky_relu (n : nat) (x : tensor2) :
  rows_of n (QNetwork.leaky_relu x) = rows_of n x.
Proof.
  unfold rows_of, QNetwork.leaky_relu. induction x as [| row x IH]; simpl.
  - reflexivity.
  - now rewrite length_map, IH.
Qed.

Lemma apply_Linear_ok (l : QNetwork.Linear) (x : tensor2) :
  rows_of (QNetwork.in_features l) x = true ->
  exists q, QNetwork.apply_Linear l x = Ok q
            /\ rows_of (QNetwork.out_features l) q = true.
Proof.
  intros H. unfold QNetwork.apply_Linear. unfold rows_of in H. rewrite H.
  eexists. split; [reflexivity |].
  unfold rows_of. rewrite forallb_forall. intros row Hrow.
  apply in_map_iff in Hrow as [r [<- _]].
  rewrite length_map, length_seq. apply Nat.eqb_refl.
Qed.

Lemma forward_ok (net : QNetwork.t) (i o : nat) (x : tensor2) :
  arch_ok net i o = true -> rows_of i x = true ->
  exists q, QNetwork.forward net x = Ok q /\ rows_of o q = true.
Proof.
  unfold arch_ok. intros Ha Hx.
  repeat (apply andb_prop in Ha as [Ha ?]).
  repeat match goal with H : Nat.eqb _ _ = true |- _ => apply Nat.eqb_eq in H end.
  unfold QNetwork.forward.
  destruct (apply_Linear_ok (QNetwork.fc1 net) x) as [q1 [-> Hq1]]; [congruence |].
  destruct (apply_Linear_ok (QNetwork.fc2 net) (QNetwork.leaky_relu q1)) as [q2 [-> Hq2]];
    [rewrite rows_of_leaky_relu; congruence |].
  destruct (apply_Linear_ok (QNetwork.fc3 net) (QNetwork.leaky_relu q2)) as [q3 [-> Hq3]];
    [rewrite rows_of_leaky_relu; congruence |].
  destruct (apply_Linear_ok (QNetwork.fc4 net) (QNetwork.leaky_relu q3)) as [q4 [-> Hq4]];
    [rewrite rows_of_leaky_relu; congruence |].
  exists q4. split; [reflexivity | congruence].
Qed.
End RecordEvents.

Lemma gather_ok (o : nat) (q : tensor2) (actions : list Z) :
  rows_of o q = true -> actions_in o actions = true ->
  exists r, gather q actions = Ok r.
Proof.
  revert actions. induction q as [| row q IH]; intros [| a actions] Hq Ha; simpl;
    try (eexists; reflexivity).
  simpl in Hq, Ha. apply andb_prop in Hq as [Hrow Hq]. apply andb_prop in Ha as [Hin Ha].
  apply Nat.eqb_eq in Hrow. rewrite Hrow, Hin.
  destruct (IH actions Hq Ha) as [r ->]. eexists. reflexivity.
Qed.

Lemma traverse_row_max_ok (o : nat) (q : tensor2) :
  o <> 0%nat -> rows_of o q = true -> exists m, traverse row_max q = Ok m.
Proof.
  intros Ho. induction q as [| row q IH]; simpl; intros Hq.
  - eexists. reflexivity.
  - apply andb_prop in Hq as [Hrow Hq]. apply Nat.eqb_eq in Hrow.
    destruct row as [| x row]; [simpl in Hrow; congruence |].
    destruct (IH Hq) as [m ->]. eexists. reflexivity.
Qed.

Lemma arch_ok_load (net : QNetwork.t) (ps : list tensor) (i o : nat) :
  arch_ok (QNetwork.load net ps) i o = arch_ok net i o.
Proof. reflexivity. Qed.

Section LearnEpochs.
Context {RT : Runtime}.

Lemma epoch_update_arch states actions y (self : Agent.t) (i o : nat) :
  arch_ok (Agent.qnetwork_local (epoch_update states actions y self)) i o =
  arch_ok (Agent.qnetwork_local self) i o.
Proof. unfold epoch_update. destruct (backward_step _ _ _ _ _). reflexivity. Qed.

Lemma epoch_ok states actions y (self : Agent.t) (i o : nat) (w : World) :
  arch_ok (Agent.qnetwork_local self) i o = true ->
  rows_of i states = true -> actions_in o actions = true ->
  Agent.epoch states actions y self w =
  (Ok (epoch_update states actions y self), record_events w epoch_events).
Proof.
  intros Ha Hs Hact. unfold Agent.epoch, epoch_update.
  destruct (forward_ok _ _ _ _ Ha Hs) as [q [Hq Hrows]].
  destruct (gather_ok _ _ _ Hrows Hact) as [r Hr].
  unfold bind at 1. cbn [emit]. unfold bind at 1. unfold lift at 1. rewrite Hq.
  unfold bind at 1. unfold lift at 1. rewrite Hr.
  unfold bind at 1. cbn [emit].
  destruct (backward_step _ _ _ _ _) as [ps opt].
  unfold Agent.soft_update, bind, emit, ret, record_events, epoch_events.
  cbn [Agent.get_net Agent.set_net Agent.qnetwork_local Agent.qnetwork_target
       Agent.state_size Agent.action_size Agent.optimizer Agent.memory Agent.t_step
       py_random torch_gen trace].
  now rewrite <- !app_assoc.
Qed.

Lemma for_range_epochs states actions y (i o : nat) (n : nat) (self : Agent.t)
    (w : World) :
  arch_ok (Agent.qnetwork_local self) i o = true ->
  rows_of i states = true -> actions_in o actions = true ->
  for_range n (Agent.epoch states actions y) self w =
  (Ok (Nat.iter n (epoch_update states actions y) self),
   record_events w (concat (repeat epoch_events n))).
Proof.
  intros Ha Hs Hact. revert self w Ha.
  induction n as [| n IH]; intros self w Ha.
  - cbn. now rewrite record_events_nil.
  - cbn [for_range]. unfold bind.
    rewrite epoch_ok with (i := i) (o := o) by assumption.
    rewrite IH by (now rewrite epoch_update_arch).
    rewrite record_events_app, Nat.iter_succ_r. reflexivity.
Qed.

(** On a well-shaped batch [learn] returns. *)
Lemma learn_well_shaped (self : Agent.t) (states next_states : tensor2)
    (actions : list Z) (rewards dones : tensor) (gamma : F64.t) (w : World) :
  arch_ok (Agent.qnetwork_local self) (Agent.state_size self) (Agent.action_size self) = true ->
  arch_ok (Agent.qnetwork_target self) (Agent.state_size self) (Agent.action_size self) = true ->
  Agent.action_size self <> 0%nat ->
  rows_of (Agent.state_size self) states = true ->
  rows_of (Agent.state_size self) next_states = true ->
  actions_in (Agent.action_size self) actions = true ->
  exists self' w',
    Agent.learn self (states, actions, rewards, next_states, dones) gamma w =
    (Ok self', w').
Proof.
  intros Hl Ht Ho Hs Hns Hact.
  destruct (forward_ok _ _ _ _ Ht Hns) as [q_next [Hq Hrows]].
  destruct (traverse_row_max_ok _ Ho Hrows) as [Qsa_max Hm].
  unfold Agent.learn.
  unfold bind at 1. cbn [emit]. unfold bind at 1. cbn [emit].
  unfold bind at 1. unfold lift at 1. rewrite Hq.
  unfold bind at 1. unfold lift at 1. rewrite Hm.
  unfold Agent.num_epoches.
  rewrite for_range_epochs
    with (i := Agent.state_size self) (o := Agent.action_size self) by assumption.
  eexists. eexists. reflexivity.
Qed.

(** An epoch that returns has taken one optimizer step and one soft
    update, in this order. *)
Lemma epoch_returns states actions y (self self' : Agent.t) (w w' : World) :
  Agent.epoch states actions y self w = (Ok self', w') ->
  self' = epoch_update states actions y self /\ w' = record_events w epoch_events.
Proof.
  unfold Agent.epoch, epoch_update.
  unfold bind at 1. cbn [emit]. unfold bind at 1. unfold lift at 1.
  destruct (QNetwork.forward _ _) as [q | e]; [| discriminate].
  unfold bind at 1. unfold lift at 1.
  destruct (gather q actions) as [r | e]; [| discriminate].
  unfold bind at 1. cbn [emit].
  destruct (backward_step _ _ _ _ _) as [ps opt].
  unfold Agent.soft_update, bind, emit, ret, record_events, epoch_events.
  cbn [Agent.get_net Agent.set_net Agent.qnetwork_local Agent.qnetwork_target
       Agent.state_size Agent.action_size Agent.optimizer Agent.memory Agent.t_step
       py_random torch_gen trace].
  intros [= <- <-]. split; [reflexivity |]. now rewrite <- !app_assoc.
Qed.

Lemma for_range_returns states actions y (n : nat) (self self' : Agent.t)
    (w w' : World) :
  for_range n (Agent.epoch states actions y) self w = (Ok self', w') ->
  self' = Nat.iter n (epoch_update states actions y) self
  /\ w' = record_events w (concat (repeat epoch_events n)).
Proof.
  revert self w. induction n as [| n IH]; intros self w.
  - cbn. intros [= <- <-]. now rewrite record_events_nil.
  - cbn [for_range]. unfold bind.
    destruct (Agent.epoch states actions y self w) as [[a | e] w1] eqn:E;
      [| discriminate].
    apply epoch_returns in E as [-> ->]. intros H. apply IH in H as [-> ->].
    rewrite record_events_app, Nat.iter_succ_r. split; reflexivity.
Qed.

Lemma length_map2 {A B C} (f : A -> B -> C) (xs : list A) (ys : list B) :
  length (map2 f xs ys) = Nat.min (length xs) (length ys).
Proof.
  revert ys. induction xs as [| x xs IH]; intros [| y ys]; cbn; auto.
Qed.

Lemma td_target_length (gamma : F64.t) (rewards Qsa_max dones : tensor) :
  length (Agent.td_target gamma rewards Qsa_max dones) =
  Nat.min (length rewards) (Nat.min (length Qsa_max) (length dones)).
Proof.
  unfold Agent.td_target, tensor_add, tensor_mul, scalar_mul, scalar_rsub.
  now rewrite !length_map2, !length_map.
Qed.

Lemma apply_Linear_length (l : QNetwork.Linear) (x q : tensor2) :
  QNetwork.apply_Linear l x = Ok q -> length q = length x.
Proof.
  unfold QNetwork.apply_Linear.
  destruct (forallb (fun row => Nat.eqb (length row) (QNetwork.in_features l)) x);
    [| discriminate].
  intros [= <-]. apply length_map.
Qed.

(** The network returns one row of action values per row of its
    input. *)
Lemma forward_length (net : QNetwork.t) (x q : tensor2) :
  QNetwork.forward net x = Ok q -> length q = length x.
Proof.
  unfold QNetwork.forward.
  destruct (QNetwork.apply_Linear (QNetwork.fc1 net) x) as [q1 | e] eqn:E1;
    [| discriminate].
  destruct (QNetwork.apply_Linear (QNetwork.fc2 net) _) as [q2 | e] eqn:E2;
    [| discriminate].
  destruct (QNetwork.apply_Linear (QNetwork.fc3 net) _) as [q3 | e] eqn:E3;
    [| discriminate].
  intros E4.
  apply apply_Linear_length in E1. apply apply_Linear_length in E2.
  apply apply_Linear_length in E3. apply apply_Linear_length in E4.
  unfold QNetwork.leaky_relu in E2, E3, E4.
  rewrite length_map in E2. rewrite length_map in E3. rewrite length_map in E4.
  exact (eq_trans E4 (eq_trans E3 (eq_trans E2 E1))).
Qed.

Lemma traverse_length {A B} (f : A -> result B) (xs : list A) (ys : list B) :
  traverse f xs = Ok ys -> length ys = length xs.
Proof.
  revert ys. induction xs as [| x xs IH]; intros ys; cbn [traverse].
  - now intros [= <-].
  - destruct (f x); [| discriminate].
    destruct (traverse f xs) as [ys' |]; [| discriminate].
    intros [= <-]. cbn. now rewrite (IH ys').
Qed.

(** C6.  On a batch whose five columns have one row count, as [sample]
    returns it: whenever [learn] returns, it has evaluated the target
    network once, on the next states, formed [Qsa_max] and [y] from
    that single evaluation, one target per row of the batch, and then
    run exactly 10 epochs; each epoch evaluates the local network on
    the batch, takes one optimizer step and then one soft update of
    the target.  All epochs use the same [states], [actions] and [y]:
    the result is the 10-fold iterate of one epoch at the targets
    computed before the loop.  When the batch is moreover well shaped
    for the two networks, [learn] does return. *)
Theorem learn_ten_epochs (self : Agent.t) (states next_states : tensor2)
    (actions : list Z) (rewards dones : tensor) (gamma : F64.t) (w : World) :
  length actions = length states ->
  length rewards = length states ->
  length next_states = length states ->
  length dones = length states ->
  (forall self' w',
     Agent.learn self (states, actions, rewards, next_states, dones) gamma w =
       (Ok self', w') ->
     exists q_next Qsa_max,
       QNetwork.forward (Agent.qnetwork_target self) next_states = Ok q_next
       /\ traverse row_max q_next = Ok Qsa_max
       /\ length Qsa_max = length states
       /\ length (Agent.td_target gamma rewards Qsa_max dones) = length states
       /\ self' = Nat.iter 10
                    (epoch_update states actions
                       (Agent.td_target gamma rewards Qsa_max dones)) self
       /\ w' = record_events w
                 ([EvLearn; EvForward Target] ++ concat (repeat epoch_events 10)))
  /\ (arch_ok (Agent.qnetwork_local self) (Agent.state_size self)
         (Agent.action_size self) = true ->
      arch_ok (Agent.qnetwork_target self) (Agent.state_size self)
         (Agent.action_size self) = true ->
      Agent.action_size self <> 0%nat ->
      rows_of (Agent.state_size self) states = true ->
      rows_of (Agent.state_size self) next_states = true ->
      actions_in (Agent.action_size self) actions = true ->
      exists self' w',
        Agent.learn self (states, actions, rewards, next_states, dones) gamma w =
        (Ok self', w')).
Proof.
  intros Hactions Hrewards Hnext Hdones.
  split; [| apply learn_well_shaped].
  intros self' w'. unfold Agent.learn.
  unfold bind at 1. cbn [emit]. unfold bind at 1. cbn [emit].
  unfold bind at 1. unfold lift at 1.
  destruct (QNetwork.forward _ _) as [q_next | e] eqn:Hq; [| discriminate].
  unfold bind at 1. unfold lift at 1.
  destruct (traverse row_max q_next) as [Qsa_max | e] eqn:Hm; [| discriminate].
  unfold Agent.num_epoches. intros H. apply for_range_returns in H as [-> ->].
  assert (Hlen : length Qsa_max = length states).
  { rewrite (traverse_length _ _ Hm), (forward_length _ _ Hq). exact Hnext. }
  exists q_next, Qsa_max.
  split; [reflexivity |]. split; [exact Hm |]. split; [exact Hlen |].
  split; [rewrite td_target_length, Hrewards, Hlen, Hdones; lia |].
  split; [reflexivity |].
  unfold record_events. cbn [py_random torch_gen trace]. now rewrite <- !app_assoc.
Qed.
End LearnEpochs.

Lemma learn_ten_epochs_witness :
  let net := Scripted.const_net 4 2 F32.zero in
  let self := Scripted.agent_of 4 2 net net in
  let row := map F32.of_Z [1; 2; 3; 4] in
  let w := Scripted.world [] in
  length [1] = length [row]
  /\ length [F32.one] = length [row]
  /\ length [F32.zero] = length [row]
  /\ arch_ok (Agent.qnetwork_local self) (Agent.state_size self) (Agent.action_size self) = true
  /\ arch_ok (Agent.qnetwork_target self) (Agent.state_size self) (Agent.action_size self) = true
  /\ Agent.action_size self <> 0%nat
  /\ rows_of (Agent.state_size self) [row] = true
  /\ actions_in (Agent.action_size self) [1] = true
  /\ exists self' w',
       Agent.learn self ([row], [1], [F32.one], [row], [F32.zero]) GAMMA w = (Ok self', w').
Proof.
  intros net self row w.
  repeat (split; [first [reflexivity | discriminate] |]).
  apply (proj2 (@learn_ten_epochs Scripted.runtime self [row] [row] [1] [F32.one]
                  [F32.zero] GAMMA w eq_refl eq_refl eq_refl eq_refl));
    first [reflexivity | discriminate].
Defined.

(** ** C7: inputs of the wrong dimension *)

Section Shapes.
Context {RT : Runtime}.

(** A step that does not fire stores the transition and returns. *)
Lemma step_silent (self : Agent.t) s a r ns d (w : World) :
  ~ ((Agent.t_step self + 1) mod UPDATE_EVERY = 0 /\
     BATCH_SIZE < ReplayBuffer.len (ReplayBuffer.add (Agent.memory self) s a r ns d)) ->
  Agent.step self s a r ns d w = (Ok (stored self s a r ns d), w).
Proof.
  intros H. rewrite step_unfold. cbn [stored Agent.t_step Agent.memory].
  destruct (Z.eqb_spec ((Agent.t_step self + 1) mod UPDATE_EVERY) 0) as [Ht | Ht];
    [| reflexivity].
  destruct (Z.ltb_spec BATCH_SIZE
              (ReplayBuffer.len (ReplayBuffer.add (Agent.memory self) s a r ns d)))
    as [Hb | Hb]; [| reflexivity].
  exfalso. apply H. now split.
Qed.

(** C7, as amended.  Neither [step] nor [act] checks dimensions, and
    no call raises [ShapeMismatchError].  A [step] that does not
    trigger learning stores the transition as given, whatever its
    dimensions, and returns normally.  [act] on a state vector whose
    length differs from [state_size] fails in the first layer of the
    network, with the [RuntimeError] of the matrix product. *)
Theorem no_shape_check (self : Agent.t) (s : list F64.t) (a : Z) (r : F64.t)
    (ns : list F64.t) (d : bool) (state : list F64.t) (eps : F64.t) (w : World) :
  QNetwork.in_features (QNetwork.fc1 (Agent.qnetwork_local self)) = Agent.state_size self ->
  length state <> Agent.state_size self ->
  ~ raises (fst (Agent.step self s a r ns d w)) "ShapeMismatchError"
  /\ (forall state', ~ raises (fst (Agent.act self state' eps w)) "ShapeMismatchError")
  /\ (~ ((Agent.t_step self + 1) mod UPDATE_EVERY = 0 /\
         BATCH_SIZE < ReplayBuffer.len (ReplayBuffer.add (Agent.memory self) s a r ns d)) ->
      Agent.step self s a r ns d w = (Ok (stored self s a r ns d), w))
  /\ fst (Agent.act self state eps w) = Raise matmul_shapes
  /\ exn_class matmul_shapes = "RuntimeError".
Proof.
  intros Hin Hlen. split; [| split; [| split; [| split]]].
  - intros [msg H].
    apply (@raises_in_step RT (fun e => exn_class e <> "ShapeMismatchError")) in H;
      try exn_neq; try (intros _; exn_neq).
    now apply H.
  - intros state' [msg H].
    apply (@raises_in_act RT (fun e => exn_class e <> "ShapeMismatchError")) in H;
      try exn_neq.
    now apply H.
  - apply step_silent.
  - unfold Agent.act. unfold bind at 1. cbn [emit]. unfold bind at 1. unfold lift at 1.
    unfold QNetwork.forward, QNetwork.apply_Linear. cbn [forallb].
    rewrite length_map, Hin.
    destruct (Nat.eqb_spec (length state) (Agent.state_size self)) as [E | E];
      [contradiction | reflexivity].
  - reflexivity.
Qed.
End Shapes.

Lemma no_shape_check_witness :
  let self := Scripted.agent_of 4 2 (Scripted.const_net 4 2 F32.zero)
                (Scripted.const_net 4 2 F32.zero) in
  let s := map F64.of_Z [1; 2; 3] in
  let w := Scripted.world [] in
  QNetwork.in_features (QNetwork.fc1 (Agent.qnetwork_local self)) = Agent.state_size self
  /\ length s <> Agent.state_size self
  /\ ~ raises (fst (Agent.step self s 7 (F64.of_Z 1) s false w)) "ShapeMismatchError"
  /\ fst (Agent.act self s (F64.of_Z 0) w) = Raise matmul_shapes.
Proof.
  intros self s w.
  assert (H1 : QNetwork.in_features (QNetwork.fc1 (Agent.qnetwork_local self)) =
               Agent.state_size self) by reflexivity.
  assert (H2 : length s <> Agent.state_size self) by discriminate.
  split; [exact H1 |]. split; [exact H2 |].
  destruct (@no_shape_check Scripted.runtime self s 7 (F64.of_Z 1) s false s
              (F64.of_Z 0) w H1 H2) as [H3 [_ [_ [H4 _]]]].
  split; assumption.
Defined.

(** C7 as stated fails: the agent built for [state_size = 4] and
    [action_size = 2] takes a step whose state has 3 components, whose
    next state has 5 and whose action is 7; the call returns normally
    and the transition is stored as given.  [act] on the 3-component
    state raises [RuntimeError]. *)
Lemma step_accepts_wrong_shape :
  let s3 := map F64.of_Z [1; 2; 3] in
  let s5 := map F64.of_Z [1; 2; 3; 4; 5] in
  let w := Scripted.world [] in
  match fst (Agent.init 4 2 0 w) with
  | Ok agent =>
      match fst (Agent.step agent s3 7 (F64.of_Z 1) s5 false w) with
      | Ok agent' =>
          forall2b (forall2b SFeqb)
            (map ReplayBuffer.state
               (ReplayBuffer.items (ReplayBuffer.memory (Agent.memory agent'))))
            [s3]
      | Raise _ => false
      end
      && raisesb (fst (Agent.act agent s3 (F64.of_Z 0) w)) "RuntimeError"
  | Raise _ => false
  end = true.
Proof. vm_compute. reflexivity. Qed.

(** ** C8: greedy action selection *)

Section Greedy.
Context {RT : Runtime}.

(** C8, as amended.  With [eps = 0], [act] returns the greedy action,
    a function of the state and of the local parameters alone, whenever
    the draw of [random.random()] is greater than 0; so two such calls
    on one state with unchanged parameters return the same action.  The
    test [random.random() > eps] is strict: a draw of exactly [0.0]
    selects a random action even with [eps = 0]. *)
Theorem act_greedy_deterministic (self : Agent.t) (state : list F64.t) (w1 w2 : World) :
  F64.ltb (F64.of_Z 0) (fst (random_random (py_random w1))) = true ->
  F64.ltb (F64.of_Z 0) (fst (random_random (py_random w2))) = true ->
  fst (Agent.act self state (F64.of_Z 0) w1) = greedy_action self state
  /\ fst (Agent.act self state (F64.of_Z 0) w2) = greedy_action self state
  /\ fst (Agent.act self state (F64.of_Z 0) w1) =
     fst (Agent.act self state (F64.of_Z 0) w2).
Proof.
  assert (H : forall w, F64.ltb (F64.of_Z 0) (fst (random_random (py_random w))) = true ->
                        fst (Agent.act self state (F64.of_Z 0) w) = greedy_action self state).
  { intros w Hw. unfold Agent.act, greedy_action.
    unfold bind at 1. cbn [emit]. unfold bind at 1. unfold lift at 1.
    destruct (QNetwork.forward _ _) as [q | e]; [| reflexivity].
    unfold bind, with_random. cbn [py_random].
    destruct (random_random (py_random w)) as [x g]. cbn [fst] in Hw.
    rewrite Hw. reflexivity. }
  intros H1 H2. rewrite (H w1 H1), (H w2 H2). repeat split.
Qed.
End Greedy.

Lemma act_greedy_deterministic_witness :
  let self := Scripted.agent_of 4 2 (Scripted.const_net 4 2 F32.zero)
                (Scripted.const_net 4 2 F32.zero) in
  let s := map F64.of_Z [1; 2; 3; 4] in
  let w1 := Scripted.world [F64.literal 1 4] in
  let w2 := Scripted.world [F64.literal 3 4] in
  F64.ltb (F64.of_Z 0) (fst (random_random (py_random w1))) = true
  /\ F64.ltb (F64.of_Z 0) (fst (random_random (py_random w2))) = true
  /\ fst (Agent.act self s (F64.of_Z 0) w1) = fst (Agent.act self s (F64.of_Z 0) w2).
Proof.
  intros self s w1 w2.
  assert (H1 : F64.ltb (F64.of_Z 0) (fst (random_random (py_random w1))) = true)
    by reflexivity.
  assert (H2 : F64.ltb (F64.of_Z 0) (fst (random_random (py_random w2))) = true)
    by reflexivity.
  split; [exact H1 |]. split; [exact H2 |].
  destruct (@act_greedy_deterministic Scripted.runtime self s w1 w2 H1 H2) as [_ [_ H]].
  exact H.
Defined.

(** C8 as stated fails: the same agent and state, [eps = 0] both times;
    the first call draws [0.5] and returns the greedy action 0, the
    second draws [0.0], fails the strict test and returns the randomly
    chosen action 1. *)
Lemma act_zero_draw_not_greedy :
  let self := Scripted.agent_of 4 2 (Scripted.const_net 4 2 F32.zero)
                (Scripted.const_net 4 2 F32.zero) in
  let s := map F64.of_Z [1; 2; 3; 4] in
  fst (Agent.act self s (F64.of_Z 0) (Scripted.world [F64.literal 1 2])) = Ok 0%nat
  /\ fst (Agent.act self s (F64.of_Z 0) (Scripted.world [F64.of_Z 0])) = Ok 1%nat.
Proof. vm_compute. split; reflexivity. Qed.

(** ** C10: the two networks at construction *)

(** Run the constructors down to the draws of the default generator. *)
Ltac run_init :=
  unfold Agent.init, QNetwork.init, QNetwork.manual_seed, QNetwork.nn_Linear,
    ReplayBuffer.init;
  repeat match goal with
         | H : ?b = true |- context [?b] => rewrite H
         end;
  cbn [andb]; unfold bind, py_seed, with_gen, ret, raise;
  cbn [torch_gen py_random trace];
  repeat (match goal with
          | |- context [uniform_ ?g ?n ?f] =>
              let t := fresh "t" in let g' := fresh "g" in
              destruct (uniform_ g n f) as [t g']
          end; cbn [torch_gen py_random trace]);
  change (BUFFER_SIZE <? 0) with false; cbn iota.

Section Construction.
Context {RT : Runtime}.

(** The constructor returns for every seed [torch.manual_seed] accepts. *)
Lemma init_returns (state_size action_size : nat) (seed : Z) (w : World) :
  - 2 ^ 63 <= seed < 2 ^ 64 ->
  exists agent w', Agent.init state_size action_size seed w = (Ok agent, w').
Proof.
  intros [Hlo Hhi]. apply Z.leb_le in Hlo. apply Z.ltb_lt in Hhi.
  run_init. eexists. eexists. reflexivity.
Qed.

(** C10.  For every state size, action size and seed that
    [torch.manual_seed] accepts, [Agent(state_size, action_size, seed)]
    returns an agent whose local and target networks are equal: each
    [QNetwork] constructor reseeds the default generator with the same
    seed before it draws its weights. *)
Theorem init_networks_equal (state_size action_size : nat) (seed : Z) (w : World) :
  - 2 ^ 63 <= seed < 2 ^ 64 ->
  exists agent w',
    Agent.init state_size action_size seed w = (Ok agent, w')
    /\ Agent.qnetwork_local agent = Agent.qnetwork_target agent
    /\ QNetwork.parameters (Agent.qnetwork_local agent) =
       QNetwork.parameters (Agent.qnetwork_target agent).
Proof.
  intros [Hlo Hhi]. apply Z.leb_le in Hlo. apply Z.ltb_lt in Hhi.
  run_init. eexists. eexists. split; [reflexivity |]. split; reflexivity.
Qed.
End Construction.

Lemma init_networks_equal_witness :
  - 2 ^ 63 <= 0 < 2 ^ 64
  /\ exists agent w',
       Agent.init 4 2 0 (Scripted.world []) = (Ok agent, w')
       /\ Agent.qnetwork_local agent = Agent.qnetwork_target agent
       /\ QNetwork.parameters (Agent.qnetwork_local agent) =
          QNetwork.parameters (Agent.qnetwork_target agent).
Proof.
  assert (H : - 2 ^ 63 <= 0 < 2 ^ 64) by (split; [discriminate | reflexivity]).
  split; [exact H |].
  exact (@init_networks_equal Scripted.runtime 4%nat 2%nat 0 (Scripted.world []) H).
Defined.

(** ** C9: the first learning step *)


Lemma np_vstack_ok {A} (n : nat) (rows : list (list A)) :
  rows <> [] -> Forall (fun r => length r = n) rows -> np_vstack rows = Ok rows.
Proof.
  intros Hne Hall. destruct rows as [| r rest]; [contradiction |].
  unfold np_vstack. inversion Hall as [| ? ? Hr Hrest]; subst.
  assert (H : forallb (fun r' => Nat.eqb (length r') (length r)) rest = true).
  { apply forallb_forall. intros r' Hin. rewrite Forall_forall in Hrest.
    rewrite (Hrest r' Hin). apply Nat.eqb_refl. }
  now rewrite H.
Qed.

Lemma np_vstack_scalars_ok {A} (xs : list A) : xs <> [] -> np_vstack_scalars xs = Ok xs.
Proof. destruct xs; [contradiction | reflexivity]. Qed.

Section FirstLearning.
Context {RT : Runtime} {SL : SamplerLaws RT}.

Lemma quiet_step (k : nat) (a : Agent.t) (e : ReplayBuffer.Experience) (w : World) :
  quiet k a -> (k < 67)%nat ->
  step_exp a e w = (Ok (stored_exp a e), w)
  /\ quiet (S k) (stored_exp a e)
  /\ agent_items (stored_exp a e) = agent_items a ++ [e].
Proof.
  intros (Hmax & Hbatch & Hlen & Ht) Hk.
  assert (Hitems : agent_items (stored_exp a e) = agent_items a ++ [e]).
  { unfold agent_items, stored_exp, stored. cbn [Agent.memory].
    change (ReplayBuffer.add (Agent.memory a) (ReplayBuffer.state e)
              (ReplayBuffer.action e) (ReplayBuffer.reward e)
              (ReplayBuffer.next_state e) (ReplayBuffer.done e))
      with (add_exp (Agent.memory a) e).
    rewrite add_exp_items, Hmax, length_app. fold (agent_items a). rewrite Hlen.
    cbn [length]. unfold BUFFER_SIZE.
    destruct (Z.ltb_spec 100000 (Z.of_nat (k + 1))); [lia | reflexivity]. }
  assert (Hstep : (Agent.t_step a + 1) mod UPDATE_EVERY = Z.of_nat (S k) mod UPDATE_EVERY).
  { rewrite Ht, Nat2Z.inj_succ. unfold UPDATE_EVERY.
    rewrite Z.add_mod_idemp_l by lia. f_equal. }
  split; [| split; [| exact Hitems]].
  - unfold step_exp. apply step_silent. intros [H1 H2].
    change (ReplayBuffer.len (ReplayBuffer.add (Agent.memory a) (ReplayBuffer.state e)
              (ReplayBuffer.action e) (ReplayBuffer.reward e)
              (ReplayBuffer.next_state e) (ReplayBuffer.done e)))
      with (Z.of_nat (length (agent_items (stored_exp a e)))) in H2.
    rewrite Hitems, length_app, Hlen in H2. cbn [length] in H2.
    rewrite Hstep in H1. unfold UPDATE_EVERY, BATCH_SIZE in *.
    apply Z.mod_divide in H1; [| lia]. destruct H1 as [c Hc]. lia.
  - unfold quiet. repeat split.
    + unfold stored_exp, stored. cbn [Agent.memory]. exact Hmax.
    + unfold stored_exp, stored. cbn [Agent.memory]. exact Hbatch.
    + rewrite Hitems, length_app, Hlen. cbn [length]. lia.
    + unfold stored_exp, stored. cbn [Agent.t_step]. exact Hstep.
Qed.

Lemma quiet_run (es : list ReplayBuffer.Experience) (k : nat) (a : Agent.t) (w : World) :
  quiet k a -> (k + length es <= 67)%nat ->
  exists a', run a es w = (Ok a', w)
             /\ quiet (k + length es) a'
             /\ agent_items a' = agent_items a ++ es.
Proof.
  revert k a. induction es as [| e es IH]; intros k a Hq Hk.
  - exists a. cbn [run length]. rewrite Nat.add_0_r, app_nil_r. auto.
  - cbn [length] in Hk.
    destruct (quiet_step e w Hq) as (Hs & Hq' & Hi); [lia |].
    destruct (IH (S k) (stored_exp a e) Hq') as (a' & Hr & Hq'' & Hi'); [lia |].
    exists a'. cbn [run length]. unfold bind. rewrite Hs, Hr.
    split; [reflexivity |]. split.
    + now replace (k + S (length es))%nat with (S k + length es)%nat by lia.
    + rewrite Hi', Hi, <- app_assoc. reflexivity.
Qed.
End FirstLearning.

Section FirstLearningStep.
Context {RT : Runtime} {SL : SamplerLaws RT}.






End FirstLearningStep.

(** * Further properties *)

(** ** The replay buffer *)

Lemma count_event_app (e : event) (a b : list event) :
  count_event e (a ++ b) = (count_event e a + count_event e b)%nat.
Proof. unfold count_event. now rewrite filter_app, length_app. Qed.

(** An outcome is determined by its result and the three components of
    the interpreter state. *)
Lemma outcome_eq {RT : Runtime} {A} (out : result A * World) (r : result A)
    (g : rng) (t : gen) (tr : list event) :
  fst out = r -> py_random (snd out) = g -> torch_gen (snd out) = t ->
  trace (snd out) = tr ->
  out = (r, {| py_random := g; torch_gen := t; trace := tr |}).
Proof. destruct out as [r0 [g0 t0 tr0]]. cbn. now intros -> -> -> ->. Qed.

Lemma stack_nil : stack [] = Raise empty_stack.
Proof. reflexivity. Qed.

(** The batch [stack] returns is made of the experiences, column by
    column, and these are rectangular. *)
Lemma stack_returns (exps : list ReplayBuffer.Experience) (batch : ReplayBuffer.batch) :
  stack exps = Ok batch ->
  batch = batch_of exps
  /\ exps <> []
  /\ exists n m, forallb (fun e => Nat.eqb (length (ReplayBuffer.state e)) n
                                   && Nat.eqb (length (ReplayBuffer.next_state e)) m)
                         exps = true.
Proof.
  destruct exps as [| e exps]; [discriminate |].
  unfold stack, np_vstack, np_vstack_scalars. cbn [map].
  destruct (forallb _ (map ReplayBuffer.state exps)) eqn:Hs; [| discriminate].
  destruct (forallb _ (map ReplayBuffer.next_state exps)) eqn:Hn; [| discriminate].
  intros [= <-]. split; [reflexivity |]. split; [discriminate |].
  exists (length (ReplayBuffer.state e)), (length (ReplayBuffer.next_state e)).
  cbn [forallb]. rewrite !Nat.eqb_refl. cbn [andb].
  rewrite forallb_forall in *. intros x Hx.
  rewrite (Hs (ReplayBuffer.state x)), (Hn (ReplayBuffer.next_state x));
    [reflexivity | now apply in_map | now apply in_map].
Qed.

Lemma stack_ok (n m : nat) (exps : list ReplayBuffer.Experience) :
  exps <> [] ->
  forallb (fun e => Nat.eqb (length (ReplayBuffer.state e)) n
                    && Nat.eqb (length (ReplayBuffer.next_state e)) m) exps = true ->
  stack exps = Ok (batch_of exps).
Proof.
  intros Hne Hall.
  assert (Hmap : forall A (f : ReplayBuffer.Experience -> A), map f exps <> []).
  { intros A f. destruct exps; [contradiction | discriminate]. }
  rewrite forallb_forall in Hall.
  unfold stack.
  rewrite (@np_vstack_ok _ n (map ReplayBuffer.state exps)).
  2: apply Hmap.
  2: { apply Forall_map, Forall_forall. intros e He.
       specialize (Hall e He). apply andb_prop in Hall as [H _]. now apply Nat.eqb_eq. }
  rewrite (@np_vstack_ok _ m (map ReplayBuffer.next_state exps)).
  2: apply Hmap.
  2: { apply Forall_map, Forall_forall. intros e He.
       specialize (Hall e He). apply andb_prop in Hall as [_ H]. now apply Nat.eqb_eq. }
  rewrite !np_vstack_scalars_ok by apply Hmap.
  reflexivity.
Qed.

Section BufferFacts.
Context {RT : Runtime}.

(** [sample], once the size test of [random.sample] has passed: one
    draw, then the stacking. *)
Lemma sample_draw (b : ReplayBuffer.t) (w : World) :
  0 <= ReplayBuffer.batch_size b <= ReplayBuffer.len b ->
  ReplayBuffer.sample b w =
  (stack (fst (random_sample (py_random w)
                 (ReplayBuffer.items (ReplayBuffer.memory b))
                 (Z.to_nat (ReplayBuffer.batch_size b)))),
   {| py_random := snd (random_sample (py_random w)
                          (ReplayBuffer.items (ReplayBuffer.memory b))
                          (Z.to_nat (ReplayBuffer.batch_size b)));
      torch_gen := torch_gen w;
      trace := trace w ++ [EvSample] |}).
Proof.
  intros [H0 Hle]. unfold ReplayBuffer.len in Hle.
  unfold ReplayBuffer.sample, ReplayBuffer.py_sample.
  unfold bind at 1. cbn [emit].
  destruct (Z.leb_spec 0 (ReplayBuffer.batch_size b)); [| lia].
  destruct (Z.leb_spec (ReplayBuffer.batch_size b)
              (Z.of_nat (length (ReplayBuffer.items (ReplayBuffer.memory b)))));
    [| lia].
  cbn [andb]. unfold bind at 1. unfold with_random at 1. cbn [py_random torch_gen trace].
  destruct (random_sample _ _ _) as [exps g]. cbn [fst snd].
  unfold stack, bind, lift, ret.
  destruct (np_vstack (map ReplayBuffer.state exps)); [| reflexivity].
  destruct (np_vstack_scalars (map ReplayBuffer.action exps)); [| reflexivity].
  destruct (np_vstack_scalars (map ReplayBuffer.reward exps)); [| reflexivity].
  destruct (np_vstack (map ReplayBuffer.next_state exps)); [| reflexivity].
  destruct (np_vstack_scalars (map ReplayBuffer.done exps)); reflexivity.
Qed.

Lemma sample_refused (b : ReplayBuffer.t) (w : World) :
  ~ (0 <= ReplayBuffer.batch_size b <= ReplayBuffer.len b) ->
  ReplayBuffer.sample b w =
  (Raise sample_too_large, record_events w [EvSample]).
Proof.
  intros H. unfold ReplayBuffer.len in H.
  unfold ReplayBuffer.sample, ReplayBuffer.py_sample.
  unfold bind at 1. cbn [emit]. unfold bind at 1.
  destruct (Z.leb_spec 0 (ReplayBuffer.batch_size b));
    destruct (Z.leb_spec (ReplayBuffer.batch_size b)
                (Z.of_nat (length (ReplayBuffer.items (ReplayBuffer.memory b)))));
    try reflexivity.
  lia.
Qed.

(** X1.  The occupancy of a buffer built with capacity [buffer_size]
    after [n] calls of [add] is the smaller of [n] and [buffer_size]:
    it grows by one per call until the buffer is full and stays there. *)
Theorem len_after_adds (action_size : nat) (buffer_size batch_size seed : Z)
    (w w' : World) (b : ReplayBuffer.t) (es : list ReplayBuffer.Experience) :
  ReplayBuffer.init action_size buffer_size batch_size seed w = (Ok b, w') ->
  ReplayBuffer.len (fold_left add_exp es b) = Z.min (Z.of_nat (length es)) buffer_size.
Proof.
  unfold ReplayBuffer.init. destruct (Z.ltb_spec buffer_size 0) as [Hneg | Hpos].
  { discriminate. }
  intros [= <- _].
  match goal with |- context [fold_left add_exp es ?b0] => set (b := b0) end.
  destruct (adds_items es b) as [_ Hitems]; [exact Hpos | cbn; lia |].
  cbn [b ReplayBuffer.memory ReplayBuffer.maxlen ReplayBuffer.items app] in Hitems.
  unfold ReplayBuffer.len. rewrite Hitems, length_lastn. lia.
Qed.

(** X2.  [sample] raises the [ValueError] of [random.sample] exactly
    when the batch size is negative or exceeds the occupancy; it has no
    other way to raise that exception. *)
Theorem sample_too_large_iff (b : ReplayBuffer.t) (w : World) :
  fst (ReplayBuffer.sample b w) = Raise sample_too_large
  <-> ~ (0 <= ReplayBuffer.batch_size b <= ReplayBuffer.len b).
Proof.
  split.
  - intros H Hin. rewrite sample_draw in H by exact Hin. cbn [fst] in H.
    unfold stack in H.
    repeat match type of H with
    | match ?r with _ => _ end = _ =>
        let E := fresh "E" in
        destruct r eqn:E;
        [| injection H as ->;
           first [ apply (@result_in_vstack (fun e => e <> sample_too_large)) in E
                 | apply (@result_in_vstack_scalars (fun e => e <> sample_too_large)) in E ];
           solve [ exn_neq | now apply E ] ]
    end.
    discriminate.
  - intros H. now rewrite sample_refused.
Qed.
End BufferFacts.

Lemma len_after_adds_witness :
  let b := {| ReplayBuffer.action_size := 2;
              ReplayBuffer.memory :=
                {| ReplayBuffer.items := []; ReplayBuffer.maxlen := 3 |};
              ReplayBuffer.batch_size := 2 |} in
  let es := map tagged [1; 2; 3; 4; 5] in
  ReplayBuffer.init 2 3 2 0 (Scripted.world []) = (Ok b, Scripted.world [])
  /\ ReplayBuffer.len (fold_left add_exp es b) = Z.min (Z.of_nat (length es)) 3.
Proof.
  intros b es. split; [reflexivity |].
  apply (@len_after_adds Scripted.runtime 2%nat 3 2 0
           (Scripted.world []) (Scripted.world []) b es).
  reflexivity.
Defined.

Lemma sample_too_large_iff_witness :
  let b := {| ReplayBuffer.action_size := 2;
              ReplayBuffer.memory :=
                {| ReplayBuffer.items := map synthetic [1; 2; 3];
                   ReplayBuffer.maxlen := 5 |};
              ReplayBuffer.batch_size := 4 |} in
  ~ (0 <= ReplayBuffer.batch_size b <= ReplayBuffer.len b)
  /\ fst (ReplayBuffer.sample b (Scripted.world [])) = Raise sample_too_large.
Proof.
  intros b.
  assert (H : ~ (0 <= ReplayBuffer.batch_size b <= ReplayBuffer.len b)).
  { intros [_ H]. apply H. reflexivity. }
  split; [exact H |].
  exact (proj2 (@sample_too_large_iff Scripted.runtime b (Scripted.world [])) H).
Defined.

Section SampleFacts.
Context {RT : Runtime} {SL : SamplerLaws RT}.

(** X3.  With a batch size of 0 [sample] always raises: [random.sample]
    accepts [k = 0] and returns no experience, and [np.vstack] of an
    empty list is a [ValueError]. *)
Theorem sample_zero_batch (b : ReplayBuffer.t) (w : World) :
  ReplayBuffer.batch_size b = 0 ->
  fst (ReplayBuffer.sample b w) = Raise empty_stack
  /\ exn_class empty_stack = "ValueError".
Proof.
  intros Hk. split; [| reflexivity].
  rewrite sample_draw by (unfold ReplayBuffer.len; lia).
  cbn [fst]. rewrite Hk.
  pose proof (random_sample_length (py_random w)
                (ReplayBuffer.items (ReplayBuffer.memory b)) (k := Z.to_nat 0)) as Hlen.
  destruct (fst (random_sample _ _ _)) as [| e exps]; [reflexivity |].
  cbn in Hlen. specialize (Hlen ltac:(lia)). discriminate.
Qed.

(** X4.  Whenever [sample] returns, its five columns are built from
    one list of [batch_size] experiences of the buffer, the same for
    every column, so that row [i] of each column comes from the same
    transition; the states have one length and the next states have one
    length; floats are cast to binary32 and done flags to [0.0] or
    [1.0].  The call records itself, draws from Python's generator and
    leaves torch's generator alone. *)
Theorem sample_returns_aligned (b : ReplayBuffer.t) (w w' : World)
    (batch : ReplayBuffer.batch) :
  ReplayBuffer.sample b w = (Ok batch, w') ->
  exists exps,
    batch = batch_of exps
    /\ 0 < ReplayBuffer.batch_size b <= ReplayBuffer.len b
    /\ length exps = Z.to_nat (ReplayBuffer.batch_size b)
    /\ incl exps (ReplayBuffer.items (ReplayBuffer.memory b))
    /\ (exists n m,
          forallb (fun e => Nat.eqb (length (ReplayBuffer.state e)) n
                            && Nat.eqb (length (ReplayBuffer.next_state e)) m)
                  exps = true)
    /\ torch_gen w' = torch_gen w
    /\ trace w' = trace w ++ [EvSample].
Proof.
  intros H.
  assert (Hin : 0 <= ReplayBuffer.batch_size b <= ReplayBuffer.len b).
  { destruct (Z.le_gt_cases 0 (ReplayBuffer.batch_size b)) as [H0 | H0];
      [destruct (Z.le_gt_cases (ReplayBuffer.batch_size b) (ReplayBuffer.len b))
         as [H1 | H1]; [now split |] |];
      rewrite sample_refused in H by lia; discriminate. }
  rewrite sample_draw in H by exact Hin.
  pose proof (random_sample_length (py_random w)
                (ReplayBuffer.items (ReplayBuffer.memory b))
                (k := Z.to_nat (ReplayBuffer.batch_size b))) as Hlen.
  pose proof (random_sample_incl (py_random w)
                (ReplayBuffer.items (ReplayBuffer.memory b))
                (Z.to_nat (ReplayBuffer.batch_size b))) as Hincl.
  specialize (Hlen ltac:(unfold ReplayBuffer.len in Hin; lia)).
  destruct (random_sample _ _ _) as [exps g]. cbn [fst snd] in *.
  injection H as Hstack <-.
  apply stack_returns in Hstack as (-> & Hne & Hrect).
  exists exps. split; [reflexivity |]. split.
  - split; [| apply Hin].
    destruct exps; [contradiction |]. cbn [length] in Hlen. lia.
  - repeat split; auto.
Qed.

(** X5.  On a buffer that holds at least [batch_size > 0] transitions
    whose states all have [n] components and next states [m], and
    whose actions all fit in 64 bits, [sample] returns; every action of
    the batch fits in 64 bits, so the cast of the action column to
    [long] has changed none. *)
Theorem sample_succeeds (n m : nat) (b : ReplayBuffer.t) (w : World) :
  0 < ReplayBuffer.batch_size b <= ReplayBuffer.len b ->
  forallb (fun e => Nat.eqb (length (ReplayBuffer.state e)) n
                    && Nat.eqb (length (ReplayBuffer.next_state e)) m)
          (ReplayBuffer.items (ReplayBuffer.memory b)) = true ->
  forallb (fun e => is_int64 (ReplayBuffer.action e))
          (ReplayBuffer.items (ReplayBuffer.memory b)) = true ->
  exists exps w',
    ReplayBuffer.sample b w = (Ok (batch_of exps), w')
    /\ length exps = Z.to_nat (ReplayBuffer.batch_size b)
    /\ forallb is_int64 (map ReplayBuffer.action exps) = true.
Proof.
  intros [Hpos Hle] Hall Hint.
  rewrite sample_draw by lia.
  pose proof (random_sample_length (py_random w)
                (ReplayBuffer.items (ReplayBuffer.memory b))
                (k := Z.to_nat (ReplayBuffer.batch_size b))) as Hlen.
  pose proof (random_sample_incl (py_random w)
                (ReplayBuffer.items (ReplayBuffer.memory b))
                (Z.to_nat (ReplayBuffer.batch_size b))) as Hincl.
  specialize (Hlen ltac:(unfold ReplayBuffer.len in Hle; lia)).
  destruct (random_sample _ _ _) as [exps g]. cbn [fst snd] in *.
  exists exps. eexists. split; [| split; [exact Hlen |]].
  - rewrite (@stack_ok n m); [reflexivity | |].
    + intros ->. cbn in Hlen. lia.
    + rewrite forallb_forall in *. intros e He. apply Hall, Hincl, He.
  - rewrite forallb_forall in *. intros a Ha.
    apply in_map_iff in Ha as (e & <- & He). apply Hint, Hincl, He.
Qed.
End SampleFacts.

Lemma sample_succeeds_witness :
  let b := {| ReplayBuffer.action_size := 2;
              ReplayBuffer.memory :=
                {| ReplayBuffer.items := map synthetic [1; 2; 3];
                   ReplayBuffer.maxlen := 5 |};
              ReplayBuffer.batch_size := 2 |} in
  let w := Scripted.world [] in
  0 < ReplayBuffer.batch_size b <= ReplayBuffer.len b
  /\ forallb (fun e => Nat.eqb (length (ReplayBuffer.state e)) 4
                       && Nat.eqb (length (ReplayBuffer.next_state e)) 4)
             (ReplayBuffer.items (ReplayBuffer.memory b)) = true
  /\ forallb (fun e => is_int64 (ReplayBuffer.action e))
             (ReplayBuffer.items (ReplayBuffer.memory b)) = true
  /\ exists exps w',
       ReplayBuffer.sample b w = (Ok (batch_of exps), w')
       /\ length exps = Z.to_nat (ReplayBuffer.batch_size b)
       /\ forallb is_int64 (map ReplayBuffer.action exps) = true.
Proof.
  intros b w.
  assert (H1 : 0 < ReplayBuffer.batch_size b <= ReplayBuffer.len b)
    by (split; [reflexivity | discriminate]).
  assert (H2 : forallb (fun e => Nat.eqb (length (ReplayBuffer.state e)) 4
                                 && Nat.eqb (length (ReplayBuffer.next_state e)) 4)
                 (ReplayBuffer.items (ReplayBuffer.memory b)) = true) by reflexivity.
  assert (H3 : forallb (fun e => is_int64 (ReplayBuffer.action e))
                 (ReplayBuffer.items (ReplayBuffer.memory b)) = true) by reflexivity.
  split; [exact H1 |]. split; [exact H2 |]. split; [exact H3 |].
  exact (@sample_succeeds Scripted.runtime Scripted_sampler_laws 4%nat 4%nat b w
           H1 H2 H3).
Defined.

Lemma sample_zero_batch_witness :
  let b := {| ReplayBuffer.action_size := 2;
              ReplayBuffer.memory :=
                {| ReplayBuffer.items := map synthetic [1; 2; 3];
                   ReplayBuffer.maxlen := 5 |};
              ReplayBuffer.batch_size := 0 |} in
  ReplayBuffer.batch_size b = 0
  /\ fst (ReplayBuffer.sample b (Scripted.world [])) = Raise empty_stack.
Proof.
  intros b. split; [reflexivity |].
  apply (@sample_zero_batch Scripted.runtime Scripted_sampler_laws b (Scripted.world [])).
  reflexivity.
Defined.

Lemma sample_returns_aligned_witness :
  let b := {| ReplayBuffer.action_size := 2;
              ReplayBuffer.memory :=
                {| ReplayBuffer.items := map synthetic [1; 2; 3];
                   ReplayBuffer.maxlen := 5 |};
              ReplayBuffer.batch_size := 2 |} in
  let w := Scripted.world [] in
  let batch := batch_of (map synthetic [1; 2]) in
  let w' := {| py_random := []; torch_gen := tt; trace := [EvSample] |} in
  ReplayBuffer.sample b w = (Ok batch, w')
  /\ exists exps,
       batch = batch_of exps
       /\ length exps = Z.to_nat (ReplayBuffer.batch_size b)
       /\ incl exps (ReplayBuffer.items (ReplayBuffer.memory b)).
Proof.
  intros b w batch w'.
  assert (H : ReplayBuffer.sample b w = (Ok batch, w')) by reflexivity.
  split; [exact H |].
  destruct (@sample_returns_aligned Scripted.runtime Scripted_sampler_laws b w w' batch H)
    as (exps & H1 & _ & H3 & H4 & _).
  exists exps. split; [exact H1 |]. split; [exact H3 | exact H4].
Defined.

(** ** The network *)

#[global] Instance Scripted_generator_laws : GeneratorLaws Scripted.runtime.
Proof. split. intros g numel fan_in. apply repeat_length. Qed.

#[global] Instance Scripted_choice_laws : ChoiceLaws Scripted.runtime.
Proof. split. intros g n Hn. cbn. lia. Qed.

Section NetworkFacts.
Context {RT : Runtime}.

Lemma length_leaky_relu (x : tensor2) : length (QNetwork.leaky_relu x) = length x.
Proof. apply length_map. Qed.

Lemma apply_Linear_shape (l : QNetwork.Linear) (x : tensor2) :
  rows_of (QNetwork.in_features l) x = true ->
  exists q, QNetwork.apply_Linear l x = Ok q
            /\ length q = length x
            /\ rows_of (QNetwork.out_features l) q = true.
Proof.
  intros H. unfold QNetwork.apply_Linear. unfold rows_of in H. rewrite H.
  eexists. split; [reflexivity |]. split; [apply length_map |].
  unfold rows_of. rewrite forallb_forall. intros row Hrow.
  apply in_map_iff in Hrow as [r [<- _]].
  rewrite length_map, length_seq. apply Nat.eqb_refl.
Qed.

Lemma forward_shape_ok (net : QNetwork.t) (i o : nat) (x : tensor2) :
  arch_ok net i o = true -> rows_of i x = true ->
  exists q, QNetwork.forward net x = Ok q
            /\ length q = length x /\ rows_of o q = true.
Proof.
  unfold arch_ok. intros Ha Hx.
  repeat (apply andb_prop in Ha as [Ha ?]).
  repeat match goal with H : Nat.eqb _ _ = true |- _ => apply Nat.eqb_eq in H end.
  unfold QNetwork.forward.
  destruct (apply_Linear_shape (QNetwork.fc1 net) x) as (q1 & -> & Hl1 & Hq1);
    [congruence |].
  destruct (apply_Linear_shape (QNetwork.fc2 net) (QNetwork.leaky_relu q1))
    as (q2 & -> & Hl2 & Hq2); [rewrite rows_of_leaky_relu; congruence |].
  destruct (apply_Linear_shape (QNetwork.fc3 net) (QNetwork.leaky_relu q2))
    as (q3 & -> & Hl3 & Hq3); [rewrite rows_of_leaky_relu; congruence |].
  destruct (apply_Linear_shape (QNetwork.fc4 net) (QNetwork.leaky_relu q3))
    as (q4 & -> & Hl4 & Hq4); [rewrite rows_of_leaky_relu; congruence |].
  exists q4. split; [reflexivity |]. split; [| congruence].
  rewrite Hl4, length_leaky_relu, Hl3, length_leaky_relu, Hl2, length_leaky_relu.
  exact Hl1.
Qed.

Lemma forward_refuses (net : QNetwork.t) (x : tensor2) :
  rows_of (QNetwork.in_features (QNetwork.fc1 net)) x = false ->
  QNetwork.forward net x = Raise matmul_shapes.
Proof.
  intros H. unfold QNetwork.forward, QNetwork.apply_Linear. unfold rows_of in H.
  now rewrite H.
Qed.

(** The network a constructor call returns has the layer widths of the
    source. *)
Lemma init_layers (state_size action_size : nat) (seed : Z) (w w' : World)
    (net : QNetwork.t) :
  QNetwork.init state_size action_size seed w = (Ok net, w') ->
  arch_ok net state_size action_size = true
  /\ map QNetwork.out_features
       [QNetwork.fc1 net; QNetwork.fc2 net; QNetwork.fc3 net; QNetwork.fc4 net] =
     [256; 128; 64; action_size]%nat.
Proof.
  unfold QNetwork.init, QNetwork.manual_seed, QNetwork.nn_Linear.
  destruct ((- 2 ^ 63 <=? seed) && (seed <? 2 ^ 64)); [| discriminate].
  unfold bind, with_gen, ret. cbn [torch_gen py_random trace].
  repeat (match goal with
          | |- context [uniform_ ?g ?n ?f] =>
              let t := fresh "t" in let g' := fresh "g" in
              destruct (uniform_ g n f) as [t g']
          end; cbn [torch_gen py_random trace]).
  intros [= <- _]. unfold arch_ok. cbn. rewrite !Nat.eqb_refl. split; reflexivity.
Qed.

(** The constructor returns for every seed [torch.manual_seed]
    accepts. *)
Lemma qnetwork_init_returns (state_size action_size : nat) (seed : Z) (w : World) :
  - 2 ^ 63 <= seed < 2 ^ 64 ->
  exists net w', QNetwork.init state_size action_size seed w = (Ok net, w').
Proof.
  intros [Hlo Hhi]. apply Z.leb_le in Hlo. apply Z.ltb_lt in Hhi.
  unfold QNetwork.init, QNetwork.manual_seed, QNetwork.nn_Linear.
  rewrite Hlo, Hhi. cbn [andb].
  unfold bind, with_gen, ret. cbn [torch_gen py_random trace].
  repeat (match goal with
          | |- context [uniform_ ?g ?n ?f] =>
              let t := fresh "t" in let g' := fresh "g" in
              destruct (uniform_ g n f) as [t g']
          end; cbn [torch_gen py_random trace]).
  eexists. eexists. reflexivity.
Qed.

(** X6.  The network [QNetwork(state_size, action_size, seed)] maps a
    batch of [k] rows of [state_size] components to [k] rows of
    [action_size] action values, and raises the [RuntimeError] of the
    matrix product on a batch with a row of another length. *)
Theorem forward_shape (state_size action_size : nat) (seed : Z) (w w' : World)
    (net : QNetwork.t) (x : tensor2) :
  QNetwork.init state_size action_size seed w = (Ok net, w') ->
  (rows_of state_size x = true ->
     exists q, QNetwork.forward net x = Ok q
               /\ length q = length x /\ rows_of action_size q = true)
  /\ (rows_of state_size x = false -> QNetwork.forward net x = Raise matmul_shapes).
Proof.
  intros Hinit. apply init_layers in Hinit as [Harch _]. split.
  - now apply forward_shape_ok.
  - intros Hx. apply forward_refuses.
    unfold arch_ok in Harch. repeat (apply andb_prop in Harch as [Harch ?]).
    apply Nat.eqb_eq in Harch. now rewrite Harch.
Qed.

(** X7.  The network has eight parameter tensors, weight then bias for
    each of the four layers, with [256 * state_size], 256, [128 * 256],
    128, [64 * 128], 64, [action_size * 64] and [action_size] elements. *)
Theorem init_parameter_shapes {GL : GeneratorLaws RT} (state_size action_size : nat)
    (seed : Z) (w w' : World) (net : QNetwork.t) :
  QNetwork.init state_size action_size seed w = (Ok net, w') ->
  map (@length F32.t) (QNetwork.parameters net) =
  [256 * state_size; 256; 128 * 256; 128; 64 * 128; 64; action_size * 64; action_size]%nat.
Proof.
  unfold QNetwork.init, QNetwork.manual_seed, QNetwork.nn_Linear.
  destruct ((- 2 ^ 63 <=? seed) && (seed <? 2 ^ 64)); [| discriminate].
  unfold bind, with_gen, ret. cbn [torch_gen py_random trace].
  repeat (match goal with
          | |- context [uniform_ ?g ?n ?f] =>
              let t := fresh "t" in let g' := fresh "g" in
              let E := fresh "E" in
              pose proof (uniform_length g n f) as E;
              destruct (uniform_ g n f) as [t g']; cbn [fst] in E
          end; cbn [torch_gen py_random trace]).
  intros [= <- _]. unfold QNetwork.parameters. cbn [map QNetwork.fc1 QNetwork.fc2
    QNetwork.fc3 QNetwork.fc4 QNetwork.weight QNetwork.bias].
  congruence.
Qed.
End NetworkFacts.

Lemma forward_shape_witness :
  let w := Scripted.world [] in
  let x := [map F32.of_Z [1; 2; 3; 4]; map F32.of_Z [5; 6; 7; 8]] in
  exists net w',
    QNetwork.init 4 2 0 w = (Ok net, w')
    /\ rows_of 4 x = true
    /\ exists q, QNetwork.forward net x = Ok q
                 /\ length q = length x /\ rows_of 2 q = true.
Proof.
  intros w x.
  destruct (@qnetwork_init_returns Scripted.runtime 4%nat 2%nat 0 w) as (net & w' & Hinit).
  { split; [discriminate | reflexivity]. }
  exists net, w'. split; [exact Hinit |]. split; [reflexivity |].
  apply (proj1 (@forward_shape Scripted.runtime 4%nat 2%nat 0 w w' net x Hinit)).
  reflexivity.
Defined.

Lemma init_parameter_shapes_witness :
  let w := Scripted.world [] in
  exists net w',
    QNetwork.init 4 2 0 w = (Ok net, w')
    /\ map (@length F32.t) (QNetwork.parameters net) =
       [256 * 4; 256; 128 * 256; 128; 64 * 128; 64; 2 * 64; 2]%nat.
Proof.
  intros w.
  destruct (@qnetwork_init_returns Scripted.runtime 4%nat 2%nat 0 w) as (net & w' & Hinit).
  { split; [discriminate | reflexivity]. }
  exists net, w'. split; [exact Hinit |].
  exact (@init_parameter_shapes Scripted.runtime Scripted_generator_laws
           4%nat 2%nat 0 w w' net Hinit).
Defined.

(** ** What learning leaves alone *)

Section LearnFrame.
Context {RT : Runtime}.

Lemma epoch_update_frame states actions y (self : Agent.t) :
  Agent.memory (epoch_update states actions y self) = Agent.memory self
  /\ Agent.t_step (epoch_update states actions y self) = Agent.t_step self
  /\ Agent.state_size (epoch_update states actions y self) = Agent.state_size self
  /\ Agent.action_size (epoch_update states actions y self) = Agent.action_size self
  /\ (forall i o, arch_ok (Agent.qnetwork_local (epoch_update states actions y self)) i o
                  = arch_ok (Agent.qnetwork_local self) i o)
  /\ (forall i o, arch_ok (Agent.qnetwork_target (epoch_update states actions y self)) i o
                  = arch_ok (Agent.qnetwork_target self) i o).
Proof.
  unfold epoch_update. destruct (backward_step _ _ _ _ _) as [ps opt].
  split; [reflexivity |]. split; [reflexivity |]. split; [reflexivity |].
  split; [reflexivity |]. split; intros i o; reflexivity.
Qed.

Lemma epochs_frame states actions y (n : nat) (self : Agent.t) :
  let self' := Nat.iter n (epoch_update states actions y) self in
  Agent.memory self' = Agent.memory self
  /\ Agent.t_step self' = Agent.t_step self
  /\ Agent.state_size self' = Agent.state_size self
  /\ Agent.action_size self' = Agent.action_size self
  /\ (forall i o, arch_ok (Agent.qnetwork_local self') i o
                  = arch_ok (Agent.qnetwork_local self) i o)
  /\ (forall i o, arch_ok (Agent.qnetwork_target self') i o
                  = arch_ok (Agent.qnetwork_target self) i o).
Proof.
  cbv zeta. induction n as [| n IH].
  { split; [reflexivity |]. split; [reflexivity |]. split; [reflexivity |].
    split; [reflexivity |]. split; intros i o; reflexivity. }
  rewrite Nat.iter_succ.
  destruct (epoch_update_frame states actions y
              (Nat.iter n (epoch_update states actions y) self))
    as (H1 & H2 & H3 & H4 & H5 & H6).
  destruct IH as (I1 & I2 & I3 & I4 & I5 & I6).
  split; [congruence |]. split; [congruence |]. split; [congruence |].
  split; [congruence |]. split; intros i o; [now rewrite H5 | now rewrite H6].
Qed.

(** Whenever [learn] returns, it has recorded [learn_events] and left
    everything but the parameters and the optimizer alone. *)
Lemma learn_returns (self self' : Agent.t) (experiences : ReplayBuffer.batch)
    (gamma : F64.t) (w w' : World) :
  Agent.learn self experiences gamma w = (Ok self', w') ->
  w' = record_events w learn_events
  /\ Agent.memory self' = Agent.memory self
  /\ Agent.t_step self' = Agent.t_step self
  /\ Agent.state_size self' = Agent.state_size self
  /\ Agent.action_size self' = Agent.action_size self
  /\ (forall i o, arch_ok (Agent.qnetwork_local self') i o
                  = arch_ok (Agent.qnetwork_local self) i o)
  /\ (forall i o, arch_ok (Agent.qnetwork_target self') i o
                  = arch_ok (Agent.qnetwork_target self) i o).
Proof.
  destruct experiences as [[[[states actions] rewards] next_states] dones].
  unfold Agent.learn.
  unfold bind at 1. cbn [emit]. unfold bind at 1. cbn [emit].
  unfold bind at 1. unfold lift at 1.
  destruct (QNetwork.forward _ _) as [q_next | e]; [| discriminate].
  unfold bind at 1. unfold lift at 1.
  destruct (traverse row_max q_next) as [Qsa_max | e]; [| discriminate].
  intros H. apply for_range_returns in H as [-> ->]. split; [| apply epochs_frame].
  unfold record_events, learn_events. cbn [py_random torch_gen trace].
  now rewrite <- !app_assoc.
Qed.

(** X8.  Whenever [learn] returns, the replay buffer, the step counter
    and the agent's dimensions are as before, and so are the layer
    widths of both networks: learning changes parameter values and
    optimizer state only.  It draws from neither random generator, and
    the calls it made are one target evaluation followed by ten rounds
    of local evaluation, optimizer step and soft update. *)
Theorem learn_frame (self self' : Agent.t) (experiences : ReplayBuffer.batch)
    (gamma : F64.t) (w w' : World) :
  Agent.learn self experiences gamma w = (Ok self', w') ->
  Agent.memory self' = Agent.memory self
  /\ Agent.t_step self' = Agent.t_step self
  /\ Agent.state_size self' = Agent.state_size self
  /\ Agent.action_size self' = Agent.action_size self
  /\ (forall i o, arch_ok (Agent.qnetwork_local self') i o
                  = arch_ok (Agent.qnetwork_local self) i o)
  /\ (forall i o, arch_ok (Agent.qnetwork_target self') i o
                  = arch_ok (Agent.qnetwork_target self) i o)
  /\ py_random w' = py_random w
  /\ torch_gen w' = torch_gen w
  /\ new_events w w' = learn_events.
Proof.
  intros H. apply learn_returns in H as (-> & H1 & H2 & H3 & H4 & H5 & H6).
  split; [exact H1 |]. split; [exact H2 |]. split; [exact H3 |]. split; [exact H4 |].
  split; [exact H5 |]. split; [exact H6 |]. split; [reflexivity |].
  split; [reflexivity |]. apply new_events_app. reflexivity.
Qed.
End LearnFrame.

Lemma learn_frame_witness :
  let net := Scripted.const_net 4 2 F32.zero in
  let self := Scripted.agent_of 4 2 net net in
  let row := map F32.of_Z [1; 2; 3; 4] in
  let w := Scripted.world [] in
  exists self' w',
    Agent.learn self ([row], [1], [F32.one], [row], [F32.zero]) GAMMA w = (Ok self', w')
    /\ Agent.memory self' = Agent.memory self
    /\ Agent.t_step self' = Agent.t_step self
    /\ new_events w w' = learn_events.
Proof.
  intros net self row w.
  assert (H1 : arch_ok net 4 2 = true) by reflexivity.
  assert (H2 : Agent.action_size self <> 0%nat) by discriminate.
  assert (H3 : rows_of 4 [row] = true) by reflexivity.
  assert (H4 : actions_in 2 [1] = true) by reflexivity.
  destruct (@learn_well_shaped Scripted.runtime self [row] [row] [1] [F32.one]
              [F32.zero] GAMMA w H1 H1 H2 H3 H3 H4) as (self' & w' & H).
  exists self', w'. split; [exact H |].
  destruct (@learn_frame Scripted.runtime self self'
              ([row], [1], [F32.one], [row], [F32.zero]) GAMMA w w' H)
    as (F1 & F2 & _ & _ & _ & _ & _ & _ & F9).
  split; [exact F1 |]. split; [exact F2 | exact F9].
Defined.

(** ** Steps and runs *)

Lemma forallb_tl {A} (f : A -> bool) (l : list A) :
  forallb f l = true -> forallb f (tl l) = true.
Proof.
  destruct l as [| x l]; [trivial |]. cbn. intros H.
  now apply andb_prop in H as [_ H].
Qed.

Lemma count_learn_events :
  count_event EvSample (EvSample :: learn_events) = 1%nat
  /\ count_event EvLearn (EvSample :: learn_events) = 1%nat
  /\ count_event (EvForward Target) (EvSample :: learn_events) = 1%nat
  /\ count_event (EvForward Local) (EvSample :: learn_events) = 10%nat
  /\ count_event EvOptimizerStep (EvSample :: learn_events) = 10%nat
  /\ count_event EvSoftUpdate (EvSample :: learn_events) = 10%nat.
Proof. repeat split. Qed.

Section StepFrame.
Context {RT : Runtime}.

(** Whenever [step] returns, the transition is stored and the counter
    advanced, whether or not the step learned. *)
Lemma step_returns (self self' : Agent.t) (s : list F64.t) (a : Z) (r : F64.t)
    (ns : list F64.t) (d : bool) (w w' : World) :
  Agent.step self s a r ns d w = (Ok self', w') ->
  Agent.memory self' = ReplayBuffer.add (Agent.memory self) s a r ns d
  /\ Agent.t_step self' = (Agent.t_step self + 1) mod UPDATE_EVERY
  /\ Agent.state_size self' = Agent.state_size self
  /\ Agent.action_size self' = Agent.action_size self
  /\ torch_gen w' = torch_gen w
  /\ (w' = w \/ trace w' = trace w ++ EvSample :: learn_events).
Proof.
  rewrite step_unfold.
  destruct (Agent.t_step (stored self s a r ns d) =? 0);
    [destruct (BATCH_SIZE <? ReplayBuffer.len (Agent.memory (stored self s a r ns d))) |];
    try (intros [= <- <-]; repeat split; now left).
  unfold episode, bind.
  destruct (ReplayBuffer.sample _ w) as [[batch | e] w1] eqn:Hs; [| discriminate].
  intros H. apply learn_returns in H as (-> & H1 & H2 & H3 & H4 & _).
  rewrite H1, H2, H3, H4.
  assert (Hw1 : torch_gen w1 = torch_gen w /\ trace w1 = trace w ++ [EvSample]).
  { unfold ReplayBuffer.sample, ReplayBuffer.py_sample in Hs.
    unfold bind at 1 in Hs. cbn [emit] in Hs. unfold bind at 1 in Hs.
    destruct ((0 <=? _) && (_ <=? _)); [| discriminate].
    unfold with_random at 1 in Hs. cbn [py_random torch_gen trace] in Hs.
    destruct (random_sample _ _ _) as [exps g].
    match type of Hs with
    | ?m ?w0 = _ =>
        assert (Hsnd : snd (m w0) = w0);
        [| rewrite Hs in Hsnd; cbn [snd] in Hsnd; subst w1; split; reflexivity]
    end.
    unfold bind, lift, ret.
    repeat match goal with
           | |- context [match ?r with Ok _ => _ | Raise _ => _ end] =>
               destruct r
           end; reflexivity. }
  destruct Hw1 as [Hg Ht].
  repeat split; [exact Hg |]. right.
  unfold record_events. cbn [trace]. rewrite Ht, <- app_assoc. reflexivity.
Qed.

(** X9.  Whenever [step] returns, the agent has the transition stored
    and the counter advanced modulo [UPDATE_EVERY], whether or not the
    step learned, and its dimensions are as before.  The step either
    left the interpreter state alone or recorded one call of [sample]
    followed by the calls of one [learn]; torch's generator is never
    drawn from. *)
Theorem step_stores (self self' : Agent.t) (s : list F64.t) (a : Z) (r : F64.t)
    (ns : list F64.t) (d : bool) (w w' : World) :
  Agent.step self s a r ns d w = (Ok self', w') ->
  Agent.memory self' = ReplayBuffer.add (Agent.memory self) s a r ns d
  /\ Agent.t_step self' = (Agent.t_step self + 1) mod UPDATE_EVERY
  /\ Agent.state_size self' = Agent.state_size self
  /\ Agent.action_size self' = Agent.action_size self
  /\ torch_gen w' = torch_gen w
  /\ (new_events w w' = [] \/ new_events w w' = EvSample :: learn_events).
Proof.
  intros H. apply step_returns in H as (H1 & H2 & H3 & H4 & H5 & H6).
  split; [exact H1 |]. split; [exact H2 |]. split; [exact H3 |]. split; [exact H4 |].
  split; [exact H5 |]. destruct H6 as [-> | H6].
  - left. apply new_events_same.
  - right. apply new_events_app, H6.
Qed.

Lemma run_returns (es : list ReplayBuffer.Experience) (self self' : Agent.t)
    (w w' : World) :
  run self es w = (Ok self', w') ->
  Agent.memory self' = fold_left add_exp es (Agent.memory self)
  /\ Agent.t_step self' =
     fold_left (fun t _ => (t + 1) mod UPDATE_EVERY) es (Agent.t_step self)
  /\ Agent.state_size self' = Agent.state_size self
  /\ Agent.action_size self' = Agent.action_size self.
Proof.
  revert self w. induction es as [| e es IH]; intros self w; cbn [run fold_left].
  - intros [= <- _]. repeat split.
  - unfold bind. destruct (step_exp self e w) as [[a1 | ex] w1] eqn:E; [| discriminate].
    unfold step_exp in E. apply step_returns in E as (E1 & E2 & E3 & E4 & _).
    intros H. apply IH in H as (H1 & H2 & H3 & H4).
    rewrite H1, H2, H3, H4, E1, E2, E3, E4. repeat split.
Qed.

Lemma counter_after (es : list ReplayBuffer.Experience) (t : Z) :
  0 <= t < UPDATE_EVERY ->
  fold_left (fun t _ => (t + 1) mod UPDATE_EVERY) es t =
  (t + Z.of_nat (length es)) mod UPDATE_EVERY.
Proof.
  revert t. induction es as [| e es IH]; intros t Ht; cbn [fold_left length].
  - rewrite Z.add_0_r, Z.mod_small; [reflexivity | exact Ht].
  - rewrite IH by (apply Z.mod_pos_bound; reflexivity).
    rewrite Z.add_mod_idemp_l by discriminate. f_equal. lia.
Qed.

(** X10.  Whenever a sequence of steps returns, the buffer has
    received every transition, in order, through [add], and the counter
    is the number of steps taken modulo [UPDATE_EVERY] (added to its
    initial value): learning in between changes neither. *)
Theorem run_stores_and_counts (es : list ReplayBuffer.Experience)
    (self self' : Agent.t) (w w' : World) :
  0 <= Agent.t_step self < UPDATE_EVERY ->
  run self es w = (Ok self', w') ->
  Agent.memory self' = fold_left add_exp es (Agent.memory self)
  /\ Agent.t_step self' = (Agent.t_step self + Z.of_nat (length es)) mod UPDATE_EVERY.
Proof.
  intros Ht H. apply run_returns in H as (H1 & H2 & _).
  split; [exact H1 |]. now rewrite H2, counter_after.
Qed.
End StepFrame.

Lemma step_stores_witness :
  let net := Scripted.const_net 4 2 F32.zero in
  let self := Scripted.agent_of 4 2 net net in
  let e := synthetic 1 in
  let w := Scripted.world [] in
  exists self' w',
    step_exp self e w = (Ok self', w')
    /\ Agent.memory self' = add_exp (Agent.memory self) e
    /\ Agent.t_step self' = (Agent.t_step self + 1) mod UPDATE_EVERY.
Proof.
  intros net self e w.
  assert (H : step_exp self e w = (Ok (stored_exp self e), w)).
  { apply step_silent. intros [H _]. discriminate H. }
  exists (stored_exp self e), w. split; [exact H |].
  destruct (@step_stores Scripted.runtime self (stored_exp self e)
              (ReplayBuffer.state e) (ReplayBuffer.action e) (ReplayBuffer.reward e)
              (ReplayBuffer.next_state e) (ReplayBuffer.done e) w w H)
    as (H1 & H2 & _).
  split; [exact H1 | exact H2].
Defined.

Lemma run_stores_and_counts_witness :
  let net := Scripted.const_net 4 2 F32.zero in
  let self := Scripted.agent_of 4 2 net net in
  let es := map synthetic [1; 2; 3; 4; 5] in
  let w := Scripted.world [] in
  0 <= Agent.t_step self < UPDATE_EVERY
  /\ exists self' w',
       run self es w = (Ok self', w')
       /\ Agent.memory self' = fold_left add_exp es (Agent.memory self)
       /\ Agent.t_step self' =
          (Agent.t_step self + Z.of_nat (length es)) mod UPDATE_EVERY.
Proof.
  intros net self es w.
  assert (Ht : 0 <= Agent.t_step self < UPDATE_EVERY)
    by (split; [discriminate | reflexivity]).
  split; [exact Ht |].
  destruct (@quiet_run Scripted.runtime es 0%nat self w) as (self' & Hr & _).
  { repeat split. }
  { cbn. lia. }
  exists self', w. split; [exact Hr |].
  exact (@run_stores_and_counts Scripted.runtime es self self' w w Ht Hr).
Defined.

(** ** Fit agents on fit transitions *)

Lemma exp_ok_dims (s a : nat) (e : ReplayBuffer.Experience) :
  exp_ok s a e = true ->
  length (ReplayBuffer.state e) = s
  /\ length (ReplayBuffer.next_state e) = s
  /\ (0 <=? ReplayBuffer.action e) && (ReplayBuffer.action e <? Z.of_nat a) = true.
Proof.
  unfold exp_ok, dims_ok. intros H.
  apply andb_prop in H as [H Ha]. apply andb_prop in H as [H1 H2].
  apply Nat.eqb_eq in H1. apply Nat.eqb_eq in H2. auto.
Qed.

(** The columns of a batch of fit experiences are well shaped. *)
Lemma batch_of_shapes (s a : nat) (exps : list ReplayBuffer.Experience) :
  forallb (exp_ok s a) exps = true ->
  rows_of s (map (map F32.of_f64) (map ReplayBuffer.state exps)) = true
  /\ rows_of s (map (map F32.of_f64) (map ReplayBuffer.next_state exps)) = true
  /\ actions_in a (map ReplayBuffer.action exps) = true.
Proof.
  unfold rows_of, actions_in. induction exps as [| e exps IH]; cbn [map forallb].
  - auto.
  - intros H. apply andb_prop in H as [He H].
    destruct (IH H) as (I1 & I2 & I3). rewrite I1, I2, I3.
    apply exp_ok_dims in He as (E1 & E2 & E3).
    rewrite !length_map, E1, E2, E3, Nat.eqb_refl. auto.
Qed.

Section FitRuns.
Context {RT : Runtime} {SL : SamplerLaws RT}.

(** On a well-shaped batch [learn] returns, having recorded
    [learn_events]. *)
Lemma learn_well_shaped_events (self : Agent.t) (states next_states : tensor2)
    (actions : list Z) (rewards dones : tensor) (gamma : F64.t) (w : World) :
  arch_ok (Agent.qnetwork_local self) (Agent.state_size self) (Agent.action_size self) = true ->
  arch_ok (Agent.qnetwork_target self) (Agent.state_size self) (Agent.action_size self) = true ->
  Agent.action_size self <> 0%nat ->
  rows_of (Agent.state_size self) states = true ->
  rows_of (Agent.state_size self) next_states = true ->
  actions_in (Agent.action_size self) actions = true ->
  exists self',
    Agent.learn self (states, actions, rewards, next_states, dones) gamma w =
    (Ok self', record_events w learn_events).
Proof.
  intros Hl Ht Ho Hs Hns Hact.
  destruct (forward_ok _ _ _ _ Ht Hns) as [q_next [Hq Hrows]].
  destruct (traverse_row_max_ok _ Ho Hrows) as [Qsa_max Hm].
  unfold Agent.learn.
  unfold bind at 1. cbn [emit]. unfold bind at 1. cbn [emit].
  unfold bind at 1. unfold lift at 1. rewrite Hq.
  unfold bind at 1. unfold lift at 1. rewrite Hm.
  unfold Agent.num_epoches.
  rewrite for_range_epochs
    with (i := Agent.state_size self) (o := Agent.action_size self) by assumption.
  eexists. f_equal. unfold record_events, learn_events.
  cbn [py_random torch_gen trace]. now rewrite <- !app_assoc.
Qed.

Lemma stored_well_formed (a : Agent.t) (e : ReplayBuffer.Experience) :
  well_formed a ->
  exp_ok (Agent.state_size a) (Agent.action_size a) e = true ->
  well_formed (stored_exp a e).
Proof.
  intros (Hl & Ht & Ho & Hmax & Hbatch & Hlen & Hitems) He.
  assert (Hi : agent_items (stored_exp a e) =
               if BUFFER_SIZE <? Z.of_nat (length (agent_items a ++ [e]))
               then tl (agent_items a ++ [e]) else agent_items a ++ [e]).
  { unfold agent_items, stored_exp, stored. cbn [Agent.memory].
    change (ReplayBuffer.add (Agent.memory a) (ReplayBuffer.state e)
              (ReplayBuffer.action e) (ReplayBuffer.reward e)
              (ReplayBuffer.next_state e) (ReplayBuffer.done e))
      with (add_exp (Agent.memory a) e).
    now rewrite add_exp_items, Hmax. }
  assert (Hall : forallb (exp_ok (Agent.state_size a) (Agent.action_size a))
                   (agent_items a ++ [e]) = true).
  { rewrite forallb_app, Hitems. cbn. now rewrite He. }
  unfold well_formed. repeat split; try assumption.
  - unfold ReplayBuffer.len. fold (agent_items (stored_exp a e)). rewrite Hi.
    unfold ReplayBuffer.len in Hlen. fold (agent_items a) in Hlen.
    destruct (Z.ltb_spec BUFFER_SIZE (Z.of_nat (length (agent_items a ++ [e]))))
      as [H | H]; [| exact H].
    rewrite length_app in H. cbn [length] in H.
    destruct (agent_items a ++ [e]) eqn:E.
    + cbn. unfold BUFFER_SIZE. lia.
    + apply (f_equal (@length _)) in E. rewrite length_app in E. cbn [length tl] in *. lia.
  - change (Agent.state_size (stored_exp a e)) with (Agent.state_size a).
    change (Agent.action_size (stored_exp a e)) with (Agent.action_size a).
    rewrite Hi. destruct (BUFFER_SIZE <? _); [now apply forallb_tl | exact Hall].
Qed.

(** The learning episode of a fit agent with more than [BATCH_SIZE]
    transitions returns a fit agent. *)
Lemma episode_well_formed (s : Agent.t) (w : World) :
  well_formed s -> BATCH_SIZE < ReplayBuffer.len (Agent.memory s) ->
  exists s' w',
    episode s w = (Ok s', w')
    /\ trace w' = trace w ++ EvSample :: learn_events
    /\ well_formed s'
    /\ Agent.memory s' = Agent.memory s
    /\ Agent.t_step s' = Agent.t_step s.
Proof.
  intros (Hl & Ht & Ho & Hmax & Hbatch & Hlen & Hitems) Hfull.
  unfold episode, bind.
  rewrite sample_draw by (rewrite Hbatch; unfold BATCH_SIZE in *; lia).
  pose proof (random_sample_length (py_random w) (agent_items s)
                (k := Z.to_nat (ReplayBuffer.batch_size (Agent.memory s)))) as Hk.
  pose proof (random_sample_incl (py_random w) (agent_items s)
                (Z.to_nat (ReplayBuffer.batch_size (Agent.memory s)))) as Hincl.
  unfold agent_items in Hk, Hincl.
  specialize (Hk ltac:(rewrite Hbatch; unfold ReplayBuffer.len, BATCH_SIZE in *; lia)).
  destruct (random_sample _ _ _) as [exps g]. cbn [fst snd] in *.
  assert (Hexps : forallb (exp_ok (Agent.state_size s) (Agent.action_size s)) exps = true).
  { rewrite forallb_forall in *. intros e He. apply Hitems, Hincl, He. }
  rewrite (@stack_ok (Agent.state_size s) (Agent.state_size s)).
  2: { intros ->. rewrite Hbatch in Hk. discriminate. }
  2: { rewrite forallb_forall in *. intros e He.
       destruct (exp_ok_dims _ _ _ (Hexps e He)) as (E1 & E2 & _).
       now rewrite E1, E2, Nat.eqb_refl. }
  destruct (batch_of_shapes _ _ _ Hexps) as (B1 & B2 & B3).
  unfold batch_of.
  match goal with
  | |- context [Agent.learn s ?b GAMMA ?w1] =>
      destruct (@learn_well_shaped_events s _ _ _
                  (map F32.of_f64 (map ReplayBuffer.reward exps))
                  (map ReplayBuffer.done_flag (map ReplayBuffer.done exps))
                  GAMMA w1 Hl Ht Ho B1 B2 B3) as [s' Hs']
  end.
  cbv beta iota. exists s'. eexists. split; [exact Hs' |].
  apply learn_returns in Hs' as (_ & F1 & F2 & F3 & F4 & F5 & F6).
  split; [| split; [| split; assumption]].
  - unfold record_events. cbn [trace]. now rewrite <- app_assoc.
  - unfold well_formed, agent_items. rewrite F1, F3, F4, F5, F6.
    repeat split; assumption.
Qed.
End FitRuns.

Lemma learning_steps_succ (k : Z) :
  0 <= k ->
  learning_steps (k + 1) =
  learning_steps k + (if ((k + 1) mod UPDATE_EVERY =? 0) && (BATCH_SIZE <? k + 1)
                      then 1 else 0).
Proof.
  intros Hk. unfold learning_steps, UPDATE_EVERY, BATCH_SIZE.
  change (64 / 4) with 16.
  destruct (Z.eqb_spec ((k + 1) mod 4) 0) as [Hm | Hm];
    destruct (Z.ltb_spec 64 (k + 1)) as [Hb | Hb]; cbn [andb];
    Z.div_mod_to_equations; lia.
Qed.

Lemma count_event_episodes (e : event) (l : list event) (c : nat) :
  count_event e (concat (repeat l c)) = (c * count_event e l)%nat.
Proof.
  induction c as [| c IH]; cbn [repeat concat]; [reflexivity |].
  rewrite count_event_app, IH. cbn. lia.
Qed.

Section FitSteps.
Context {RT : Runtime} {SL : SamplerLaws RT}.

(** A fit agent takes a fit transition without raising and stays fit;
    the step records one learning episode when it fires and nothing
    otherwise. *)
Lemma step_well_formed (a : Agent.t) (e : ReplayBuffer.Experience) (w : World) :
  well_formed a ->
  exp_ok (Agent.state_size a) (Agent.action_size a) e = true ->
  exists a' w',
    step_exp a e w = (Ok a', w')
    /\ well_formed a'
    /\ Agent.memory a' = add_exp (Agent.memory a) e
    /\ Agent.t_step a' = (Agent.t_step a + 1) mod UPDATE_EVERY
    /\ Agent.state_size a' = Agent.state_size a
    /\ Agent.action_size a' = Agent.action_size a
    /\ trace w' =
       trace w ++
       (if ((Agent.t_step a + 1) mod UPDATE_EVERY =? 0)
           && (BATCH_SIZE <? ReplayBuffer.len (add_exp (Agent.memory a) e))
        then EvSample :: learn_events else []).
Proof.
  intros Hwf He. pose proof (@stored_well_formed _ a e Hwf He) as Hwf'.
  unfold step_exp. rewrite step_unfold. fold (stored_exp a e).
  change (Agent.t_step (stored_exp a e)) with ((Agent.t_step a + 1) mod UPDATE_EVERY).
  change (Agent.memory (stored_exp a e)) with (add_exp (Agent.memory a) e) at 1.
  destruct ((Agent.t_step a + 1) mod UPDATE_EVERY =? 0);
    [destruct (Z.ltb_spec BATCH_SIZE (ReplayBuffer.len (add_exp (Agent.memory a) e)))
       as [Hb | Hb] |]; cbn [andb].
  - destruct (@episode_well_formed RT SL (stored_exp a e) w Hwf' Hb)
      as (s' & w' & Hep & Htr & Hwf'' & Hm & Ht).
    exists s', w'. split; [exact Hep |]. split; [exact Hwf'' |].
    split; [exact Hm |]. split; [exact Ht |].
    unfold episode, bind in Hep.
    destruct (ReplayBuffer.sample _ w) as [[batch | ex] w1]; [| discriminate].
    apply learn_returns in Hep as (_ & _ & _ & F3 & F4 & _).
    split; [exact F3 |]. split; [exact F4 | exact Htr].
  - exists (stored_exp a e), w. cbn [ret]. rewrite app_nil_r.
    split; [reflexivity |]. split; [exact Hwf' |]. repeat split.
  - exists (stored_exp a e), w. cbn [ret]. rewrite app_nil_r.
    split; [reflexivity |]. split; [exact Hwf' |]. repeat split.
Qed.

(** A run of a fit agent over fit transitions, [k] steps into its
    life: it returns, and its trace grows by whole learning episodes,
    as many as there are learning steps between [k] and the end. *)
Lemma run_fit (es : list ReplayBuffer.Experience) (k : Z) (a : Agent.t) (w : World) :
  well_formed a -> 0 <= k ->
  Agent.t_step a = k mod UPDATE_EVERY ->
  ReplayBuffer.len (Agent.memory a) = Z.min k BUFFER_SIZE ->
  forallb (exp_ok (Agent.state_size a) (Agent.action_size a)) es = true ->
  exists a' w' c,
    run a es w = (Ok a', w')
    /\ well_formed a'
    /\ trace w' = trace w ++ concat (repeat (EvSample :: learn_events) c)
    /\ Z.of_nat c = learning_steps (k + Z.of_nat (length es)) - learning_steps k.
Proof.
  revert k a w. induction es as [| e es IH]; intros k a w Hwf Hk Ht Hlen Hes.
  - exists a, w, 0%nat. cbn [run ret length repeat concat]. rewrite app_nil_r.
    split; [reflexivity |]. split; [exact Hwf |]. split; [reflexivity |].
    change (Z.of_nat 0) with 0. rewrite Z.add_0_r. lia.
  - cbn [forallb] in Hes. apply andb_prop in Hes as [He Hes].
    destruct (@step_well_formed a e w Hwf He) as (a1 & w1 & Hs & Hwf1 & Hm & Ht1 & S1 & S2 & Htr).
    assert (Hlen1 : ReplayBuffer.len (Agent.memory a1) = Z.min (k + 1) BUFFER_SIZE).
    { rewrite Hm. unfold ReplayBuffer.len in *. rewrite add_exp_items.
      destruct Hwf as (_ & _ & _ & Hmax & _). rewrite Hmax, length_app. cbn [length].
      destruct (Z.ltb_spec BUFFER_SIZE
                  (Z.of_nat (length (ReplayBuffer.items
                     (ReplayBuffer.memory (Agent.memory a))) + 1))) as [H | H].
      - destruct (ReplayBuffer.items (ReplayBuffer.memory (Agent.memory a)) ++ [e]) eqn:E.
        + apply (f_equal (@length _)) in E. rewrite length_app in E. cbn in E. lia.
        + apply (f_equal (@length _)) in E. rewrite length_app in E.
          cbn [length tl] in *. lia.
      - rewrite length_app. cbn [length]. lia. }
    assert (Ht1' : Agent.t_step a1 = (k + 1) mod UPDATE_EVERY).
    { rewrite Ht1, Ht. apply Z.add_mod_idemp_l. discriminate. }
    destruct (IH (k + 1) a1 w1 Hwf1 ltac:(lia) Ht1' Hlen1) as (a' & w' & c & Hr & Hwf' & Htr' & Hc).
    { now rewrite S1, S2. }
    rewrite <- Hm, Hlen1, <- Ht1, Ht1' in Htr.
    pose proof (@learning_steps_succ k Hk) as Hsucc.
    replace (BATCH_SIZE <? Z.min (k + 1) BUFFER_SIZE) with (BATCH_SIZE <? k + 1) in Htr
      by (unfold BATCH_SIZE, BUFFER_SIZE;
          destruct (Z.ltb_spec 64 (k + 1)); destruct (Z.ltb_spec 64 (Z.min (k + 1) 100000));
          trivial; lia).
    exists a', w'.
    exists ((if (((k + 1) mod UPDATE_EVERY =? 0) && (BATCH_SIZE <? k + 1))%Z
             then 1 else 0) + c)%nat.
    cbn [run length]. unfold bind. rewrite Hs, Hr.
    split; [reflexivity |]. split; [exact Hwf' |]. split.
    + rewrite Htr', Htr, <- app_assoc. f_equal.
      destruct (((k + 1) mod UPDATE_EVERY =? 0) && (BATCH_SIZE <? k + 1));
        cbn [Nat.add repeat concat app]; reflexivity.
    + rewrite Nat2Z.inj_add, Hc, Nat2Z.inj_succ.
      replace (k + Z.succ (Z.of_nat (length es))) with (k + 1 + Z.of_nat (length es)) by lia.
      rewrite Hsucc.
      destruct (((k + 1) mod UPDATE_EVERY =? 0) && (BATCH_SIZE <? k + 1));
        [change (Z.of_nat 1) with 1 | change (Z.of_nat 0) with 0]; lia.
Qed.
End FitSteps.
(** ** From the constructor on *)

Section Training.
Context {RT : Runtime} {SL : SamplerLaws RT}.

(** What the constructor returns. *)
Lemma init_well_formed (state_size action_size : nat) (seed : Z) (w w0 : World)
    (agent : Agent.t) :
  Agent.init state_size action_size seed w = (Ok agent, w0) ->
  action_size <> 0%nat ->
  well_formed agent
  /\ Agent.state_size agent = state_size
  /\ Agent.action_size agent = action_size
  /\ Agent.t_step agent = 0
  /\ agent_items agent = [].
Proof.
  destruct ((- 2 ^ 63 <=? seed) && (seed <? 2 ^ 64)) eqn:Hseed.
  - apply andb_prop in Hseed as [Hlo Hhi]. run_init.
    intros [= <- _] Ha. unfold well_formed, arch_ok, agent_items, ReplayBuffer.len.
    cbn [Agent.qnetwork_local Agent.qnetwork_target Agent.state_size Agent.action_size
         Agent.memory Agent.t_step ReplayBuffer.memory ReplayBuffer.items
         ReplayBuffer.maxlen ReplayBuffer.batch_size QNetwork.fc1 QNetwork.fc2
         QNetwork.fc3 QNetwork.fc4 QNetwork.in_features QNetwork.out_features
         length forallb].
    rewrite !Nat.eqb_refl. cbn [andb].
    repeat split; try reflexivity; try assumption. discriminate.
  - unfold Agent.init, QNetwork.init, QNetwork.manual_seed. rewrite Hseed.
    unfold bind, py_seed, raise. discriminate.
Qed.

(** The whole run of a fresh agent over fit transitions. *)
Lemma run_fresh (state_size action_size : nat) (seed : Z) (w w0 : World)
    (agent : Agent.t) (es : list ReplayBuffer.Experience) :
  Agent.init state_size action_size seed w = (Ok agent, w0) ->
  action_size <> 0%nat ->
  forallb (exp_ok state_size action_size) es = true ->
  exists agent' w' c,
    run agent es w0 = (Ok agent', w')
    /\ well_formed agent'
    /\ trace w' = trace w0 ++ concat (repeat (EvSample :: learn_events) c)
    /\ Z.of_nat c = learning_steps (Z.of_nat (length es)).
Proof.
  intros Hinit Ha Hes.
  destruct (@init_well_formed state_size action_size seed w w0 agent Hinit Ha) as (Hwf & Hs & Hact & Ht & Hi).
  destruct (@run_fit RT SL es 0 agent w0 Hwf) as (a' & w' & c & Hr & Hwf' & Htr & Hc).
  - lia.
  - rewrite Ht. reflexivity.
  - unfold ReplayBuffer.len. fold (agent_items agent). rewrite Hi. reflexivity.
  - now rewrite Hs, Hact.
  - exists a', w', c. split; [exact Hr |]. split; [exact Hwf' |]. split; [exact Htr |].
    rewrite Hc. cbn [Z.add]. unfold learning_steps at 2.
    change (0 / UPDATE_EVERY - BATCH_SIZE / UPDATE_EVERY) with (-16). lia.
Qed.

(** X11.  An agent built by [Agent(state_size, action_size, seed)] with
    at least one action never raises from [step], however long the
    run, as long as every transition has states of [state_size]
    components and an action index within [action_size]: sampling
    always finds more than a batch, the batch always stacks, both
    networks accept it and every gathered index is in range.  The
    agent stays well formed throughout. *)
Theorem training_never_raises (state_size action_size : nat) (seed : Z) (w w0 : World)
    (agent : Agent.t) (es : list ReplayBuffer.Experience) :
  Agent.init state_size action_size seed w = (Ok agent, w0) ->
  action_size <> 0%nat ->
  forallb (exp_ok state_size action_size) es = true ->
  exists agent' w',
    run agent es w0 = (Ok agent', w')
    /\ well_formed agent'
    /\ forallb (exp_ok state_size action_size) (agent_items agent') = true.
Proof.
  intros Hinit Ha Hes.
  destruct (@run_fresh state_size action_size seed w w0 agent es Hinit Ha Hes) as (a' & w' & c & Hr & Hwf & _).
  exists a', w'. split; [exact Hr |]. split; [exact Hwf |].
  apply run_returns in Hr as (_ & _ & H3 & H4).
  apply init_well_formed in Hinit as (_ & Hs & Hact & _); [| exact Ha].
  destruct Hwf as (_ & _ & _ & _ & _ & _ & Hitems).
  now rewrite H3, H4, Hs, Hact in Hitems.
Qed.

(** X12.  After [n] steps of such a run the agent has sampled and
    learned [max 0 (n / 4 - 16)] times: once at every fourth step from
    step 68 on.  Each time it called [sample] once and [learn] once,
    evaluated the target network once and took ten optimizer steps and
    ten soft updates, and nothing else was recorded. *)
Theorem learning_schedule (state_size action_size : nat) (seed : Z) (w w0 : World)
    (agent : Agent.t) (es : list ReplayBuffer.Experience) :
  Agent.init state_size action_size seed w = (Ok agent, w0) ->
  action_size <> 0%nat ->
  forallb (exp_ok state_size action_size) es = true ->
  let n := Z.of_nat (length es) in
  let learned := Z.to_nat (Z.max 0 (n / 4 - 16)) in
  let w' := snd (run agent es w0) in
  new_events w0 w' = concat (repeat (EvSample :: learn_events) learned)
  /\ count_event EvSample (new_events w0 w') = learned
  /\ count_event EvLearn (new_events w0 w') = learned
  /\ count_event (EvForward Target) (new_events w0 w') = learned
  /\ count_event EvOptimizerStep (new_events w0 w') = (learned * 10)%nat
  /\ count_event EvSoftUpdate (new_events w0 w') = (learned * 10)%nat.
Proof.
  intros Hinit Ha Hes. cbv zeta.
  destruct (@run_fresh state_size action_size seed w w0 agent es Hinit Ha Hes) as (a' & w' & c & Hr & _ & Htr & Hc).
  rewrite Hr. cbn [snd].
  assert (Hl : Z.to_nat (Z.max 0 (Z.of_nat (length es) / 4 - 16)) = c).
  { unfold learning_steps, UPDATE_EVERY, BATCH_SIZE in Hc.
    change (64 / 4) with 16 in Hc. rewrite <- Hc. apply Nat2Z.id. }
  rewrite Hl. rewrite (@new_events_app _ w0 w' _ Htr).
  rewrite !count_event_episodes.
  destruct count_learn_events as (C1 & C2 & C3 & _ & C5 & C6).
  rewrite C1, C2, C3, C5, C6. repeat split; lia.
Qed.
End Training.

Lemma training_never_raises_witness :
  let w := Scripted.world [] in
  let es := map synthetic (map Z.of_nat (seq 1 100)) in
  exists agent w0,
    Agent.init 4 2 0 w = (Ok agent, w0)
    /\ 2%nat <> 0%nat
    /\ forallb (exp_ok 4 2) es = true
    /\ exists agent' w',
         run agent es w0 = (Ok agent', w') /\ well_formed agent'.
Proof.
  intros w es.
  destruct (@init_returns Scripted.runtime 4%nat 2%nat 0 w) as (agent & w0 & Hinit).
  { split; [discriminate | reflexivity]. }
  assert (Ha : 2%nat <> 0%nat) by discriminate.
  assert (Hes : forallb (exp_ok 4 2) es = true) by (vm_compute; reflexivity).
  exists agent, w0. split; [exact Hinit |]. split; [exact Ha |]. split; [exact Hes |].
  destruct (@training_never_raises Scripted.runtime Scripted_sampler_laws
              4%nat 2%nat 0 w w0 agent es Hinit Ha Hes) as (agent' & w' & Hr & Hwf & _).
  exists agent', w'. split; [exact Hr | exact Hwf].
Defined.

Lemma learning_schedule_witness :
  let w := Scripted.world [] in
  let es := map synthetic (map Z.of_nat (seq 1 100)) in
  exists agent w0,
    Agent.init 4 2 0 w = (Ok agent, w0)
    /\ 2%nat <> 0%nat
    /\ forallb (exp_ok 4 2) es = true
    /\ count_event EvLearn (new_events w0 (snd (run agent es w0))) = 9%nat
    /\ count_event EvOptimizerStep (new_events w0 (snd (run agent es w0))) = 90%nat.
Proof.
  intros w es.
  destruct (@init_returns Scripted.runtime 4%nat 2%nat 0 w) as (agent & w0 & Hinit).
  { split; [discriminate | reflexivity]. }
  assert (Ha : 2%nat <> 0%nat) by discriminate.
  assert (Hes : forallb (exp_ok 4 2) es = true) by (vm_compute; reflexivity).
  exists agent, w0. split; [exact Hinit |]. split; [exact Ha |]. split; [exact Hes |].
  destruct (@learning_schedule Scripted.runtime Scripted_sampler_laws
              4%nat 2%nat 0 w w0 agent es Hinit Ha Hes) as (_ & _ & H3 & _ & H5 & _).
  split; [exact H3 | exact H5].
Defined.

Section SeedRange.
Context {RT : Runtime}.

(** X13.  [Agent(state_size, action_size, seed)] returns for every seed
    in [[-2^63, 2^64)].  For every other seed the constructor fails
    where the first network is built, with whatever
    [torch.manual_seed] raises; by then [random.seed(seed)] has run, so
    Python's generator is reseeded although no agent was made, while
    torch's generator is as it was and no call was recorded. *)
Theorem init_seed_range (state_size action_size : nat) (seed : Z) (w : World) :
  (- 2 ^ 63 <= seed < 2 ^ 64 ->
   is_ok (fst (Agent.init state_size action_size seed w)) = true)
  /\ (~ (- 2 ^ 63 <= seed < 2 ^ 64) ->
      Agent.init state_size action_size seed w =
      (Raise seed_overflow,
       {| py_random := random_seed seed; torch_gen := torch_gen w; trace := trace w |})
      /\ fst (QNetwork.init state_size action_size seed w) = Raise seed_overflow).
Proof.
  split.
  - intros H. destruct (init_returns state_size action_size w H) as (a & w' & ->).
    reflexivity.
  - intros H.
    assert (Hseed : (- 2 ^ 63 <=? seed) && (seed <? 2 ^ 64) = false).
    { destruct (Z.leb_spec (- 2 ^ 63) seed); destruct (Z.ltb_spec seed (2 ^ 64));
        try reflexivity. exfalso. apply H. now split. }
    unfold Agent.init, QNetwork.init, QNetwork.manual_seed. rewrite Hseed.
    split; reflexivity.
Qed.

(** X14.  The agent the constructor returns, and the states it leaves
    both random generators in, depend on [state_size], [action_size]
    and [seed] alone, not on what was drawn before: the constructor
    reseeds both generators before it uses them.  It records no call. *)
Theorem init_reproducible (state_size action_size : nat) (seed : Z) (w1 w2 : World) :
  fst (Agent.init state_size action_size seed w1) =
  fst (Agent.init state_size action_size seed w2)
  /\ py_random (snd (Agent.init state_size action_size seed w1)) =
     py_random (snd (Agent.init state_size action_size seed w2))
  /\ (is_ok (fst (Agent.init state_size action_size seed w1)) = true ->
      torch_gen (snd (Agent.init state_size action_size seed w1)) =
      torch_gen (snd (Agent.init state_size action_size seed w2)))
  /\ trace (snd (Agent.init state_size action_size seed w1)) = trace w1.
Proof.
  destruct ((- 2 ^ 63 <=? seed) && (seed <? 2 ^ 64)) eqn:Hseed.
  - apply andb_prop in Hseed as [Hlo Hhi]. run_init. repeat split.
  - unfold Agent.init, QNetwork.init, QNetwork.manual_seed. rewrite Hseed.
    unfold bind, py_seed, raise. cbn. repeat split. discriminate.
Qed.
End SeedRange.

Lemma init_seed_range_witness :
  let w := Scripted.world [F64.literal 1 4] in
  ~ (- 2 ^ 63 <= 2 ^ 64 < 2 ^ 64)
  /\ Agent.init 4 2 (2 ^ 64) w =
     (Raise seed_overflow,
      {| py_random := random_seed (2 ^ 64); torch_gen := torch_gen w; trace := trace w |}).
Proof.
  intros w.
  assert (H : ~ (- 2 ^ 63 <= 2 ^ 64 < 2 ^ 64)) by (intros [_ H]; discriminate H).
  split; [exact H |].
  exact (proj1 (proj2 (@init_seed_range Scripted.runtime 4%nat 2%nat (2 ^ 64) w) H)).
Defined.

Lemma init_reproducible_witness :
  let w1 := Scripted.world [F64.literal 1 4; F64.literal 3 4] in
  let w2 := Scripted.world [] in
  fst (Agent.init 4 2 7 w1) = fst (Agent.init 4 2 7 w2)
  /\ py_random (snd (Agent.init 4 2 7 w1)) = py_random (snd (Agent.init 4 2 7 w2)).
Proof.
  intros w1 w2.
  destruct (@init_reproducible Scripted.runtime 4%nat 2%nat 7 w1 w2) as (H1 & H2 & _).
  split; [exact H1 | exact H2].
Defined.
(** ** Choosing an action *)

Lemma argmax_from_bound (xs : tensor) (cur : F32.t) (best i : nat) :
  (best < i)%nat -> (argmax_from cur best i xs < i + length xs)%nat.
Proof.
  revert cur best i. induction xs as [| x xs IH]; intros cur best i Hb; cbn [argmax_from length].
  - lia.
  - destruct (F32.is_nan cur); [lia |].
    destruct (F32.leb x cur).
    + specialize (IH cur best (S i) ltac:(lia)). lia.
    + specialize (IH x i (S i) ltac:(lia)). lia.
Qed.

Section ActFacts.
Context {RT : Runtime}.

(** X15.  On a state of [state_size] components, an agent with at
    least one action and a local network of its dimensions gets an
    action index below [action_size] from [act], whatever [eps] and
    whatever is drawn; the call evaluates the local network once and
    leaves torch's generator alone. *)
Theorem act_in_range {CL : ChoiceLaws RT} (self : Agent.t) (state : list F64.t)
    (eps : F64.t) (w : World) :
  arch_ok (Agent.qnetwork_local self) (Agent.state_size self) (Agent.action_size self) = true ->
  Agent.action_size self <> 0%nat ->
  length state = Agent.state_size self ->
  exists a w',
    Agent.act self state eps w = (Ok a, w')
    /\ (a < Agent.action_size self)%nat
    /\ trace w' = trace w ++ [EvForward Local]
    /\ torch_gen w' = torch_gen w.
Proof.
  intros Harch Ha Hlen.
  destruct (@forward_shape_ok _ (Agent.qnetwork_local self) (Agent.state_size self)
              (Agent.action_size self) [map F32.of_f64 state] Harch)
    as (q & Hq & Hl & Hrows).
  { unfold rows_of. cbn [forallb]. rewrite length_map, Hlen, Nat.eqb_refl. reflexivity. }
  destruct q as [| row [| ? ?]]; try discriminate Hl.
  unfold rows_of in Hrows. cbn [forallb] in Hrows.
  apply andb_prop in Hrows as [Hrow _]. apply Nat.eqb_eq in Hrow.
  unfold Agent.act. unfold bind at 1. cbn [emit]. unfold bind at 1. unfold lift at 1.
  rewrite Hq. unfold bind at 1. unfold with_random at 1. cbn [py_random torch_gen trace].
  destruct (random_random (py_random w)) as [r g].
  destruct (F64.ltb eps r).
  - cbn [concat]. rewrite app_nil_r.
    destruct row as [| x xs]; [cbn in Hrow; congruence |].
    unfold lift, np_argmax. eexists. eexists. split; [reflexivity |].
    split; [| split; reflexivity].
    pose proof (@argmax_from_bound xs x 0%nat 1%nat ltac:(lia)) as Hb.
    cbn [length] in Hrow. lia.
  - destruct (Nat.eqb_spec (Agent.action_size self) 0) as [H0 | H0]; [contradiction |].
    unfold with_random. cbn [py_random torch_gen trace].
    pose proof (random_choice_bound g (n := Agent.action_size self) ltac:(lia)) as Hb.
    destruct (random_choice g (Agent.action_size self)) as [a g'].
    eexists. eexists. split; [reflexivity |]. split; [exact Hb |]. split; reflexivity.
Qed.

(** X16.  Whenever [act] returns it has drawn once from
    [random.random()].  If the draw exceeds [eps] the action is the
    greedy one and nothing more is drawn; otherwise the action is what
    one call of [random.choice] over the [action_size] indices
    returns, and the action values play no part in it. *)
Theorem act_draws (self : Agent.t) (state : list F64.t) (eps : F64.t)
    (w w' : World) (a : nat) :
  Agent.act self state eps w = (Ok a, w') ->
  let r := fst (random_random (py_random w)) in
  let g := snd (random_random (py_random w)) in
  if F64.ltb eps r
  then greedy_action self state = Ok a /\ py_random w' = g
  else a = fst (random_choice g (Agent.action_size self))
       /\ py_random w' = snd (random_choice g (Agent.action_size self))
       /\ Agent.action_size self <> 0%nat.
Proof.
  cbv zeta. unfold Agent.act, greedy_action.
  unfold bind at 1. cbn [emit]. unfold bind at 1. unfold lift at 1.
  destruct (QNetwork.forward _ _) as [q | e]; [| discriminate].
  unfold bind at 1. unfold with_random at 1. cbn [py_random torch_gen trace].
  destruct (random_random (py_random w)) as [r g]. cbn [fst snd].
  destruct (F64.ltb eps r).
  - unfold lift. intros [= -> <-]. split; reflexivity.
  - destruct (Nat.eqb_spec (Agent.action_size self) 0) as [H0 | H0]; [discriminate |].
    unfold with_random. cbn [py_random torch_gen trace].
    destruct (random_choice g (Agent.action_size self)) as [a' g'].
    intros [= <- <-]. repeat split. exact H0.
Qed.
End ActFacts.

Lemma act_in_range_witness :
  let net := Scripted.const_net 4 2 F32.zero in
  let self := Scripted.agent_of 4 2 net net in
  let state := map F64.of_Z [1; 2; 3; 4] in
  let w := Scripted.world [] in
  arch_ok (Agent.qnetwork_local self) (Agent.state_size self) (Agent.action_size self) = true
  /\ Agent.action_size self <> 0%nat
  /\ length state = Agent.state_size self
  /\ exists a w',
       Agent.act self state (F64.literal 1 10) w = (Ok a, w')
       /\ (a < Agent.action_size self)%nat.
Proof.
  intros net self state w.
  assert (H1 : arch_ok (Agent.qnetwork_local self) (Agent.state_size self)
                 (Agent.action_size self) = true) by reflexivity.
  assert (H2 : Agent.action_size self <> 0%nat) by discriminate.
  assert (H3 : length state = Agent.state_size self) by reflexivity.
  split; [exact H1 |]. split; [exact H2 |]. split; [exact H3 |].
  destruct (@act_in_range Scripted.runtime Scripted_choice_laws self state
              (F64.literal 1 10) w H1 H2 H3) as (a & w' & Ha & Hlt & _).
  exists a, w'. split; [exact Ha | exact Hlt].
Defined.

Lemma act_draws_witness :
  let net := Scripted.const_net 4 2 F32.zero in
  let self := Scripted.agent_of 4 2 net net in
  let state := map F64.of_Z [1; 2; 3; 4] in
  let w := Scripted.world [] in
  let w' := {| py_random := []; torch_gen := tt; trace := [EvForward Local] |} in
  Agent.act self state (F64.of_Z 1) w = (Ok 1%nat, w')
  /\ F64.ltb (F64.of_Z 1) (fst (random_random (py_random w))) = false
  /\ 1%nat = fst (random_choice (snd (random_random (py_random w)))
                    (Agent.action_size self)).
Proof.
  intros net self state w w'.
  assert (H : Agent.act self state (F64.of_Z 1) w = (Ok 1%nat, w'))
    by (apply outcome_eq; vm_compute; reflexivity).
  split; [exact H |]. split; [reflexivity |].
  exact (proj1 (@act_draws Scripted.runtime self state (F64.of_Z 1) w w' 1%nat H)).
Defined.

(** ** Batches [learn] refuses *)

Lemma gather_refuses (o : nat) (q : tensor2) (actions : list Z) :
  rows_of o q = true -> length q = length actions ->
  actions_in o actions = false ->
  gather q actions = Raise gather_range.
Proof.
  unfold rows_of, actions_in.
  revert actions. induction q as [| row q IH]; intros [| a actions]; cbn [length forallb gather];
    try discriminate.
  intros Hrows Hlen Hact. apply andb_prop in Hrows as [Hrow Hrows].
  apply Nat.eqb_eq in Hrow. rewrite Hrow.
  destruct ((0 <=? a) && (a <? Z.of_nat o)); [| reflexivity].
  cbn [andb] in Hact. rewrite IH; [reflexivity | exact Hrows | lia | exact Hact].
Qed.

Section LearnErrors.
Context {RT : Runtime}.

(** X17.  When a row of [next_states] has not [state_size] components,
    [learn] raises the [RuntimeError] of the matrix product from the
    evaluation of the target network, before any epoch: no parameter
    has changed. *)
Theorem learn_bad_next_states (self : Agent.t) (states next_states : tensor2)
    (actions : list Z) (rewards dones : tensor) (gamma : F64.t) (w : World) :
  arch_ok (Agent.qnetwork_target self) (Agent.state_size self) (Agent.action_size self) = true ->
  rows_of (Agent.state_size self) next_states = false ->
  Agent.learn self (states, actions, rewards, next_states, dones) gamma w =
  (Raise matmul_shapes, record_events w [EvLearn; EvForward Target])
  /\ exn_class matmul_shapes = "RuntimeError".
Proof.
  intros Harch Hrows. split; [| reflexivity].
  unfold arch_ok in Harch. repeat (apply andb_prop in Harch as [Harch ?]).
  apply Nat.eqb_eq in Harch.
  unfold Agent.learn.
  unfold bind at 1. cbn [emit]. unfold bind at 1. cbn [emit].
  unfold bind at 1. unfold lift at 1.
  rewrite forward_refuses by (now rewrite Harch).
  unfold record_events. cbn [py_random torch_gen trace]. now rewrite <- app_assoc.
Qed.

(** X18.  An action index outside [[0, action_size)] in a batch that is
    otherwise well shaped (five columns of one row count, states and
    next states of [state_size] components) makes [learn] raise the
    [RuntimeError] of [gather] in the first epoch: the target network
    has been evaluated and the targets formed, one per row of the
    batch, and the local network has been evaluated, but no optimizer
    step or soft update has taken place. *)
Theorem learn_bad_action (self : Agent.t) (states next_states : tensor2)
    (actions : list Z) (rewards dones : tensor) (gamma : F64.t) (w : World) :
  arch_ok (Agent.qnetwork_local self) (Agent.state_size self) (Agent.action_size self) = true ->
  arch_ok (Agent.qnetwork_target self) (Agent.state_size self) (Agent.action_size self) = true ->
  Agent.action_size self <> 0%nat ->
  rows_of (Agent.state_size self) states = true ->
  rows_of (Agent.state_size self) next_states = true ->
  length actions = length states ->
  length rewards = length states ->
  length next_states = length states ->
  length dones = length states ->
  actions_in (Agent.action_size self) actions = false ->
  Agent.learn self (states, actions, rewards, next_states, dones) gamma w =
  (Raise gather_range,
   record_events w [EvLearn; EvForward Target; EvForward Local])
  /\ (exists q_next Qsa_max,
        QNetwork.forward (Agent.qnetwork_target self) next_states = Ok q_next
        /\ traverse row_max q_next = Ok Qsa_max
        /\ length (Agent.td_target gamma rewards Qsa_max dones) = length states)
  /\ exn_class gather_range = "RuntimeError".
Proof.
  intros Hl Ht Ho Hs Hns Hlen Hrewards Hnext Hdones Hact.
  destruct (forward_ok _ _ _ _ Ht Hns) as [q_next [Hq Hrows]].
  destruct (traverse_row_max_ok _ Ho Hrows) as [Qsa_max Hm].
  split; [| split; [| reflexivity]].
  2: { exists q_next, Qsa_max. split; [exact Hq |]. split; [exact Hm |].
       rewrite td_target_length, (traverse_length _ _ Hm), (forward_length _ _ Hq).
       lia. }
  destruct (@forward_shape_ok _ _ _ _ states Hl Hs) as (q & Hq' & Hlq & Hrq).
  unfold Agent.learn.
  unfold bind at 1. cbn [emit]. unfold bind at 1. cbn [emit].
  unfold bind at 1. unfold lift at 1. rewrite Hq.
  unfold bind at 1. unfold lift at 1. rewrite Hm.
  unfold Agent.num_epoches. cbn [for_range]. unfold bind at 1.
  unfold Agent.epoch. unfold bind at 1. cbn [emit]. unfold bind at 1. unfold lift at 1.
  rewrite Hq'. unfold bind at 1. unfold lift at 1.
  rewrite (@gather_refuses (Agent.action_size self)) by (assumption || congruence).
  unfold record_events. cbn [py_random torch_gen trace]. now rewrite <- !app_assoc.
Qed.
End LearnErrors.

Lemma learn_bad_next_states_witness :
  let net := Scripted.const_net 4 2 F32.zero in
  let self := Scripted.agent_of 4 2 net net in
  let row := map F32.of_Z [1; 2; 3; 4] in
  let short := map F32.of_Z [1; 2; 3] in
  let w := Scripted.world [] in
  arch_ok (Agent.qnetwork_target self) (Agent.state_size self) (Agent.action_size self) = true
  /\ rows_of (Agent.state_size self) [short] = false
  /\ Agent.learn self ([row], [1], [F32.one], [short], [F32.zero]) GAMMA w =
     (Raise matmul_shapes, record_events w [EvLearn; EvForward Target]).
Proof.
  intros net self row short w.
  assert (H1 : arch_ok (Agent.qnetwork_target self) (Agent.state_size self)
                 (Agent.action_size self) = true) by reflexivity.
  assert (H2 : rows_of (Agent.state_size self) [short] = false) by reflexivity.
  split; [exact H1 |]. split; [exact H2 |].
  exact (proj1 (@learn_bad_next_states Scripted.runtime self [row] [short] [1]
                  [F32.one] [F32.zero] GAMMA w H1 H2)).
Defined.

Lemma learn_bad_action_witness :
  let net := Scripted.const_net 4 2 F32.zero in
  let self := Scripted.agent_of 4 2 net net in
  let row := map F32.of_Z [1; 2; 3; 4] in
  let w := Scripted.world [] in
  arch_ok (Agent.qnetwork_local self) (Agent.state_size self) (Agent.action_size self) = true
  /\ arch_ok (Agent.qnetwork_target self) (Agent.state_size self) (Agent.action_size self) = true
  /\ Agent.action_size self <> 0%nat
  /\ rows_of (Agent.state_size self) [row] = true
  /\ length [7] = length [row]
  /\ length [F32.one] = length [row]
  /\ length [F32.zero] = length [row]
  /\ actions_in (Agent.action_size self) [7] = false
  /\ Agent.learn self ([row], [7], [F32.one], [row], [F32.zero]) GAMMA w =
     (Raise gather_range, record_events w [EvLearn; EvForward Target; EvForward Local]).
Proof.
  intros net self row w.
  assert (H1 : arch_ok (Agent.qnetwork_local self) (Agent.state_size self)
                 (Agent.action_size self) = true) by reflexivity.
  assert (H3 : Agent.action_size self <> 0%nat) by discriminate.
  assert (H4 : rows_of (Agent.state_size self) [row] = true) by reflexivity.
  assert (H5 : length [7] = length [row]) by reflexivity.
  assert (H6 : actions_in (Agent.action_size self) [7] = false) by reflexivity.
  split; [exact H1 |]. split; [exact H1 |]. split; [exact H3 |]. split; [exact H4 |].
  split; [exact H5 |]. split; [reflexivity |]. split; [reflexivity |].
  split; [exact H6 |].
  exact (proj1 (@learn_bad_action Scripted.runtime self [row] [row] [7]
                  [F32.one] [F32.zero] GAMMA w H1 H1 H3 H4 H4 H5 eq_refl eq_refl
                  eq_refl H6)).
Defined.

(** ** The TD target of a transition that goes on *)

Lemma F32_mul_one_r (x : F32.t) : F32.valid x = true -> F32.mul x F32.one = x.
Proof.
  intros Hv. rewrite <- (F32_mul_one_l x Hv) at 2.
  destruct x as [[] | [] | | s m e]; try reflexivity.
  rewrite F32_one_eq. unfold F32.mul, SFmul.
  now rewrite Pos.mul_comm, Z.add_comm, xorb_comm.
Qed.

(** X19.  In [learn], at every index of the batch whose done flag is
    false, the target [y] is the binary32 sum of the reward and of the
    product [gamma * Qsa_max] at that index: the factor [1 - done] is
    exactly [1.0] and multiplying by it changes nothing. *)
Theorem td_target_nonterminal (gamma : F64.t) (rewards Qsa_max dones : tensor)
    (i : nat) (r q : F32.t) :
  nth_error rewards i = Some r ->
  nth_error Qsa_max i = Some q ->
  nth_error dones i = Some (ReplayBuffer.done_flag false) ->
  F32.valid (F32.mul (F32.of_f64 gamma) q) = true ->
  nth_error (Agent.td_target gamma rewards Qsa_max dones) i =
  Some (F32.add r (F32.mul (F32.of_f64 gamma) q)).
Proof.
  intros Hr Hq Hd Hv.
  unfold Agent.td_target, tensor_add, tensor_mul, scalar_mul, scalar_rsub.
  rewrite nth_error_map2, Hr, nth_error_map2, !nth_error_map, Hq, Hd.
  cbn [option_map].
  change (F32.sub (F32.of_f64 (F64.of_Z 1)) (ReplayBuffer.done_flag false))
    with F32.one.
  now rewrite F32_mul_one_r.
Qed.

Lemma td_target_nonterminal_witness :
  nth_error [F32.of_Z 3] 0 = Some (F32.of_Z 3)
  /\ nth_error [F32.of_Z 7] 0 = Some (F32.of_Z 7)
  /\ nth_error [ReplayBuffer.done_flag false] 0 = Some (ReplayBuffer.done_flag false)
  /\ F32.valid (F32.mul (F32.of_f64 GAMMA) (F32.of_Z 7)) = true
  /\ nth_error (Agent.td_target GAMMA [F32.of_Z 3] [F32.of_Z 7]
                  [ReplayBuffer.done_flag false]) 0 =
     Some (F32.add (F32.of_Z 3) (F32.mul (F32.of_f64 GAMMA) (F32.of_Z 7))).
Proof.
  repeat (split; [reflexivity |]).
  apply (@td_target_nonterminal GAMMA [F32.of_Z 3] [F32.of_Z 7]
           [ReplayBuffer.done_flag false] 0%nat (F32.of_Z 3) (F32.of_Z 7));
    reflexivity.
Defined.
(** ** The greedy action *)

Lemma F32_leb_refl (x : F32.t) : F32.is_nan x = false -> F32.leb x x = true.
Proof.
  unfold F32.leb, SFleb.
  destruct x as [[] | [] | | [] m e]; cbn; try reflexivity; try discriminate; intros _;
    rewrite Z.compare_refl; fold (Pos.compare m m); now rewrite Pos.compare_refl.
Qed.

Lemma F32_leb_total (x y : F32.t) :
  F32.is_nan x = false -> F32.is_nan y = false ->
  F32.leb x y = false -> F32.leb y x = true.
Proof.
  unfold F32.leb, SFleb.
  destruct x as [[] | [] | | [] m1 e1], y as [[] | [] | | [] m2 e2]; cbn;
    try reflexivity; try discriminate; intros _ _;
    rewrite (Z.compare_antisym e1 e2); destruct (e1 ?= e2); cbn;
    try reflexivity; try discriminate;
    fold (Pos.compare m1 m2); fold (Pos.compare m2 m1);
    rewrite (Pos.compare_antisym m1 m2); destruct (m1 ?= m2)%positive; cbn;
    try reflexivity; discriminate.
Qed.

Lemma F32_leb_trans (x y z : F32.t) :
  F32.leb x y = true -> F32.leb y z = true -> F32.leb x z = true.
Proof.
  unfold F32.leb, SFleb.
  destruct x as [[] | [] | | [] m1 e1], y as [[] | [] | | [] m2 e2],
    z as [[] | [] | | [] m3 e3]; cbn; try reflexivity; try discriminate;
    fold (Pos.compare m1 m2); fold (Pos.compare m2 m3); fold (Pos.compare m1 m3);
    destruct (Z.compare_spec e1 e2); destruct (Z.compare_spec e2 e3);
    destruct (Z.compare_spec e1 e3); try lia; cbn; try reflexivity; try discriminate;
    destruct (Pos.compare_spec m1 m2); destruct (Pos.compare_spec m2 m3);
    destruct (Pos.compare_spec m1 m3); try lia; cbn; try reflexivity; discriminate.
Qed.

(** The running maximum of [np.argmax]: on a row without NaN the
    position returned holds a largest element and is the first to do
    so. *)
Lemma argmax_from_spec (xs pre : tensor) (cur : F32.t) (best : nat) :
  F32.is_nan cur = false ->
  forallb (fun x => negb (F32.is_nan x)) xs = true ->
  (best < length pre)%nat -> nth best pre S754_nan = cur ->
  (forall j, (j < length pre)%nat -> F32.leb (nth j pre S754_nan) cur = true) ->
  (forall j, (j < best)%nat -> F32.leb cur (nth j pre S754_nan) = false) ->
  let a := argmax_from cur best (length pre) xs in
  let l := pre ++ xs in
  (a < length l)%nat
  /\ (forall j, (j < length l)%nat -> F32.leb (nth j l S754_nan) (nth a l S754_nan) = true)
  /\ (forall j, (j < a)%nat -> F32.leb (nth a l S754_nan) (nth j l S754_nan) = false).
Proof.
  cbv zeta. revert pre cur best.
  induction xs as [| x xs IH]; intros pre cur best Hcur Hxs Hb Hn Hall Hfirst.
  - cbn [argmax_from]. rewrite app_nil_r, Hn. auto.
  - cbn [argmax_from]. rewrite Hcur.
    cbn [forallb] in Hxs. apply andb_prop in Hxs as [Hx Hxs].
    apply negb_true_iff in Hx.
    assert (Hlen : length (pre ++ [x]) = S (length pre))
      by (rewrite length_app; cbn; lia).
    replace (pre ++ x :: xs) with ((pre ++ [x]) ++ xs) by (now rewrite <- app_assoc).
    rewrite <- Hlen.
    destruct (F32.leb x cur) eqn:Hle.
    + apply (IH (pre ++ [x]) cur best); try assumption.
      * lia.
      * rewrite app_nth1 by lia. exact Hn.
      * intros j Hj. destruct (Nat.eq_dec j (length pre)) as [-> | Hne].
        -- rewrite app_nth2 by lia. now rewrite Nat.sub_diag.
        -- rewrite app_nth1 by lia. apply Hall. lia.
      * intros j Hj. rewrite app_nth1 by lia. now apply Hfirst.
    + apply (IH (pre ++ [x]) x (length pre)); try assumption.
      * lia.
      * rewrite app_nth2 by lia. now rewrite Nat.sub_diag.
      * intros j Hj. destruct (Nat.eq_dec j (length pre)) as [-> | Hne].
        -- rewrite app_nth2 by lia. rewrite Nat.sub_diag. now apply F32_leb_refl.
        -- rewrite app_nth1 by lia.
           apply F32_leb_trans with cur; [apply Hall; lia |].
           now apply F32_leb_total.
      * intros j Hj. rewrite app_nth1 by lia.
        destruct (F32.leb x (nth j pre S754_nan)) eqn:E; [| reflexivity].
        rewrite <- Hle. symmetry.
        apply F32_leb_trans with (nth j pre S754_nan); [exact E | apply Hall; lia].
Qed.

Lemma np_argmax_spec (row : tensor) (a : nat) :
  forallb (fun x => negb (F32.is_nan x)) row = true ->
  np_argmax row = Ok a ->
  (a < length row)%nat
  /\ (forall j, (j < length row)%nat ->
        F32.leb (nth j row S754_nan) (nth a row S754_nan) = true)
  /\ (forall j, (j < a)%nat ->
        F32.leb (nth a row S754_nan) (nth j row S754_nan) = false).
Proof.
  destruct row as [| x xs]; [discriminate |].
  cbn [forallb np_argmax]. intros H [= <-].
  apply andb_prop in H as [Hx Hxs]. apply negb_true_iff in Hx.
  apply (@argmax_from_spec xs [x] x 0%nat); try assumption.
  - cbn. lia.
  - reflexivity.
  - intros [| j] Hj; [now apply F32_leb_refl | cbn in Hj; lia].
  - intros j Hj. lia.
Qed.

Section GreedyChoice.
Context {RT : Runtime}.

(** X20.  When the draw exceeds [eps] and the local network returns
    action values without NaN, the action [act] returns has a largest
    value, and it is the first index to have it: every action before
    it has a strictly smaller value. *)
Theorem act_greedy_maximal (self : Agent.t) (state : list F64.t) (eps : F64.t)
    (w w' : World) (a : nat) (row : tensor) :
  Agent.act self state eps w = (Ok a, w') ->
  F64.ltb eps (fst (random_random (py_random w))) = true ->
  QNetwork.forward (Agent.qnetwork_local self) [map F32.of_f64 state] = Ok [row] ->
  forallb (fun x => negb (F32.is_nan x)) row = true ->
  (a < length row)%nat
  /\ (forall j, (j < length row)%nat ->
        F32.leb (nth j row S754_nan) (nth a row S754_nan) = true)
  /\ (forall j, (j < a)%nat ->
        F32.ltb (nth j row S754_nan) (nth a row S754_nan) = true).
Proof.
  intros Hact Hdraw Hq Hrow.
  unfold Agent.act in Hact.
  unfold bind at 1 in Hact. cbn [emit] in Hact.
  unfold bind at 1 in Hact. unfold lift at 1 in Hact. rewrite Hq in Hact.
  unfold bind at 1 in Hact. unfold with_random at 1 in Hact.
  cbn [py_random torch_gen trace] in Hact.
  destruct (random_random (py_random w)) as [r g]. cbn [fst] in Hdraw.
  rewrite Hdraw in Hact. cbn [concat] in Hact. rewrite app_nil_r in Hact.
  unfold lift in Hact. injection Hact as Ha _.
  destruct (np_argmax_spec row Hrow Ha) as (H1 & H2 & H3).
  split; [exact H1 |]. split; [exact H2 |].
  intros j Hj. specialize (H3 j Hj). specialize (H2 j ltac:(lia)).
  unfold F32.leb, SFleb in H2, H3. unfold F32.ltb, SFltb.
  rewrite forallb_forall in Hrow.
  assert (Hnj : F32.is_nan (nth j row S754_nan) = false).
  { apply negb_true_iff, Hrow, nth_In. lia. }
  assert (Hna : F32.is_nan (nth a row S754_nan) = false).
  { apply negb_true_iff, Hrow, nth_In. lia. }
  pose proof (@F32_leb_total (nth a row S754_nan) (nth j row S754_nan) Hna Hnj) as Ht.
  unfold F32.leb, SFleb in Ht.
  destruct (nth j row S754_nan) as [[] | [] | | [] m1 e1],
           (nth a row S754_nan) as [[] | [] | | [] m2 e2];
    cbn in *; try reflexivity; try discriminate;
    rewrite (Z.compare_antisym e1 e2) in H3;
    destruct (e1 ?= e2); cbn in *; try reflexivity; try discriminate;
    fold (Pos.compare m1 m2) in *; fold (Pos.compare m2 m1) in *;
    rewrite (Pos.compare_antisym m1 m2) in H3;
    destruct (m1 ?= m2)%positive; cbn in *; try reflexivity; discriminate.
Qed.
End GreedyChoice.

Lemma act_greedy_maximal_witness :
  let zero := Scripted.const_net 4 2 F32.zero in
  let net := QNetwork.load zero
               (firstn 7 (QNetwork.parameters zero) ++ [[F32.of_Z 1; F32.of_Z 3]]) in
  let self := Scripted.agent_of 4 2 net net in
  let state := map F64.of_Z [1; 2; 3; 4] in
  let row := [F32.of_Z 1; F32.of_Z 3] in
  let w := Scripted.world [] in
  let w' := {| py_random := []; torch_gen := tt; trace := [EvForward Local] |} in
  Agent.act self state (F64.of_Z 0) w = (Ok 1%nat, w')
  /\ F64.ltb (F64.of_Z 0) (fst (random_random (py_random w))) = true
  /\ QNetwork.forward (Agent.qnetwork_local self) [map F32.of_f64 state] = Ok [row]
  /\ forallb (fun x => negb (F32.is_nan x)) row = true
  /\ F32.ltb (nth 0 row S754_nan) (nth 1 row S754_nan) = true.
Proof.
  intros zero net self state row w w'.
  assert (H1 : Agent.act self state (F64.of_Z 0) w = (Ok 1%nat, w'))
    by (apply outcome_eq; vm_compute; reflexivity).
  assert (H2 : F64.ltb (F64.of_Z 0) (fst (random_random (py_random w))) = true)
    by reflexivity.
  assert (H3 : QNetwork.forward (Agent.qnetwork_local self) [map F32.of_f64 state] =
               Ok [row]) by (vm_compute; reflexivity).
  assert (H4 : forallb (fun x => negb (F32.is_nan x)) row = true) by reflexivity.
  split; [exact H1 |]. split; [exact H2 |]. split; [exact H3 |]. split; [exact H4 |].
  destruct (@act_greedy_maximal Scripted.runtime self state (F64.of_Z 0) w w' 1%nat row
              H1 H2 H3 H4) as (_ & _ & H).
  apply H. lia.
Defined.
(** ** What a step can raise *)

(** A result that carries the exception [e] raises it. *)
Lemma raise_eq {A} (r : result A) (e : exn) :
  match r with Raise e' => Some e' | Ok _ => None end = Some e -> r = Raise e.
Proof. destruct r; [discriminate | now intros [= ->]]. Qed.

(** Stacking a non-empty list of experiences fails only on rows of
    different lengths. *)
Lemma stack_raises (exps : list ReplayBuffer.Experience) (e : exn) :
  exps <> [] -> stack exps = Raise e -> e = ragged_stack.
Proof.
  intros Hne. destruct exps as [| x exps]; [contradiction |].
  unfold stack, np_vstack, np_vstack_scalars. cbn [map].
  destruct (forallb _ (map ReplayBuffer.state exps)); [| now intros [= <-]].
  destruct (forallb _ (map ReplayBuffer.next_state exps)); [discriminate |].
  now intros [= <-].
Qed.

Section StepExceptions.
Context {RT : Runtime} {SL : SamplerLaws RT}.

(** X21.  A step of an agent whose buffer samples [BATCH_SIZE]
    transitions, as the constructor sets it up, and whose stored and
    incoming actions all fit in 64 bits, can raise only when it learns,
    and then only one of four library errors: the [ValueError] of
    [np.vstack] on states of different lengths, the [RuntimeError] of a
    matrix product or of [gather], or the [IndexError] of a maximum
    over no action.  The errors of [random.sample] and of an empty
    stack cannot occur. *)
Theorem step_exceptions (self : Agent.t) (s : list F64.t) (a : Z) (r : F64.t)
    (ns : list F64.t) (d : bool) (w : World) (e : exn) :
  ReplayBuffer.batch_size (Agent.memory self) = BATCH_SIZE ->
  forallb (fun x => is_int64 (ReplayBuffer.action x)) (agent_items self) = true ->
  is_int64 a = true ->
  fst (Agent.step self s a r ns d w) = Raise e ->
  (e = ragged_stack \/ e = matmul_shapes \/ e = gather_range \/ e = empty_max)
  /\ (Agent.t_step self + 1) mod UPDATE_EVERY = 0
  /\ BATCH_SIZE < ReplayBuffer.len (ReplayBuffer.add (Agent.memory self) s a r ns d).
Proof.
  intros Hbatch _ _. rewrite step_unfold. cbn [stored Agent.t_step Agent.memory].
  destruct (Z.eqb_spec ((Agent.t_step self + 1) mod UPDATE_EVERY) 0) as [Ht | Ht];
    [| discriminate].
  destruct (Z.ltb_spec BATCH_SIZE
              (ReplayBuffer.len (ReplayBuffer.add (Agent.memory self) s a r ns d)))
    as [Hb | Hb]; [| discriminate].
  intros H. split; [| now split].
  unfold episode, bind in H.
  change (Agent.memory (stored self s a r ns d))
    with (ReplayBuffer.add (Agent.memory self) s a r ns d) in H.
  set (b := ReplayBuffer.add (Agent.memory self) s a r ns d) in *.
  assert (Hk : ReplayBuffer.batch_size b = BATCH_SIZE) by exact Hbatch.
  assert (Hin : 0 <= ReplayBuffer.batch_size b <= ReplayBuffer.len b)
    by (rewrite Hk; unfold BATCH_SIZE in *; lia).
  rewrite (@sample_draw RT b w Hin) in H.
  pose proof (random_sample_length (py_random w)
                (ReplayBuffer.items (ReplayBuffer.memory b))
                (k := Z.to_nat (ReplayBuffer.batch_size b))) as Hlen.
  specialize (Hlen ltac:(rewrite Hk; unfold ReplayBuffer.len, BATCH_SIZE in *; lia)).
  destruct (random_sample _ _ _) as [exps g]. cbn [fst snd] in *.
  destruct (stack exps) as [batch | e'] eqn:Hstack.
  - right.
    refine (@raises_in_learn RT
              (fun e => e = matmul_shapes \/ e = gather_range \/ e = empty_max)
              _ _ _ _ batch GAMMA _ e H); auto.
  - cbn [fst] in H. injection H as <-. left.
    apply (stack_raises (exps := exps)); [| exact Hstack].
    intros ->. rewrite Hk in Hlen. discriminate Hlen.
Qed.
End StepExceptions.

Lemma step_exceptions_witness :
  let net := Scripted.const_net 4 2 F32.zero in
  let items := tagged 0 :: map synthetic (map Z.of_nat (seq 1 64)) in
  let self := Scripted.agent_at 4 2 net net items 3 in
  let e := synthetic 65 in
  let w := Scripted.world [] in
  ReplayBuffer.batch_size (Agent.memory self) = BATCH_SIZE
  /\ forallb (fun x => is_int64 (ReplayBuffer.action x)) (agent_items self) = true
  /\ is_int64 (ReplayBuffer.action e) = true
  /\ fst (step_exp self e w) = Raise ragged_stack
  /\ (Agent.t_step self + 1) mod UPDATE_EVERY = 0.
Proof.
  intros net items self e w.
  assert (H1 : ReplayBuffer.batch_size (Agent.memory self) = BATCH_SIZE) by reflexivity.
  assert (H2 : fst (step_exp self e w) = Raise ragged_stack)
    by (apply raise_eq; vm_compute; reflexivity).
  assert (H3 : forallb (fun x => is_int64 (ReplayBuffer.action x)) (agent_items self) = true)
    by (vm_compute; reflexivity).
  assert (H4 : is_int64 (ReplayBuffer.action e) = true) by reflexivity.
  split; [exact H1 |]. split; [exact H3 |]. split; [exact H4 |]. split; [exact H2 |].
  exact (proj1 (proj2 (@step_exceptions Scripted.runtime Scripted_sampler_laws self
                         (ReplayBuffer.state e) (ReplayBuffer.action e)
                         (ReplayBuffer.reward e) (ReplayBuffer.next_state e)
                         (ReplayBuffer.done e) w ragged_stack H1 H3 H4 H2))).
Defined.

(** ** An agent without actions *)

Section NoActions.
Context {RT : Runtime}.

(** X22.  With [action_size = 0] the constructor still returns, but
    [act] raises on every state of [state_size] components: the
    [ValueError] of [np.argmax] on no value when the draw exceeds
    [eps], the [IndexError] of [random.choice] on no index otherwise. *)
Theorem act_no_actions (state_size : nat) (seed : Z) (w w0 w1 : World)
    (agent : Agent.t) (state : list F64.t) (eps : F64.t) :
  Agent.init state_size 0 seed w = (Ok agent, w0) ->
  length state = state_size ->
  fst (Agent.act agent state eps w1) =
  Raise (if F64.ltb eps (fst (random_random (py_random w1)))
         then empty_argmax else empty_choice)
  /\ exn_class empty_argmax = "ValueError"
  /\ exn_class empty_choice = "IndexError".
Proof.
  intros Hinit Hlen. split; [| split; reflexivity].
  assert (Hfacts : arch_ok (Agent.qnetwork_local agent) state_size 0 = true
                   /\ Agent.action_size agent = 0%nat).
  { destruct ((- 2 ^ 63 <=? seed) && (seed <? 2 ^ 64)) eqn:Hseed.
    - apply andb_prop in Hseed as [Hlo Hhi]. revert Hinit. run_init.
      intros [= <- _]. unfold arch_ok. cbn. rewrite Nat.eqb_refl. split; reflexivity.
    - revert Hinit. unfold Agent.init, QNetwork.init, QNetwork.manual_seed.
      rewrite Hseed. unfold bind, py_seed, raise. discriminate. }
  destruct Hfacts as [Harch Hact].
  destruct (@forward_shape_ok _ (Agent.qnetwork_local agent) state_size 0%nat
              [map F32.of_f64 state] Harch) as (q & Hq & Hl & Hrows).
  { unfold rows_of. cbn [forallb]. rewrite length_map, Hlen, Nat.eqb_refl. reflexivity. }
  destruct q as [| row [| ? ?]]; try discriminate Hl.
  unfold rows_of in Hrows. cbn [forallb] in Hrows.
  apply andb_prop in Hrows as [Hrow _]. apply Nat.eqb_eq in Hrow.
  destruct row; [| discriminate Hrow].
  unfold Agent.act. unfold bind at 1. cbn [emit]. unfold bind at 1. unfold lift at 1.
  rewrite Hq. unfold bind at 1. unfold with_random at 1. cbn [py_random torch_gen trace].
  destruct (random_random (py_random w1)) as [r g]. cbn [fst].
  destruct (F64.ltb eps r); [reflexivity |].
  rewrite Hact. reflexivity.
Qed.
End NoActions.

Lemma act_no_actions_witness :
  let w := Scripted.world [] in
  let state := map F64.of_Z [1; 2; 3; 4] in
  exists agent w0,
    Agent.init 4 0 0 w = (Ok agent, w0)
    /\ length state = 4%nat
    /\ fst (Agent.act agent state (F64.of_Z 0) w) = Raise empty_argmax.
Proof.
  intros w state.
  destruct (@init_returns Scripted.runtime 4%nat 0%nat 0 w) as (agent & w0 & Hinit).
  { split; [discriminate | reflexivity]. }
  assert (Hlen : length state = 4%nat) by reflexivity.
  exists agent, w0. split; [exact Hinit |]. split; [exact Hlen |].
  exact (proj1 (@act_no_actions Scripted.runtime 4%nat 0 w w0 w agent state
                  (F64.of_Z 0) Hinit Hlen)).
Defined.
